(** * Graph-search job scheduler of Electron-Cash-SLP (lib/slp_graph_search.py)

    A shallow embedding of [GraphSearchJob] and [SlpGraphSearchManager]:
    the job object with its status fields, the two worker loops (one
    iteration of each is one step of the model), the recursive chunked
    traversal [search_query], the submission API and the class-level
    transaction cache.

    Python objects that are shared and mutated (jobs, cached transactions)
    live in object stores indexed by their identity; queues and the registry
    hold identities, as the Python containers hold references.  Everything
    the program obtains from outside (the validator's status flags, the
    backend's replies) is an argument of the step that reads it. *)

From Stdlib Require Import ZArith String List Lia Bool DecimalString DecimalZ DecimalPos.
From stdpp Require Import base option list gmap strings.

Local Open Scope Z_scope.

(** Python's [str] on an [int]. *)
Definition str (z : Z) : string := NilZero.string_of_int (Z.to_int z).

(** ** The validation job (external owner)

    [valjob_ref] is an object of the validator.  Its identity and root
    transaction id are fixed; [running], [has_never_run] and
    [network.slpdb_host] are changed by other threads at any time, so each
    step that reads them receives what it observed as an [OwnerStatus]. *)

Record ValidationJob := mkValjob {
  vj_id : nat;
  vj_root_txid : string
}.

Record OwnerStatus := mkOwner {
  running : bool;
  has_never_run : bool;
  slpdb_host : option string
}.

(** [not job.valjob.running and not job.valjob.has_never_run] *)
Definition owner_finished (own : OwnerStatus) : bool :=
  negb (running own) && negb (has_never_run own).

(** [not job.valjob.network.slpdb_host]: [None] and the empty string are falsy. *)
Definition host_unset (own : OwnerStatus) : bool :=
  match slpdb_host own with
  | None => true
  | Some h => if decide (h = "") then true else false
  end.

(** ** Callbacks

    A cancel callback is a closure.  The only one this module builds is the
    local [callback] of [restart_search]; callbacks supplied by other modules
    are opaque and appear in the trace only. *)

Inductive Callback :=
| CbRestartSearch
| CbExternal (tag : nat).

(** [job.last_search_url]: the host and the query the URL encodes. *)
Inductive SearchUrl :=
| UrlEmpty
| UrlQuery (host : string) (txids : list string) (max_depth : Z).

(** ** GraphSearchJob *)

Record GraphSearchJob := mkJob {
  root_txid : string;
  valjob : ValidationJob;
  (* metadata fetched from back end *)
  depth_map : option (gmap string (Z * Z));
  total_depth : option Z;
  txn_count_total : option Z;
  (* job status info *)
  search_started : bool;
  search_success : option bool;
  job_complete : bool;
  exit_msg : option string;
  depth_completed : Z;
  depth_current_query : option Z;
  txn_count_progress : Z;
  last_search_url : SearchUrl;
  (* ctl *)
  waiting_to_cancel : bool;
  cancel_callback : option Callback;
  fetch_retries : Z
}.

(** [GraphSearchJob.__init__] *)
Definition GraphSearchJob_init (txid : string) (valjob_ref : ValidationJob) : GraphSearchJob :=
  {| root_txid := txid; valjob := valjob_ref;
     depth_map := None; total_depth := None; txn_count_total := None;
     search_started := false; search_success := None; job_complete := false;
     exit_msg := None; depth_completed := 0; depth_current_query := None;
     txn_count_progress := 0; last_search_url := UrlEmpty;
     waiting_to_cancel := false; cancel_callback := None; fetch_retries := 0 |}.

(** Attribute assignments. *)
Definition set_metadata (td cnt : option Z) (dm : gmap string (Z * Z)) (job : GraphSearchJob) :=
  mkJob (root_txid job) (valjob job) (Some dm) td cnt
        (search_started job) (search_success job) (job_complete job) (exit_msg job)
        (depth_completed job) (depth_current_query job) (txn_count_progress job)
        (last_search_url job) (waiting_to_cancel job) (cancel_callback job) (fetch_retries job).

Definition set_search_started (b : bool) (job : GraphSearchJob) :=
  mkJob (root_txid job) (valjob job) (depth_map job) (total_depth job) (txn_count_total job)
        b (search_success job) (job_complete job) (exit_msg job)
        (depth_completed job) (depth_current_query job) (txn_count_progress job)
        (last_search_url job) (waiting_to_cancel job) (cancel_callback job) (fetch_retries job).

Definition set_search_success (b : option bool) (job : GraphSearchJob) :=
  mkJob (root_txid job) (valjob job) (depth_map job) (total_depth job) (txn_count_total job)
        (search_started job) b (job_complete job) (exit_msg job)
        (depth_completed job) (depth_current_query job) (txn_count_progress job)
        (last_search_url job) (waiting_to_cancel job) (cancel_callback job) (fetch_retries job).

Definition set_job_complete (b : bool) (job : GraphSearchJob) :=
  mkJob (root_txid job) (valjob job) (depth_map job) (total_depth job) (txn_count_total job)
        (search_started job) (search_success job) b (exit_msg job)
        (depth_completed job) (depth_current_query job) (txn_count_progress job)
        (last_search_url job) (waiting_to_cancel job) (cancel_callback job) (fetch_retries job).

Definition set_exit_msg (m : option string) (job : GraphSearchJob) :=
  mkJob (root_txid job) (valjob job) (depth_map job) (total_depth job) (txn_count_total job)
        (search_started job) (search_success job) (job_complete job) m
        (depth_completed job) (depth_current_query job) (txn_count_progress job)
        (last_search_url job) (waiting_to_cancel job) (cancel_callback job) (fetch_retries job).

Definition set_depth_completed (d : Z) (job : GraphSearchJob) :=
  mkJob (root_txid job) (valjob job) (depth_map job) (total_depth job) (txn_count_total job)
        (search_started job) (search_success job) (job_complete job) (exit_msg job)
        d (depth_current_query job) (txn_count_progress job)
        (last_search_url job) (waiting_to_cancel job) (cancel_callback job) (fetch_retries job).

Definition set_depth_current_query (d : option Z) (job : GraphSearchJob) :=
  mkJob (root_txid job) (valjob job) (depth_map job) (total_depth job) (txn_count_total job)
        (search_started job) (search_success job) (job_complete job) (exit_msg job)
        (depth_completed job) d (txn_count_progress job)
        (last_search_url job) (waiting_to_cancel job) (cancel_callback job) (fetch_retries job).

Definition set_txn_count_progress (n : Z) (job : GraphSearchJob) :=
  mkJob (root_txid job) (valjob job) (depth_map job) (total_depth job) (txn_count_total job)
        (search_started job) (search_success job) (job_complete job) (exit_msg job)
        (depth_completed job) (depth_current_query job) n
        (last_search_url job) (waiting_to_cancel job) (cancel_callback job) (fetch_retries job).

Definition set_last_search_url (u : SearchUrl) (job : GraphSearchJob) :=
  mkJob (root_txid job) (valjob job) (depth_map job) (total_depth job) (txn_count_total job)
        (search_started job) (search_success job) (job_complete job) (exit_msg job)
        (depth_completed job) (depth_current_query job) (txn_count_progress job)
        u (waiting_to_cancel job) (cancel_callback job) (fetch_retries job).

Definition set_waiting_to_cancel (b : bool) (job : GraphSearchJob) :=
  mkJob (root_txid job) (valjob job) (depth_map job) (total_depth job) (txn_count_total job)
        (search_started job) (search_success job) (job_complete job) (exit_msg job)
        (depth_completed job) (depth_current_query job) (txn_count_progress job)
        (last_search_url job) b (cancel_callback job) (fetch_retries job).

Definition set_cancel_callback (c : option Callback) (job : GraphSearchJob) :=
  mkJob (root_txid job) (valjob job) (depth_map job) (total_depth job) (txn_count_total job)
        (search_started job) (search_success job) (job_complete job) (exit_msg job)
        (depth_completed job) (depth_current_query job) (txn_count_progress job)
        (last_search_url job) (waiting_to_cancel job) c (fetch_retries job).

Definition set_fetch_retries (n : Z) (job : GraphSearchJob) :=
  mkJob (root_txid job) (valjob job) (depth_map job) (total_depth job) (txn_count_total job)
        (search_started job) (search_success job) (job_complete job) (exit_msg job)
        (depth_completed job) (depth_current_query job) (txn_count_progress job)
        (last_search_url job) (waiting_to_cancel job) (cancel_callback job) n.

(** [GraphSearchJob.sched_cancel(callback, reason)] *)
Definition sched_cancel (callback : option Callback) (reason : string)
    (job : GraphSearchJob) : GraphSearchJob :=
  let job := set_exit_msg (Some reason) job in
  if job_complete job then job
  else if negb (waiting_to_cancel job)
  then set_cancel_callback callback (set_waiting_to_cancel true job)
  else job.

(** The two assignments of [GraphSearchJob._cancel]; the callback call that
    follows them acts on the manager and is [_cancel] below. *)
Definition cancel_flags (job : GraphSearchJob) : GraphSearchJob :=
  set_search_success (Some false) (set_job_complete true job).

(** [GraphSearchJob.set_success] *)
Definition set_success (job : GraphSearchJob) : GraphSearchJob :=
  set_job_complete true (set_search_success (Some true) job).

(** [GraphSearchJob.set_failed(reason)] *)
Definition set_failed (reason : option string) (job : GraphSearchJob) : GraphSearchJob :=
  set_exit_msg reason
    (set_job_complete true
      (set_search_success (Some false)
        (set_search_started true job))).

(** The reply of the backend to [fetch_metadata], as the method sees it:
    the three values of the last element of ['g'] (a JSON [null] is [None]),
    a [KeyError] anywhere in the reply (an empty ['g'] included), which the
    method turns into [SlpdbErrorNoSearchData], or any other exception. *)
Inductive FetchResult :=
| FetchOk (totalDepth txcount : option Z) (depthMap : gmap string (Z * Z))
| FetchNoData
| FetchError (msg : string).

(** One element of ['g'] in the reply to a search request: the raw
    transactions of [dependsOn] (given here as the hex strings that
    [base64.b64decode(tx).hex()] yields) and the parallel list [depths]. *)
Record SearchReply := mkReply {
  dependsOn : list string;
  depths : list Z
}.

(** What [requests.post] and the decoding of its content give: the list
    ['g'], or an exception (timeout, connection failure, malformed reply).
    No attribute of the job is written between the request and the end of
    the decoding, so one error case covers them all. *)
Inductive SearchResponse :=
| RespOk (g : list SearchReply)
| RespError (msg : string).

(** ** Transactions and the class-level cache *)

(** Modelled from the spec: the [Transaction] class (lib/transaction.py) is
    not part of this module.  A record is an opaque value holding raw
    transaction bytes (hex), parsed on demand; [Transaction(raw)] builds an
    unparsed one. *)
Record Transaction := mkTx {
  raw : string;
  deserialized : bool
}.

Definition Transaction_new (r : string) : Transaction := mkTx r false.

(** Modelled from the spec: [ExpiringCache] (lib/caches.py) is not part of
    this module.  A capacity-bounded map from id to record; [put] overwrites
    the entry of a present id and evicts the oldest entry if at capacity;
    [get] returns the stored value or nothing.  Entries are kept oldest
    first; the values are references into the store of transaction objects. *)
Record ExpiringCache := mkCache {
  maxlen : Z;
  entries : list (string * nat)
}.

Fixpoint assoc (k : string) (es : list (string * nat)) : option nat :=
  match es with
  | [] => None
  | (k', v) :: es => if decide (k' = k) then Some v else assoc k es
  end.

Fixpoint remove_key (k : string) (es : list (string * nat)) : list (string * nat) :=
  match es with
  | [] => []
  | (k', v) :: es => if decide (k' = k) then remove_key k es else (k', v) :: remove_key k es
  end.

Definition cache_get (k : string) (c : ExpiringCache) : option nat :=
  assoc k (entries c).

Definition cache_put (k : string) (v : nat) (c : ExpiringCache) : ExpiringCache :=
  let es := remove_key k (entries c) in
  let es := if maxlen c <=? Z.of_nat (length es) then tail es else es in
  mkCache (maxlen c) (es ++ [(k, v)]).

(** The transaction objects alive in the process and the class attribute
    [_fetched_tx_cache]. *)
Record TxStore := mkTxStore {
  tx_objects : list Transaction;
  fetched_tx_cache : ExpiringCache
}.

(** [_fetched_tx_cache = ExpiringCache(maxlen=100000, ...)] *)
Definition TxStore_init : TxStore := mkTxStore [] (mkCache 100000 []).

(** A caller that holds a reference mutates the object behind it. *)
Definition tx_mutate (f : Transaction -> Transaction) (l : nat) (st : TxStore) : TxStore :=
  mkTxStore (alter f l (tx_objects st)) (fetched_tx_cache st).

(** The list [txns] that [search_query] builds from a reply: [depends_on]
    and [depths] collect the two lists of every element of ['g'], and
    [zip(depths, depends_on)] pairs them up to the shorter one. *)
Definition response_txns (g : list SearchReply) : list (Z * Transaction) :=
  let depends_on := concat (map dependsOn g) in
  let depths := concat (map depths g) in
  zip depths (map Transaction_new depends_on).

Inductive Outcome :=
| Return
| Recurse (txids : list string) (depth_map_index : Z)
| Raise (msg : string).

(** Events of a run, in the order they happen. *)
Inductive Event :=
| EvFetchMetadata (j : nat)
| EvSleep
| EvCancelCallback (j : nat) (cb : Callback)
| EvSearchRequest (j : nat) (txids : list string) (query_depth : Z).

(** ** SlpGraphSearchManager *)

Record SlpGraphSearchManager := mkManager {
  search_jobs : gmap string nat;
  metadata_queue : list nat;
  search_queue : list nat;
  (* the GraphSearchJob objects; a job's identity is its index *)
  jobs : list GraphSearchJob;
  (* the active call of search_query: job, txids, depth_map_index *)
  searching : option (nat * list string * Z);
  tx_store : TxStore
}.

(** [SlpGraphSearchManager.__init__] *)
Definition SlpGraphSearchManager_init : SlpGraphSearchManager :=
  mkManager ∅ [] [] [] None TxStore_init.

Definition cancel_thresh_txcount : Z := 20.

Definition set_search_jobs (r : gmap string nat) (s : SlpGraphSearchManager) :=
  mkManager r (metadata_queue s) (search_queue s) (jobs s) (searching s) (tx_store s).
Definition set_metadata_queue (q : list nat) (s : SlpGraphSearchManager) :=
  mkManager (search_jobs s) q (search_queue s) (jobs s) (searching s) (tx_store s).
Definition set_search_queue (q : list nat) (s : SlpGraphSearchManager) :=
  mkManager (search_jobs s) (metadata_queue s) q (jobs s) (searching s) (tx_store s).
Definition set_jobs (js : list GraphSearchJob) (s : SlpGraphSearchManager) :=
  mkManager (search_jobs s) (metadata_queue s) (search_queue s) js (searching s) (tx_store s).
Definition set_searching (f : option (nat * list string * Z)) (s : SlpGraphSearchManager) :=
  mkManager (search_jobs s) (metadata_queue s) (search_queue s) (jobs s) f (tx_store s).
Definition set_tx_store (st : TxStore) (s : SlpGraphSearchManager) :=
  mkManager (search_jobs s) (metadata_queue s) (search_queue s) (jobs s) (searching s) st.

(** Apply a method to the job object [j]. *)
Definition upd_job (j : nat) (f : GraphSearchJob -> GraphSearchJob)
    (s : SlpGraphSearchManager) : SlpGraphSearchManager :=
  set_jobs (alter f j (jobs s)) s.

(** [new_search(valjob_ref)]: returns the new job. *)
Definition new_search (valjob_ref : ValidationJob) (s : SlpGraphSearchManager)
    : SlpGraphSearchManager * nat :=
  let txid := vj_root_txid valjob_ref in
  let job := length (jobs s) in
  let s := set_jobs (jobs s ++ [GraphSearchJob_init txid valjob_ref]) s in
  (set_metadata_queue (metadata_queue s ++ [job]) s, job).

(** The local function [callback] of [restart_search]. *)
Definition restart_callback (j : nat) (s : SlpGraphSearchManager) : SlpGraphSearchManager :=
  match jobs s !! j with
  | None => s
  | Some job =>
      let s := set_search_jobs (delete (root_txid job) (search_jobs s)) s in
      fst (new_search (valjob job) s)
  end.

(** [restart_search(job)] *)
Definition restart_search (j : nat) (s : SlpGraphSearchManager) : SlpGraphSearchManager :=
  match jobs s !! j with
  | None => s
  | Some job =>
      if negb (job_complete job)
      then upd_job j (sched_cancel (Some CbRestartSearch) "job restarted") s
      else restart_callback j s
  end.

Definition run_callback (cb : Callback) (j : nat) (s : SlpGraphSearchManager)
    : SlpGraphSearchManager :=
  match cb with
  | CbRestartSearch => restart_callback j s
  | CbExternal _ => s
  end.

(** [GraphSearchJob._cancel], with the call of the callback. *)
Definition _cancel (j : nat) (s : SlpGraphSearchManager)
    : SlpGraphSearchManager * list Event :=
  let s := upd_job j cancel_flags s in
  match jobs s !! j with
  | None => (s, [])
  | Some job =>
      match cancel_callback job with
      | Some cb => (run_callback cb j s, [EvCancelCallback j cb])
      | None => (s, [])
      end
  end.

Section Model.

(** [Transaction._txid(raw)], which [txid_fast()] returns as well: the hash
    of the raw bytes, computed by lib/transaction.py. *)
Variable txid_of : string -> string.

Definition invalid_raw_msg : string :=
  "Please pass a tx which has a valid .raw attribute!".

(** [tx_cache_get(txid)]: the reference returned, if any, is to a new object. *)
Definition tx_cache_get (txid : string) (st : TxStore) : TxStore * option nat :=
  match cache_get txid (fetched_tx_cache st) with
  | None => (st, None)
  | Some l =>
      match tx_objects st !! l with
      | None => (st, None)
      | Some tx =>
          if decide (raw tx = "") then (st, None)
          else (mkTxStore (tx_objects st ++ [Transaction_new (raw tx)]) (fetched_tx_cache st),
                Some (length (tx_objects st)))
      end
  end.

(** [tx_cache_put(tx, txid=None)]: [tx] is what the argument refers to when
    the method reads it ([None] for Python's [None]); the second component
    is the message of the [ValueError] raised, if any. *)
Definition tx_cache_put (tx : option Transaction) (txid : option string) (st : TxStore)
    : TxStore * option string :=
  match tx with
  | None => (st, Some invalid_raw_msg)
  | Some tx =>
      if decide (raw tx = "") then (st, Some invalid_raw_msg)
      else
        let txid :=
          match txid with
          | None => txid_of (raw tx)
          | Some t => if decide (t = "") then txid_of (raw tx) else t
          end in
        let l := length (tx_objects st) in
        (mkTxStore (tx_objects st ++ [Transaction_new (raw tx)])
                   (cache_put txid l (fetched_tx_cache st)), None)
  end.

(** [for tx in txns: SlpGraphSearchManager.tx_cache_put(tx[1])] *)
Fixpoint tx_cache_put_all (txs : list Transaction) (st : TxStore) : TxStore * option string :=
  match txs with
  | [] => (st, None)
  | tx :: txs =>
      match tx_cache_put (Some tx) None st with
      | (st, Some e) => (st, Some e)
      | (st, None) => tx_cache_put_all txs st
      end
  end.

(** [str(e)] of the [KeyError] of a missing dictionary key. *)
Definition key_error (key : string) : string := "'" +:+ key +:+ "'".

(** [search_query(job, txids, depth_map_index)] from its second test on: one
    call, up to the recursive call, which is the outcome [Recurse]. *)
Definition search_query_chunk (own : OwnerStatus) (resp : SearchResponse) (j : nat)
    (txids : list string) (depth_map_index : Z) (job : GraphSearchJob) (st : TxStore)
    : GraphSearchJob * TxStore * list Event * Outcome :=
  if owner_finished own then (set_failed (Some "validation finished") job, st, [], Return)
  else
  let txids := if decide (depth_map_index = 0) then [root_txid job] else txids in
  match depth_map job with
  | None => (job, st, [], Raise "'NoneType' object is not subscriptable")
  | Some dm =>
  match dm !! str ((depth_map_index + 1) * 1000) with
  | None => (job, st, [], Raise (key_error (str ((depth_map_index + 1) * 1000))))
  | Some (boundary_depth, txn_count) =>
  let job := set_depth_current_query (Some boundary_depth) job in
  match (if 0 <? depth_map_index
         then (λ prev, boundary_depth - prev.1) <$> dm !! str (depth_map_index * 1000)
         else Some boundary_depth) with
  | None => (job, st, [], Raise (key_error (str (depth_map_index * 1000))))
  | Some query_depth =>
  match slpdb_host own with
  | None => (job, st, [], Raise "unsupported operand type(s) for +: 'NoneType' and 'str'")
  | Some host =>
  let job := set_last_search_url (UrlQuery host txids query_depth) job in
  let ev := [EvSearchRequest j txids query_depth] in
  match resp with
  | RespError msg => (job, st, ev, Raise msg)
  | RespOk g =>
  let txns := response_txns g in
  let job := set_txn_count_progress (txn_count_progress job + Z.of_nat (length txns)) job in
  match tx_cache_put_all (map snd txns) st with
  | (st, Some e) => (job, st, ev, Raise e)
  | (st, None) =>
  (* depth_map[str((depth_map_index+1)*1000)][0] is boundary_depth *)
  let job := match txns with [] => job | _ :: _ => set_depth_completed boundary_depth job end in
  match total_depth job with
  | None => (job, st, ev, Raise "'<' not supported between instances of 'int' and 'NoneType'")
  | Some total =>
      if depth_completed job <? total
      then (job, st, ev,
            Recurse (map (λ tx, txid_of (raw tx.2)) (filter (λ tx, tx.1 = query_depth) txns))
                    (depth_map_index + 1))
      else (set_success job, st, ev, Return)
  end end end end end end end.

(** One call of [search_query] on the job object [j] of the manager. *)
Definition search_query_call (own : OwnerStatus) (resp : SearchResponse) (j : nat)
    (txids : list string) (depth_map_index : Z) (s : SlpGraphSearchManager)
    : SlpGraphSearchManager * list Event * Outcome :=
  match jobs s !! j with
  | None => (s, [], Raise "no such job") (* a dangling identity; no run gets here *)
  | Some job =>
      if waiting_to_cancel job then
        let '(s, ev) := _cancel j s in (s, ev, Return)
      else
        let '(job, st, ev, out) :=
          search_query_chunk own resp j txids depth_map_index job (tx_store s) in
        (set_tx_store st (upd_job j (λ _, job) s), ev, out)
  end.

(** [search_query] as the recursive function it is.  Each call consumes what
    it observes of the outside; [None] when the observations end while the
    recursion is still going on. *)
Fixpoint search_query (env : list (OwnerStatus * SearchResponse)) (j : nat)
    (txids : list string) (depth_map_index : Z) (s : SlpGraphSearchManager)
    : SlpGraphSearchManager * list Event * option Outcome :=
  match env with
  | [] => (s, [], None)
  | (own, resp) :: env =>
      match search_query_call own resp j txids depth_map_index s with
      | (s, ev, Recurse txids depth_map_index) =>
          let '(s, ev', out) := search_query env j txids depth_map_index s in
          (s, ev ++ ev', out)
      | (s, ev, out) => (s, ev, Some out)
      end
  end.

(** One iteration of [metadata_loop]; [res] is the outcome of
    [job.fetch_metadata()] if the iteration gets to call it.  With an empty
    queue [get(block=True)] waits and nothing changes. *)
Definition metadata_loop (own : OwnerStatus) (res : FetchResult) (s : SlpGraphSearchManager)
    : SlpGraphSearchManager * list Event :=
  match metadata_queue s with
  | [] => (s, [])
  | j :: q =>
  let s := set_metadata_queue q s in
  match jobs s !! j with
  | None => (s, [])
  | Some job =>
  match search_jobs s !! root_txid job with
  | Some _ => (s, [])
  | None =>
  let s := set_search_jobs (<[root_txid job := j]> (search_jobs s)) s in
  if owner_finished own then (upd_job j (set_failed (Some "validation finished")) s, [])
  else if host_unset own then (upd_job j (set_failed (Some "SLPDB host not set")) s, [])
  else
  match res with
  | FetchNoData =>
      if 10 <? fetch_retries job
      then (upd_job j (set_failed (Some "No data found, right-click to try")) s,
            [EvFetchMetadata j])
      else
        let ev := match metadata_queue s with [] => [EvSleep] | _ => [] end in
        let s := upd_job j (λ job, set_fetch_retries (fetch_retries job + 1) job) s in
        (set_metadata_queue (metadata_queue s ++ [j]) s, EvFetchMetadata j :: ev)
  | FetchError msg => (upd_job j (set_failed (Some msg)) s, [EvFetchMetadata j])
  | FetchOk td cnt dm =>
      let s := upd_job j (set_metadata td cnt dm) s in
      match cnt with
      | None => (upd_job j (set_failed (Some "metadata error")) s, [EvFetchMetadata j])
      | Some n =>
          if n <=? cancel_thresh_txcount
          then (upd_job j (set_failed (Some "low txn count")) s, [EvFetchMetadata j])
          else (set_search_queue (search_queue s ++ [j]) s, [EvFetchMetadata j])
      end
  end end end end.

(** One iteration of [search_loop] up to the call of [search_query]. *)
Definition search_loop_dequeue (own : OwnerStatus) (s : SlpGraphSearchManager)
    : SlpGraphSearchManager :=
  match searching s with
  | Some _ => s
  | None =>
      match search_queue s with
      | [] => s
      | j :: q =>
          let s := upd_job j (set_search_started true) (set_search_queue q s) in
          if owner_finished own
          then upd_job j (set_failed (Some "validation finished")) s
          else set_searching (Some (j, [], 0)) s
      end
  end.

(** The active call of [search_query] runs; an exception that leaves it is
    caught by [search_loop]. *)
Definition search_loop_call (own : OwnerStatus) (resp : SearchResponse)
    (s : SlpGraphSearchManager) : SlpGraphSearchManager * list Event :=
  match searching s with
  | None => (s, [])
  | Some (j, txids, depth_map_index) =>
      match search_query_call own resp j txids depth_map_index s with
      | (s, ev, Return) => (set_searching None s, ev)
      | (s, ev, Recurse txids depth_map_index) =>
          (set_searching (Some (j, txids, depth_map_index)) s, ev)
      | (s, ev, Raise msg) =>
          (set_searching None (upd_job j (set_failed (Some msg)) s), ev)
      end
  end.

(** ** Runs: what the two worker threads and the callers of the API do, in
    the order it happens. *)
Inductive Op :=
| CallNewSearch (valjob_ref : ValidationJob)
| CallRestartSearch (j : nat)
| CallSchedCancel (j : nat) (callback : option Callback) (reason : string)
| MetadataLoop (own : OwnerStatus) (res : FetchResult)
| SearchLoopDequeue (own : OwnerStatus)
| SearchLoopCall (own : OwnerStatus) (resp : SearchResponse).

Definition step (o : Op) (s : SlpGraphSearchManager) : SlpGraphSearchManager * list Event :=
  match o with
  | CallNewSearch v => (fst (new_search v s), [])
  | CallRestartSearch j => (restart_search j s, [])
  | CallSchedCancel j cb reason => (upd_job j (sched_cancel cb reason) s, [])
  | MetadataLoop own res => metadata_loop own res s
  | SearchLoopDequeue own => (search_loop_dequeue own s, [])
  | SearchLoopCall own resp => search_loop_call own resp s
  end.

Fixpoint run (ops : list Op) (s : SlpGraphSearchManager) : SlpGraphSearchManager * list Event :=
  match ops with
  | [] => (s, [])
  | o :: ops =>
      let '(s, ev) := step o s in
      let '(s, ev') := run ops s in
      (s, ev ++ ev')
  end.

End Model.

(** ** Counting events of a trace *)

Definition is_fetch (j : nat) (e : Event) : bool :=
  match e with
  | EvFetchMetadata j' => bool_decide (j' = j)
  | _ => false
  end.

Definition is_cancel_callback (j : nat) (e : Event) : bool :=
  match e with
  | EvCancelCallback j' _ => bool_decide (j' = j)
  | _ => false
  end.

Fixpoint count (p : Event -> bool) (tr : list Event) : nat :=
  match tr with
  | [] => 0%nat
  | e :: tr => ((if p e then 1 else 0) + count p tr)%nat
  end.

(** Number of calls of [fetch_metadata] on job [j]. *)
Definition count_fetch (j : nat) (tr : list Event) : nat := count (is_fetch j) tr.

(** A job that ended in failure with the given reason. *)
Definition is_failed (msg : string) (job : GraphSearchJob) : Prop :=
  job_complete job = true /\ search_success job = Some false /\ exit_msg job = Some msg.

(** The failures of the metadata stage as the specification lists them, with
    the reason each one records (owner finished, missing host, fetch error,
    metadata error, low transaction count); C10 compares this list with what
    [metadata_loop] does. *)
Definition metadata_failure (own : OwnerStatus) (res : FetchResult) : option string :=
  if owner_finished own then Some "validation finished"
  else if host_unset own then Some "SLPDB host not set"
  else match res with
       | FetchError msg => Some msg
       | FetchOk _ None _ => Some "metadata error"
       | FetchOk _ (Some n) _ =>
           if n <=? cancel_thresh_txcount then Some "low txn count" else None
       | FetchNoData => None
       end.

(** The requested depth of chunk [k] as the specification words it: the
    depth at boundary key 1000 for chunk 0, and for a later chunk the depth
    at boundary key (k+1)*1000 minus the depth at boundary key k*1000. *)
Definition requested_depth (dm : gmap string (Z * Z)) (k : Z) : option Z :=
  if decide (k = 0) then fst <$> dm !! "1000"
  else
    match dm !! str ((k + 1) * 1000), dm !! str (k * 1000) with
    | Some (boundary, _), Some (previous, _) => Some (boundary - previous)
    | _, _ => None
    end.

(** ** Invariant of the runs *)

(** The job the search worker is working on. *)
Definition frame_job (s : SlpGraphSearchManager) : list nat :=
  match searching s with
  | Some (j, _, _) => [j]
  | None => []
  end.

(** The jobs a worker will still take up. *)
Definition pending (s : SlpGraphSearchManager) : list nat :=
  metadata_queue s ++ search_queue s ++ frame_job s.

Definition count_cancel_callback (j : nat) (tr : list Event) : nat :=
  count (is_cancel_callback j) tr.

(** What holds of job [j] after a run with trace [tr]: an identity not yet
    given out has no event; a job has between 0 and 11 retries and at most
    one fetch more than retries; while it waits in the metadata queue it had
    as many fetches as retries; while it is pending its callback has not been
    called, and it is called at most once. *)
Definition job_ok (s : SlpGraphSearchManager) (tr : list Event) (j : nat) : Prop :=
  match jobs s !! j with
  | None => count_fetch j tr = 0%nat /\ count_cancel_callback j tr = 0%nat
  | Some job =>
      0 <= fetch_retries job <= 11 /\
      Z.of_nat (count_fetch j tr) <= fetch_retries job + 1 /\
      (count_cancel_callback j tr <= 1)%nat /\
      (j ∈ metadata_queue s -> Z.of_nat (count_fetch j tr) = fetch_retries job) /\
      (j ∈ pending s -> count_cancel_callback j tr = 0%nat)
  end.

Definition Inv (s : SlpGraphSearchManager) (tr : list Event) : Prop :=
  NoDup (pending s) /\
  (forall j, j ∈ pending s -> (j < length (jobs s))%nat) /\
  (forall j, job_ok s tr j).

(** ** Well-formed metadata *)

(** The integer a dictionary key spells, if it spells one. *)
Definition unstr (key : string) : option Z :=
  Z.of_int <$> NilZero.int_of_string key.

(** A depth map as the data model describes it: every boundary depth lies
    between 0 and the total depth, and the depths do not decrease as the
    boundary key grows. *)
Definition depth_map_ok (dm : gmap string (Z * Z)) (total : Z) : bool :=
  let es := map_to_list dm in
  forallb (λ e, (0 <=? e.2.1) && (e.2.1 <=? total)) es &&
  forallb (λ e1,
    forallb (λ e2,
      match unstr e1.1, unstr e2.1 with
      | Some a, Some b => if a <=? b then e1.2.1 <=? e2.2.1 else true
      | _, _ => true
      end) es) es.

Definition fetch_ok (res : FetchResult) : bool :=
  match res with
  | FetchOk (Some total) _ dm => (0 <=? total) && depth_map_ok dm total
  | FetchOk None _ _ => false
  | _ => true
  end.

(** A step whose metadata reply, if it brings one, is well formed. *)
Definition op_ok (o : Op) : bool :=
  match o with
  | MetadataLoop _ res => fetch_ok res
  | _ => true
  end.

Definition wf_depth_map (dm : gmap string (Z * Z)) (total : Z) : Prop :=
  0 <= total /\
  (forall i d c, dm !! str (i * 1000) = Some (d, c) -> 0 <= d <= total) /\
  (forall m n d1 c1 d2 c2,
     m <= n ->
     dm !! str (m * 1000) = Some (d1, c1) ->
     dm !! str (n * 1000) = Some (d2, c2) -> d1 <= d2).

Definition meta_ok (job : GraphSearchJob) : Prop :=
  forall dm, depth_map job = Some dm ->
    exists total, total_depth job = Some total /\ wf_depth_map dm total.

(** [depth_completed] is not negative and does not exceed [total_depth]. *)
Definition dc_ok (job : GraphSearchJob) : Prop :=
  0 <= depth_completed job /\
  forall total, total_depth job = Some total -> depth_completed job <= total.

(** In a call with chunk index [k], the boundaries still to come are not
    below [depth_completed]. *)
Definition frame_ok (job : GraphSearchJob) (k : Z) : Prop :=
  0 <= k /\
  forall dm i d c,
    depth_map job = Some dm -> k + 1 <= i ->
    dm !! str (i * 1000) = Some (d, c) -> depth_completed job <= d.

Definition dinv (s : SlpGraphSearchManager) (j : nat) : Prop :=
  match jobs s !! j with
  | None => True
  | Some job =>
      meta_ok job /\ dc_ok job /\
      (j ∈ metadata_queue s ++ search_queue s -> depth_completed job = 0) /\
      (forall txids k, searching s = Some (j, txids, k) -> frame_ok job k)
  end.

Definition Dinv (s : SlpGraphSearchManager) : Prop := forall j, dinv s j.

(** No job object disappears and no [depth_completed] goes down. *)
Definition mono (s s' : SlpGraphSearchManager) : Prop :=
  forall j job, jobs s !! j = Some job ->
    exists job', jobs s' !! j = Some job' /\ depth_completed job <= depth_completed job'.

(** The three attributes the progress invariant reads. *)
Definition same_depth (job job' : GraphSearchJob) : Prop :=
  depth_map job' = depth_map job /\
  total_depth job' = total_depth job /\
  depth_completed job' = depth_completed job.

(** ** fetch_metadata and metadata_query *)

(** One element of ['g'] in the reply to the metadata request: each of the
    three keys is there or not ([None]), and a number that is there may be
    JSON's [null] (the inner [None]). *)
Record MetadataReply := mkMetadataReply {
  r_depthMap : option (gmap string (Z * Z));
  r_txcount : option (option Z);
  r_totalDepth : option (option Z)
}.

(** What [requests.get] and [json.loads] give to [metadata_query]: the
    decoded object, of which only the value of ['g'] is read ([None] when the
    object has no such key), or an exception that is not a [KeyError]. *)
Inductive MetadataResponse :=
| MetaJson (g : option (list MetadataReply))
| MetaError (msg : string).

(** The dictionary [o] that [metadata_query] builds from an element. *)
Record MetadataDict := mkMetadataDict {
  o_depthMap : gmap string (Z * Z);
  o_txcount : option Z;
  o_totalDepth : option Z
}.

Inductive Raised (A : Type) :=
| Value (a : A)
| KeyError (key : string)
| OtherError (msg : string).
Arguments Value {A} a.
Arguments KeyError {A} key.
Arguments OtherError {A} msg.

(** [{ 'depthMap': resp['depthMap'], 'txcount': resp['txcount'],
      'totalDepth': resp['totalDepth'] }], evaluated left to right. *)
Definition metadata_element (resp : MetadataReply) : Raised MetadataDict :=
  match r_depthMap resp with
  | None => KeyError "depthMap"
  | Some dm =>
      match r_txcount resp with
      | None => KeyError "txcount"
      | Some cnt =>
          match r_totalDepth resp with
          | None => KeyError "totalDepth"
          | Some td => Value (mkMetadataDict dm cnt td)
          end
      end
  end.

(** The loop of [metadata_query]: [res] is the dictionary so far, [None] for
    the empty [dict()]. *)
Fixpoint metadata_query_loop (g : list MetadataReply) (res : option MetadataDict)
    : Raised (option MetadataDict) :=
  match g with
  | [] => Value res
  | resp :: g =>
      match metadata_element resp with
      | Value o => metadata_query_loop g (Some o)
      | KeyError key => KeyError key
      | OtherError msg => OtherError msg
      end
  end.

(** [metadata_query(txid, slpdb_host)], given the reply to its request. *)
Definition metadata_query (reply : MetadataResponse) : Raised (option MetadataDict) :=
  match reply with
  | MetaError msg => OtherError msg
  | MetaJson None => KeyError "g"
  | MetaJson (Some g) => metadata_query_loop g None
  end.

(** How a call of [fetch_metadata] ends. *)
Inductive FetchOutcome :=
| Fetched (job : GraphSearchJob)
| SlpdbErrorNoSearchData (msg : string)
| FetchException (msg : string).

(** [GraphSearchJob.fetch_metadata()]: the three assignments, with a
    [KeyError] turned into [SlpdbErrorNoSearchData(str(e))]. *)
Definition fetch_metadata (reply : MetadataResponse) (job : GraphSearchJob) : FetchOutcome :=
  match metadata_query reply with
  | Value None => SlpdbErrorNoSearchData (key_error "totalDepth")
  | Value (Some res) =>
      Fetched (set_metadata (o_totalDepth res) (o_txcount res) (o_depthMap res) job)
  | KeyError key => SlpdbErrorNoSearchData (key_error key)
  | OtherError msg => FetchException msg
  end.

(** The same call as [metadata_loop] sees it. *)
Definition fetch_result (reply : MetadataResponse) : FetchResult :=
  match metadata_query reply with
  | Value None => FetchNoData
  | Value (Some res) => FetchOk (o_totalDepth res) (o_txcount res) (o_depthMap res)
  | KeyError _ => FetchNoData
  | OtherError msg => FetchError msg
  end.

(** An element of ['g'] that has the three keys. *)
Definition reply_complete (resp : MetadataReply) : bool :=
  match r_depthMap resp, r_txcount resp, r_totalDepth resp with
  | Some _, Some _, Some _ => true
  | _, _, _ => false
  end.

(** ** Status of the jobs of a run *)

(** What the status attributes of one job say together: the job is complete
    exactly when [search_success] has been set; a complete job reads as
    started; a successful one has reached its total depth. *)
Definition jstat (job : GraphSearchJob) : Prop :=
  (job_complete job = true <-> is_Some (search_success job)) /\
  (job_complete job = true -> search_started job = true) /\
  (search_success job = Some true ->
     exists total, total_depth job = Some total /\ total <= depth_completed job).

Definition sinv (s : SlpGraphSearchManager) (j : nat) : Prop :=
  match jobs s !! j with
  | None => True
  | Some job =>
      jstat job /\
      (j ∈ pending s -> job_complete job = false) /\
      (j ∈ frame_job s -> search_started job = true)
  end.

Definition Sinv (s : SlpGraphSearchManager) : Prop := forall j, sinv s j.

(** What can still happen to the object of a job that no worker will take
    up again: a cancellation request, which writes [exit_msg] and, on a job
    that is not complete, registers itself. *)
Definition settled_change (job job' : GraphSearchJob) : Prop :=
  job' = job \/ exists cb reason, job' = sched_cancel cb reason job.

(** Job [j] from a state to a later one: the object stays, with its root id
    and owner; a job that is in no queue and not with the search worker stays
    out of them and only sees cancellation requests. *)
Definition kept (s s' : SlpGraphSearchManager) (j : nat) : Prop :=
  forall job, jobs s !! j = Some job ->
    exists job', jobs s' !! j = Some job' /\
      root_txid job' = root_txid job /\ valjob job' = valjob job /\
      (j ∉ pending s -> (j ∉ pending s') /\ settled_change job job').

(** A job the metadata stage has let through: it has a depth map and a
    transaction count above the threshold. *)
Definition vetted (job : GraphSearchJob) : Prop :=
  exists n dm,
    txn_count_total job = Some n /\ cancel_thresh_txcount < n /\ depth_map job = Some dm.

(** The jobs on the search queue and the one with the search worker have
    been let through. *)
Definition Ainv (s : SlpGraphSearchManager) : Prop :=
  forall j job, jobs s !! j = Some job -> j ∈ search_queue s ++ frame_job s -> vetted job.

(** The registry maps a root id to a job that has this root id. *)
Definition Rinv (s : SlpGraphSearchManager) : Prop :=
  forall r j, search_jobs s !! r = Some j ->
    exists job, jobs s !! j = Some job /\ root_txid job = r.

(** A step other than a call of [restart_search] (whose callback nothing
    else can register). *)
Definition no_restart (o : Op) : bool :=
  match o with
  | CallRestartSearch _ => false
  | CallSchedCancel _ (Some CbRestartSearch) _ => false
  | _ => true
  end.

(** In a run without restarts: no job has the restart callback; a job has
    no more retries than fetches and at most one fetch; once it has been
    fetched its root id is registered; and a job with a retry is not
    complete and neither on the search queue nor with the search worker. *)
Definition finv (s : SlpGraphSearchManager) (tr : list Event) (j : nat) : Prop :=
  match jobs s !! j with
  | None => count_fetch j tr = 0%nat
  | Some job =>
      cancel_callback job ≠ Some CbRestartSearch /\
      fetch_retries job <= Z.of_nat (count_fetch j tr) /\
      (count_fetch j tr <= 1)%nat /\
      ((0 < count_fetch j tr)%nat -> is_Some (search_jobs s !! root_txid job)) /\
      (0 < fetch_retries job ->
         job_complete job = false /\ j ∉ search_queue s ++ frame_job s)
  end.

Definition Finv (s : SlpGraphSearchManager) (tr : list Event) : Prop := forall j, finv s tr j.

(** The keys of a depth map that spell a number from the boundary of chunk
    [k] on. *)
Definition boundary_from (k : Z) (key : string) : bool :=
  match unstr key with
  | Some z => (k + 1) * 1000 <=? z
  | None => false
  end.

Definition boundaries_from (dm : gmap string (Z * Z)) (k : Z) : gset string :=
  filter (λ key, boundary_from k key = true) (dom dm).

(** A bound on the calls of [search_query] that can still recurse from chunk
    [k]: the boundary keys the depth map of job [j] has from there on. *)
Definition rounds_left (s : SlpGraphSearchManager) (j : nat) (k : Z) : nat :=
  match jobs s !! j with
  | Some job =>
      match depth_map job with
      | Some dm => size (boundaries_from dm k)
      | None => 0
      end
  | None => 0
  end.

(** ** Users of the transaction cache *)

(** What a user of the class does with the cache: put a transaction, or get
    one and do something ([f]: deserialize it, say) to the object returned. *)
Inductive CacheOp :=
| CachePut (tx : option Transaction) (txid : option string)
| CacheGet (txid : string) (f : Transaction -> Transaction).

Definition cache_step (txid_of : string -> string) (o : CacheOp) (st : TxStore) : TxStore :=
  match o with
  | CachePut tx txid => (tx_cache_put txid_of tx txid st).1
  | CacheGet txid f =>
      match tx_cache_get txid st with
      | (st, Some l) => tx_mutate f l st
      | (st, None) => st
      end
  end.

(** The cache is a class attribute: the search worker and the other users of
    the class act on the same one, in any order. *)
Definition shared_step (txid_of : string -> string) (o : Op + CacheOp)
    (s : SlpGraphSearchManager) : SlpGraphSearchManager :=
  match o with
  | inl o => (step txid_of o s).1
  | inr c => set_tx_store (cache_step txid_of c (tx_store s)) s
  end.

Definition shared_run (txid_of : string -> string) (ops : list (Op + CacheOp))
    (s : SlpGraphSearchManager) : SlpGraphSearchManager :=
  fold_left (λ s o, shared_step txid_of o s) ops s.

(** Every entry of the cache refers to an object that is there, is not
    deserialized and has raw bytes. *)
Definition cache_ok (st : TxStore) : Prop :=
  forall k l, (k, l) ∈ entries (fetched_tx_cache st) ->
    exists tx, tx_objects st !! l = Some tx /\ deserialized tx = false /\ raw tx ≠ "".

(** ** Concrete inputs used by the examples *)

Definition demo_txid (r : string) : string := "txid:" +:+ r.

Definition demo_valjob : ValidationJob := mkValjob 0 "root".

Definition demo_live : OwnerStatus := mkOwner true false (Some "https://slpdb.example").

Definition demo_finished : OwnerStatus := mkOwner false false (Some "https://slpdb.example").

Definition demo_job : GraphSearchJob := GraphSearchJob_init "root" demo_valjob.

(** One job submitted and waiting in the metadata queue. *)
Definition demo_submitted : SlpGraphSearchManager :=
  (new_search demo_valjob SlpGraphSearchManager_init).1.

(** A depth map with two boundaries, for an ancestry of depth 9. *)
Definition demo_depth_map : gmap string (Z * Z) :=
  <["1000" := (5, 1000)]> (<["2000" := (9, 1500)]> ∅).

Definition demo_metadata : FetchResult := FetchOk (Some 9) (Some 1500) demo_depth_map.

Definition demo_fetched_job : GraphSearchJob :=
  set_search_started true (set_metadata (Some 9) (Some 1500) demo_depth_map demo_job).

(** Replies to the first and to the second chunk. *)
Definition demo_reply_0 : list SearchReply := [mkReply ["aa"; "bb"; "cc"] [1; 5; 5]].
Definition demo_reply_1 : list SearchReply := [mkReply ["dd"] [4]].

(** A search that has gone through its first chunk. *)
Definition demo_search_ops : list Op :=
  [CallNewSearch demo_valjob; MetadataLoop demo_live demo_metadata;
   SearchLoopDequeue demo_live; SearchLoopCall demo_live (RespOk demo_reply_0)].

(** A job the search worker holds and whose cancellation has been requested. *)
Definition demo_cancel_ops : list Op :=
  [CallNewSearch demo_valjob; MetadataLoop demo_live demo_metadata;
   SearchLoopDequeue demo_live; CallSchedCancel 0%nat (Some (CbExternal 7)) "user request"].

(** Two jobs for one root id, the first of them registered. *)
Definition demo_duplicate_ops : list Op :=
  [CallNewSearch demo_valjob; CallNewSearch demo_valjob;
   MetadataLoop demo_live (FetchError "timeout")].

(** A job that failed on a low count is restarted; the new job (1) never
    gets data, and job 0 is restarted again after each attempt of job 1,
    which takes the root id out of the registry. *)
Definition demo_retry_round : list Op :=
  [CallRestartSearch 0%nat; MetadataLoop demo_live FetchNoData; MetadataLoop demo_live FetchNoData].

Definition demo_retry_ops : list Op :=
  [CallNewSearch demo_valjob; MetadataLoop demo_live (FetchOk (Some 3) (Some 5) ∅);
   CallRestartSearch 0%nat; MetadataLoop demo_live FetchNoData]
  ++ concat (replicate 11 demo_retry_round).

(** Metadata whose first boundary depth is above the total depth, and
    metadata whose boundary depths go down. *)
Definition demo_deep_map : gmap string (Z * Z) := <["1000" := (50, 1000)]> ∅.

Definition demo_deep_ops : list Op :=
  [CallNewSearch demo_valjob;
   MetadataLoop demo_live (FetchOk (Some 30) (Some 1500) demo_deep_map);
   SearchLoopDequeue demo_live; SearchLoopCall demo_live (RespOk demo_reply_0)].

Definition demo_falling_map : gmap string (Z * Z) :=
  <["1000" := (50, 1000)]> (<["2000" := (40, 1500)]> ∅).

Definition demo_falling_ops : list Op :=
  [CallNewSearch demo_valjob;
   MetadataLoop demo_live (FetchOk (Some 60) (Some 1500) demo_falling_map);
   SearchLoopDequeue demo_live; SearchLoopCall demo_live (RespOk demo_reply_0)].

(** A reply to the metadata request with two elements: the values of the
    first one are overwritten by those of the last one. *)
Definition demo_meta_stale : MetadataReply :=
  mkMetadataReply (Some ∅) (Some (Some 1)) (Some None).

Definition demo_meta_last : MetadataReply :=
  mkMetadataReply (Some demo_depth_map) (Some (Some 1500)) (Some (Some 9)).

(** The job with its metadata while the search worker calls [search_query]
    on it at chunk [k]. *)
Definition demo_at_chunk (k : Z) : SlpGraphSearchManager :=
  mkManager ∅ [] [] [demo_fetched_job] (Some (0%nat, ["aa"], k)) TxStore_init.



(** A reply whose second transaction has no raw bytes. *)
Definition demo_reply_bad : list SearchReply := [mkReply ["aa"; ""; "cc"] [1; 5; 5]].

(** The search of the demo job to its end. *)
Definition demo_success_ops : list Op :=
  demo_search_ops ++ [SearchLoopCall demo_live (RespOk demo_reply_1)].

(** A job that finds no data is put back and then dropped. *)
Definition demo_no_data_ops : list Op :=
  [CallNewSearch demo_valjob; MetadataLoop demo_live FetchNoData;
   MetadataLoop demo_live FetchNoData; MetadataLoop demo_live demo_metadata].

(** What three calls of [search_query] observe. *)
Definition demo_env : list (OwnerStatus * SearchResponse) :=
  [(demo_live, RespOk demo_reply_0); (demo_live, RespOk demo_reply_1); (demo_live, RespOk [])].

(** A user puts a deserialized transaction, gets it back and deserializes
    what it got. *)
Definition demo_cache_ops : list (Op + CacheOp) :=
  [inr (CachePut (Some (mkTx "0100" true)) None);
   inr (CacheGet (demo_txid "0100") (λ tx, mkTx (raw tx) true))].

(** * Properties *)

Section Properties.

Variable txid_of : string -> string.

Implicit Types (s : SlpGraphSearchManager) (job : GraphSearchJob) (j : nat).
Implicit Types (own : OwnerStatus) (tr ev : list Event).

(** ** Object store *)

Lemma upd_job_lookup j f s :
  jobs (upd_job j f s) !! j = f <$> jobs s !! j.
Proof. apply list_lookup_alter_eq. Qed.

Lemma upd_job_lookup_ne j j' f s :
  j ≠ j' -> jobs (upd_job j f s) !! j' = jobs s !! j'.
Proof. intros. by apply list_lookup_alter_ne. Qed.

Lemma upd_job_length j f s : length (jobs (upd_job j f s)) = length (jobs s).
Proof. apply length_alter. Qed.

(** ** The metadata stage *)

(** What an iteration does with a job whose root id is not registered and
    whose owner is live with a host set: the fetch is issued. *)
Lemma metadata_loop_fetch own res s j q job :
  metadata_queue s = j :: q ->
  jobs s !! j = Some job ->
  search_jobs s !! root_txid job = None ->
  owner_finished own = false ->
  host_unset own = false ->
  metadata_loop own res s =
    let s := set_search_jobs (<[root_txid job := j]> (search_jobs s)) (set_metadata_queue q s) in
    match res with
    | FetchNoData =>
        if 10 <? fetch_retries job
        then (upd_job j (set_failed (Some "No data found, right-click to try")) s,
              [EvFetchMetadata j])
        else
          (set_metadata_queue (q ++ [j])
             (upd_job j (λ job, set_fetch_retries (fetch_retries job + 1) job) s),
           EvFetchMetadata j :: match q with [] => [EvSleep] | _ => [] end)
    | FetchError msg => (upd_job j (set_failed (Some msg)) s, [EvFetchMetadata j])
    | FetchOk td cnt dm =>
        let s := upd_job j (set_metadata td cnt dm) s in
        match cnt with
        | None => (upd_job j (set_failed (Some "metadata error")) s, [EvFetchMetadata j])
        | Some n =>
            if n <=? 20
            then (upd_job j (set_failed (Some "low txn count")) s, [EvFetchMetadata j])
            else (set_search_queue (search_queue s ++ [j]) s, [EvFetchMetadata j])
        end
    end.
Proof.
  intros Hq Hj Hreg Hown Hhost. unfold metadata_loop.
  rewrite Hq. cbn [jobs set_metadata_queue]. rewrite Hj.
  cbn [search_jobs set_metadata_queue]. rewrite Hreg, Hown, Hhost. reflexivity.
Qed.

(** C4: admission after a successful metadata fetch.  A count of 20 (and any
    count up to the threshold, which is 20) fails the job with "low txn
    count"; 21 (and any larger count) puts the job at the end of the search
    queue and leaves it non-terminal; an absent count fails it with
    "metadata error". *)
Theorem C4_admission own td cnt dm s j q job :
  metadata_queue s = j :: q ->
  jobs s !! j = Some job ->
  search_jobs s !! root_txid job = None ->
  owner_finished own = false ->
  host_unset own = false ->
  let s' := (metadata_loop own (FetchOk td cnt dm) s).1 in
  cancel_thresh_txcount = 20 /\
  exists job',
    jobs s' !! j = Some job' /\
    match cnt with
    | None => is_failed "metadata error" job' /\ search_queue s' = search_queue s
    | Some n =>
        (n <= 20 -> is_failed "low txn count" job' /\ search_queue s' = search_queue s) /\
        (21 <= n ->
           search_queue s' = search_queue s ++ [j] /\
           job_complete job' = job_complete job /\
           search_success job' = search_success job /\
           exit_msg job' = exit_msg job)
    end.
Proof.
  intros Hq Hj Hreg Hown Hhost s'. subst s'. split; [reflexivity|].
  rewrite (metadata_loop_fetch _ _ _ _ _ _ Hq Hj Hreg Hown Hhost). cbn zeta.
  unfold is_failed. destruct cnt as [n|].
  - destruct (Z.leb_spec n 20); cbn [fst].
    + rewrite !upd_job_lookup. cbn [jobs set_search_jobs set_metadata_queue].
      rewrite Hj. eexists; split; [reflexivity|]. split; [auto|lia].
    + cbn [jobs set_search_queue]. rewrite upd_job_lookup.
      cbn [jobs set_search_jobs set_metadata_queue]. rewrite Hj.
      eexists; split; [reflexivity|]. split; [lia|auto].
  - cbn [fst]. rewrite !upd_job_lookup. cbn [jobs set_search_jobs set_metadata_queue].
    rewrite Hj. eexists; split; [reflexivity|]. auto.
Qed.

(** The registry after an iteration that registers the job. *)
Lemma metadata_loop_registers own res s j q job :
  metadata_queue s = j :: q ->
  jobs s !! j = Some job ->
  search_jobs s !! root_txid job = None ->
  search_jobs (metadata_loop own res s).1 = <[root_txid job := j]> (search_jobs s).
Proof.
  intros Hq Hj Hreg. unfold metadata_loop.
  rewrite Hq. cbn [jobs set_metadata_queue]. rewrite Hj.
  cbn [search_jobs set_metadata_queue]. rewrite Hreg.
  repeat case_match; reflexivity.
Qed.

(** C7: a dequeued job whose root id is already registered is dropped: no
    job object changes, nothing is called, the registered job stays the
    entry of that root id and the search queue is untouched; a dequeued job
    whose root id is not registered becomes the entry of its root id. *)
Theorem C7_dedup own res s j q job :
  metadata_queue s = j :: q ->
  jobs s !! j = Some job ->
  (forall j0, search_jobs s !! root_txid job = Some j0 ->
     metadata_loop own res s = (set_metadata_queue q s, []) /\
     jobs (metadata_loop own res s).1 = jobs s /\
     search_jobs (metadata_loop own res s).1 = search_jobs s /\
     search_jobs (metadata_loop own res s).1 !! root_txid job = Some j0 /\
     search_queue (metadata_loop own res s).1 = search_queue s /\
     (metadata_loop own res s).2 = []) /\
  (search_jobs s !! root_txid job = None ->
     search_jobs (metadata_loop own res s).1 = <[root_txid job := j]> (search_jobs s) /\
     search_jobs (metadata_loop own res s).1 !! root_txid job = Some j).
Proof.
  intros Hq Hj. split.
  - intros j0 Hreg.
    assert (metadata_loop own res s = (set_metadata_queue q s, [])) as ->.
    { unfold metadata_loop. rewrite Hq. cbn [jobs set_metadata_queue]. rewrite Hj.
      cbn [search_jobs set_metadata_queue]. by rewrite Hreg. }
    by cbn.
  - intros Hreg. rewrite (metadata_loop_registers _ _ _ _ _ _ Hq Hj Hreg).
    split; [done|]. apply lookup_insert_eq.
Qed.

Lemma set_failed_spec reason job :
  search_started (set_failed reason job) = true /\
  job_complete (set_failed reason job) = true /\
  search_success (set_failed reason job) = Some false /\
  exit_msg (set_failed reason job) = reason.
Proof. done. Qed.

(** ** Cancellation and restart *)

Lemma sched_cancel_complete cb reason job :
  job_complete job = true ->
  sched_cancel cb reason job = set_exit_msg (Some reason) job.
Proof. intros H. unfold sched_cancel. cbn. by rewrite H. Qed.

Lemma sched_cancel_pending cb reason job :
  job_complete job = false ->
  waiting_to_cancel (sched_cancel cb reason job) = true /\
  job_complete (sched_cancel cb reason job) = false /\
  exit_msg (sched_cancel cb reason job) = Some reason /\
  cancel_callback (sched_cancel cb reason job) =
    (if waiting_to_cancel job then cancel_callback job else cb).
Proof.
  intros H. unfold sched_cancel. cbn. rewrite H.
  destruct (waiting_to_cancel job) eqn:Hw; cbn; auto.
Qed.

Lemma sched_cancel_identity cb reason job :
  root_txid (sched_cancel cb reason job) = root_txid job /\
  valjob (sched_cancel cb reason job) = valjob job /\
  fetch_retries (sched_cancel cb reason job) = fetch_retries job /\
  depth_completed (sched_cancel cb reason job) = depth_completed job /\
  depth_map (sched_cancel cb reason job) = depth_map job /\
  total_depth (sched_cancel cb reason job) = total_depth job.
Proof. unfold sched_cancel. cbn. by repeat case_match. Qed.

(** The callback of [restart_search]: the root id of the job leaves the
    registry and a new job for the same owner is submitted. *)
Lemma restart_callback_spec j s job :
  jobs s !! j = Some job ->
  search_jobs (restart_callback j s) = delete (root_txid job) (search_jobs s) /\
  jobs (restart_callback j s) =
    jobs s ++ [GraphSearchJob_init (vj_root_txid (valjob job)) (valjob job)] /\
  metadata_queue (restart_callback j s) = metadata_queue s ++ [length (jobs s)] /\
  search_queue (restart_callback j s) = search_queue s /\
  searching (restart_callback j s) = searching s /\
  tx_store (restart_callback j s) = tx_store s.
Proof. intros H. unfold restart_callback. rewrite H. done. Qed.

Lemma run_callback_jobs cb j s :
  exists new, jobs (run_callback cb j s) = jobs s ++ new.
Proof.
  destruct cb as [|tag]; cbn.
  - unfold restart_callback. destruct (jobs s !! j) as [job|] eqn:Hj.
    + eexists. reflexivity.
    + exists []. by rewrite app_nil_r.
  - exists []. by rewrite app_nil_r.
Qed.

(** [_cancel]: the job object gets the two flags, and the callback, if one is
    registered, is called once. *)
Lemma cancel_spec j s job :
  jobs s !! j = Some job ->
  jobs (_cancel j s).1 !! j = Some (cancel_flags job) /\
  (_cancel j s).2 =
    match cancel_callback job with
    | Some cb => [EvCancelCallback j cb]
    | None => []
    end /\
  (_cancel j s).1 =
    match cancel_callback job with
    | Some cb => run_callback cb j (upd_job j cancel_flags s)
    | None => upd_job j cancel_flags s
    end.
Proof.
  intros Hj. unfold _cancel. rewrite upd_job_lookup, Hj. cbn [fmap option_fmap option_map cancel_flags cancel_callback set_search_success set_job_complete].
  destruct (cancel_callback job) as [cb|] eqn:Hcb; cbn [fst snd].
  - split; [|done].
    destruct (run_callback_jobs cb j (upd_job j cancel_flags s)) as [new ->].
    apply lookup_app_l_Some. by rewrite upd_job_lookup, Hj.
  - by rewrite upd_job_lookup, Hj.
Qed.

Lemma search_loop_call_cancel own resp j txids k s job :
  searching s = Some (j, txids, k) ->
  jobs s !! j = Some job ->
  waiting_to_cancel job = true ->
  search_loop_call txid_of own resp s = (set_searching None (_cancel j s).1, (_cancel j s).2).
Proof.
  intros Hs Hj Hw. unfold search_loop_call, search_query_call.
  rewrite Hs, Hj, Hw. by destruct (_cancel j s).
Qed.

(** C9: [restart_search] on a job that is not complete only requests its
    cancellation, with reason "job restarted" and the restart callback; that
    callback removes the root id of the job from the registry and submits a
    new job for the same owner; on a complete job [restart_search] does
    exactly what the callback does, at once, and requests no cancellation.
    A restarted job that the search worker holds ends canceled with that
    reason at its next call of [search_query], the callback having run. *)
Theorem C9_restart j s job :
  jobs s !! j = Some job ->
  (job_complete job = false ->
     restart_search j s = upd_job j (sched_cancel (Some CbRestartSearch) "job restarted") s /\
     search_jobs (restart_search j s) = search_jobs s /\
     metadata_queue (restart_search j s) = metadata_queue s /\
     length (jobs (restart_search j s)) = length (jobs s) /\
     exists job',
       jobs (restart_search j s) !! j = Some job' /\
       exit_msg job' = Some "job restarted" /\
       waiting_to_cancel job' = true /\
       job_complete job' = false /\
       (waiting_to_cancel job = false -> cancel_callback job' = Some CbRestartSearch)) /\
  (let s' := run_callback CbRestartSearch j s in
   search_jobs s' = delete (root_txid job) (search_jobs s) /\
   jobs s' = jobs s ++ [GraphSearchJob_init (vj_root_txid (valjob job)) (valjob job)] /\
   metadata_queue s' = metadata_queue s ++ [length (jobs s)]) /\
  (job_complete job = true ->
     restart_search j s = run_callback CbRestartSearch j s /\
     jobs (restart_search j s) !! j = Some job) /\
  (forall own resp txids k,
     job_complete job = false ->
     waiting_to_cancel job = false ->
     searching s = Some (j, txids, k) ->
     let s1 := restart_search j s in
     let '(s2, ev) := search_loop_call txid_of own resp s1 in
     ev = [EvCancelCallback j CbRestartSearch] /\
     searching s2 = None /\
     search_jobs s2 = delete (root_txid job) (search_jobs s) /\
     metadata_queue s2 = metadata_queue s ++ [length (jobs s)] /\
     jobs s2 !! length (jobs s) =
       Some (GraphSearchJob_init (vj_root_txid (valjob job)) (valjob job)) /\
     exists job',
       jobs s2 !! j = Some job' /\ job_complete job' = true /\
       search_success job' = Some false /\ exit_msg job' = Some "job restarted").
Proof.
  intros Hj.
  assert (Hpend : job_complete job = false ->
            restart_search j s =
            upd_job j (sched_cancel (Some CbRestartSearch) "job restarted") s).
  { intros Hc. unfold restart_search. by rewrite Hj, Hc. }
  split; [|split; [|split]].
  - intros Hc. rewrite (Hpend Hc). split; [done|]. split; [done|]. split; [done|].
    rewrite upd_job_length. split; [done|]. rewrite upd_job_lookup, Hj.
    eexists; split; [reflexivity|].
    destruct (sched_cancel_pending (Some CbRestartSearch) "job restarted" job Hc)
      as (Hw & Hc' & Hm & Hcb).
    repeat split; try done. intros Hw0. by rewrite Hcb, Hw0.
  - cbn. destruct (restart_callback_spec j s job Hj) as (? & ? & ? & _). done.
  - intros Hc. split.
    + unfold restart_search. by rewrite Hj, Hc.
    + unfold restart_search. rewrite Hj, Hc. cbn.
      destruct (restart_callback_spec j s job Hj) as (_ & -> & _).
      by apply lookup_app_l_Some.
  - intros own resp txids k Hc Hw Hs. cbn zeta. rewrite (Hpend Hc).
    set (job1 := sched_cancel (Some CbRestartSearch) "job restarted" job).
    assert (Hs1 : searching (upd_job j (sched_cancel (Some CbRestartSearch) "job restarted") s)
                  = Some (j, txids, k)) by done.
    assert (Hj1 : jobs (upd_job j (sched_cancel (Some CbRestartSearch) "job restarted") s) !! j
                  = Some job1) by (by rewrite upd_job_lookup, Hj).
    destruct (sched_cancel_pending (Some CbRestartSearch) "job restarted" job Hc)
      as (Hw1 & Hc1 & Hm1 & Hcb1).
    rewrite Hw in Hcb1. fold job1 in Hw1, Hc1, Hm1, Hcb1.
    rewrite (search_loop_call_cancel own resp j txids k _ job1 Hs1 Hj1 Hw1).
    destruct (cancel_spec j _ job1 Hj1) as (Hl & Hev & Hst).
    rewrite Hcb1 in Hev, Hst. rewrite Hev, Hst. cbn [run_callback].
    set (s0 := upd_job j cancel_flags
                 (upd_job j (sched_cancel (Some CbRestartSearch) "job restarted") s)).
    assert (Hj0 : jobs s0 !! j = Some (cancel_flags job1)).
    { unfold s0. by rewrite upd_job_lookup, Hj1. }
    destruct (restart_callback_spec j s0 _ Hj0) as (Hr & Hjs & Hq & _).
    assert (Hlen : length (jobs s0) = length (jobs s)).
    { unfold s0. by rewrite !upd_job_length. }
    destruct (sched_cancel_identity (Some CbRestartSearch) "job restarted" job)
      as (Hroot & Hval & _).
    fold job1 in Hroot, Hval.
    split; [done|]. split; [done|]. cbn [searching set_searching search_jobs metadata_queue jobs].
    rewrite Hr, Hq, Hjs, Hlen. cbn [root_txid valjob cancel_flags set_search_success set_job_complete].
    rewrite Hroot, Hval. split; [done|]. split; [done|]. split.
    + rewrite <- Hlen. rewrite lookup_app_r by lia. by rewrite Nat.sub_diag.
    + exists (cancel_flags job1). split; [by apply lookup_app_l_Some|]. done.
Qed.

(** ** The chunked traversal *)

Lemma tx_cache_put_all_ok (txs : list Transaction) (st : TxStore) :
  Forall (λ tx, raw tx ≠ "") txs ->
  exists st', tx_cache_put_all txid_of txs st = (st', None).
Proof.
  intros H. revert st. induction H as [|tx txs Hne _ IH]; intros st.
  - by exists st.
  - cbn. destruct (decide (raw tx = "")) as [|_]; [done|]. apply IH.
Qed.

Lemma response_txns_raw (g : list SearchReply) :
  Forall (λ r, r ≠ "") (concat (map dependsOn g)) ->
  Forall (λ tx, raw tx ≠ "") (map snd (response_txns g)).
Proof.
  unfold response_txns. generalize (concat (map depths g)) as ds.
  induction (concat (map dependsOn g)) as [|r rs IH]; intros ds H.
  - destruct ds; constructor.
  - destruct ds as [|d ds]; [constructor|]. inversion H; subst.
    cbn. constructor; [done|]. by apply IH.
Qed.

(** A call that gets past the liveness test, finds its depth-map entries and
    a host, receives a reply and caches every transaction of it. *)
Lemma search_query_chunk_reply own g j txids k job st dm bd cnt host td qd :
  owner_finished own = false ->
  depth_map job = Some dm ->
  dm !! str ((k + 1) * 1000) = Some (bd, cnt) ->
  (if 0 <? k then (λ prev, bd - prev.1) <$> dm !! str (k * 1000) else Some bd) = Some qd ->
  slpdb_host own = Some host ->
  total_depth job = Some td ->
  Forall (λ r, r ≠ "") (concat (map dependsOn g)) ->
  exists st',
    tx_cache_put_all txid_of (map snd (response_txns g)) st = (st', None) /\
    search_query_chunk txid_of own (RespOk g) j txids k job st =
      let txids := if decide (k = 0) then [root_txid job] else txids in
      let job1 :=
        set_txn_count_progress
          (txn_count_progress job + Z.of_nat (length (response_txns g)))
          (set_last_search_url (UrlQuery host txids qd)
             (set_depth_current_query (Some bd) job)) in
      let job2 :=
        match response_txns g with [] => job1 | _ :: _ => set_depth_completed bd job1 end in
      let ev := [EvSearchRequest j txids qd] in
      if depth_completed job2 <? td
      then (job2, st', ev,
            Recurse (map (λ tx, txid_of (raw tx.2))
                         (filter (λ tx, tx.1 = qd) (response_txns g))) (k + 1))
      else (set_success job2, st', ev, Return).
Proof.
  intros Hown Hdm Hbd Hqd Hhost Htd Hraw.
  destruct (tx_cache_put_all_ok _ st (response_txns_raw g Hraw)) as [st' Hput].
  exists st'. split; [done|].
  unfold search_query_chunk. rewrite Hown, Hdm, Hbd, Hqd, Hhost.
  cbn [txn_count_progress set_last_search_url set_depth_current_query].
  rewrite Hput. cbn zeta.
  destruct (response_txns g) eqn:Htx;
    cbn [total_depth set_txn_count_progress set_depth_completed set_last_search_url
         set_depth_current_query];
    rewrite Htd; reflexivity.
Qed.

Lemma search_query_unfold env own resp j txids k s :
  search_query txid_of ((own, resp) :: env) j txids k s =
    match search_query_call txid_of own resp j txids k s with
    | (s1, ev, Recurse txids' k') =>
        let '(s2, ev', out) := search_query txid_of env j txids' k' s1 in
        (s2, ev ++ ev', out)
    | (s1, ev, out) => (s1, ev, Some out)
    end.
Proof. reflexivity. Qed.

(** C5: in a round whose reply arrived and was cached, [depth_completed]
    becomes the boundary depth of the chunk if the reply held at least one
    transaction and is unchanged if it held none; right after that the call
    returns with the job succeeded exactly when [depth_completed] has reached
    [total_depth], and otherwise recurses with the next chunk index, the job
    being no more complete than before. *)
Theorem C5_round_progress own g j txids k job st dm bd cnt host td :
  owner_finished own = false ->
  depth_map job = Some dm ->
  dm !! str ((k + 1) * 1000) = Some (bd, cnt) ->
  (0 < k -> is_Some (dm !! str (k * 1000))) ->
  slpdb_host own = Some host ->
  total_depth job = Some td ->
  Forall (λ r, r ≠ "") (concat (map dependsOn g)) ->
  let '(job', st', ev, out) := search_query_chunk txid_of own (RespOk g) j txids k job st in
  depth_completed job' =
    match response_txns g with [] => depth_completed job | _ :: _ => bd end /\
  (out = Return <-> td <= depth_completed job') /\
  (td <= depth_completed job' ->
     job_complete job' = true /\ search_success job' = Some true) /\
  (depth_completed job' < td ->
     (exists txids', out = Recurse txids' (k + 1)) /\
     job_complete job' = job_complete job /\
     search_success job' = search_success job) /\
  (forall env s s1 ev1 txids' k',
     search_query_call txid_of own (RespOk g) j txids k s = (s1, ev1, Recurse txids' k') ->
     search_query txid_of ((own, RespOk g) :: env) j txids k s =
       let '(s2, ev2, res) := search_query txid_of env j txids' k' s1 in
       (s2, ev1 ++ ev2, res)).
Proof.
  intros Hown Hdm Hbd Hprev Hhost Htd Hraw.
  assert (exists qd, (if 0 <? k then (λ prev, bd - prev.1) <$> dm !! str (k * 1000)
                      else Some bd) = Some qd) as [qd Hqd].
  { destruct (Z.ltb_spec 0 k) as [Hk|Hk]; [|by eexists].
    destruct (Hprev Hk) as [prev ->]. by eexists. }
  destruct (search_query_chunk_reply own g j txids k job st dm bd cnt host td qd
              Hown Hdm Hbd Hqd Hhost Htd Hraw) as (st' & _ & ->).
  cbn zeta.
  set (job1 := set_txn_count_progress _ _).
  set (job2 := match response_txns g with [] => job1 | _ :: _ => set_depth_completed bd job1 end).
  assert (Hdc : depth_completed job2 =
                match response_txns g with [] => depth_completed job | _ :: _ => bd end).
  { unfold job2. by destruct (response_txns g). }
  assert (Hfl : job_complete job2 = job_complete job /\ search_success job2 = search_success job).
  { unfold job2. by destruct (response_txns g). }
  destruct (Z.ltb_spec (depth_completed job2) td) as [Hlt|Hge].
  - split; [done|]. split; [split; [done|lia]|]. split; [lia|]. split.
    + intros _. split; [by eexists|]. apply Hfl.
    + intros env s s1 ev1 txids' k' Hcall. by rewrite search_query_unfold, Hcall.
  - split; [done|]. split; [done|]. split; [done|]. split; [cbn; lia|].
    intros env s s1 ev1 txids' k' Hcall. by rewrite search_query_unfold, Hcall.
Qed.

Lemma requested_depth_code dm k qd :
  0 <= k ->
  requested_depth dm k = Some qd ->
  exists bd cnt,
    dm !! str ((k + 1) * 1000) = Some (bd, cnt) /\
    (if 0 <? k then (λ prev, bd - prev.1) <$> dm !! str (k * 1000) else Some bd) = Some qd.
Proof.
  intros Hk. unfold requested_depth. destruct (decide (k = 0)) as [->|Hne].
  - change (str ((0 + 1) * 1000)) with "1000".
    destruct (dm !! "1000") as [[bd cnt]|]; [|done].
    cbn. intros [= <-]. by exists bd, cnt.
  - destruct (dm !! str ((k + 1) * 1000)) as [[bd cnt]|]; [|done].
    destruct (dm !! str (k * 1000)) as [[pd pc]|]; [|done].
    intros [= <-]. exists bd, cnt. split; [done|].
    destruct (Z.ltb_spec 0 k); [done|lia].
Qed.

(** C6: the depth a chunk requests is [requested_depth]: the depth at
    boundary key 1000 for chunk 0, and for chunk k > 0 the depth at key
    (k+1)*1000 minus the depth at key k*1000; the request goes out with that
    depth, and when the call recurses it passes the next chunk index and,
    as the new [txids], exactly the ids of the transactions of this reply
    whose depth equals the requested depth, in the order of the reply. *)
Theorem C6_requested_depth_and_frontier own resp j txids k job st dm host qd :
  0 <= k ->
  owner_finished own = false ->
  depth_map job = Some dm ->
  slpdb_host own = Some host ->
  requested_depth dm k = Some qd ->
  (k = 0 -> exists cnt, dm !! "1000" = Some (qd, cnt)) /\
  (0 < k -> exists bd cnt pd pc,
      dm !! str ((k + 1) * 1000) = Some (bd, cnt) /\
      dm !! str (k * 1000) = Some (pd, pc) /\ qd = bd - pd) /\
  let '(job', st', ev, out) := search_query_chunk txid_of own resp j txids k job st in
  ev = [EvSearchRequest j (if decide (k = 0) then [root_txid job] else txids) qd] /\
  forall txids' k',
    out = Recurse txids' k' ->
    k' = k + 1 /\
    exists g,
      resp = RespOk g /\
      txids' = map (λ tx, txid_of (raw tx.2)) (filter (λ tx, tx.1 = qd) (response_txns g)) /\
      forall id, id ∈ txids' <->
        exists d tx, (d, tx) ∈ response_txns g /\ d = qd /\ id = txid_of (raw tx).
Proof.
  intros Hk Hown Hdm Hhost Hreq. split; [|split].
  - intros ->. unfold requested_depth in Hreq. cbn in Hreq.
    destruct (dm !! "1000") as [[bd cnt]|]; [|done]. cbn in Hreq.
    injection Hreq as <-. by eexists.
  - intros Hpos. unfold requested_depth in Hreq.
    destruct (decide (k = 0)); [lia|].
    destruct (dm !! str ((k + 1) * 1000)) as [[bd cnt]|]; [|done].
    destruct (dm !! str (k * 1000)) as [[pd pc]|]; [|done].
    injection Hreq as <-. by exists bd, cnt, pd, pc.
  - destruct (requested_depth_code dm k qd Hk Hreq) as (bd & cnt & Hbd & Hqd).
    unfold search_query_chunk. rewrite Hown, Hdm, Hbd, Hqd, Hhost.
    destruct resp as [g|msg]; [|split; [done|]; intros ?? [=]].
    destruct (tx_cache_put_all _ _ _) as [st' [e|]]; [split; [done|]; intros ?? [=]|].
    set (txns := response_txns g).
    match goal with
    | |- context [total_depth ?x] => destruct (total_depth x)
    end; [|split; [done|]; intros ?? [=]].
    match goal with
    | |- context [depth_completed ?x <? ?y] => destruct (depth_completed x <? y)
    end; (split; [done|]); intros txids' k' [=]; subst.
    split; [done|]. exists g. split; [done|]. split; [done|].
    intros id. rewrite list_elem_of_fmap. split.
    + intros ([d tx] & -> & Hin). apply list_elem_of_filter in Hin as [Hd Hin].
      cbn in Hd. by exists d, tx.
    + intros (d & tx & Hin & Hd & ->). exists (d, tx). split; [done|].
      apply list_elem_of_filter. by split.
Qed.

(** ** The transaction cache *)

Lemma assoc_app k es1 es2 :
  assoc k (es1 ++ es2) =
    match assoc k es1 with Some v => Some v | None => assoc k es2 end.
Proof.
  induction es1 as [|[k' v] es1 IH]; cbn; [done|].
  by destruct (decide (k' = k)).
Qed.

Lemma assoc_remove_key k es : assoc k (remove_key k es) = None.
Proof.
  induction es as [|[k' v] es IH]; cbn; [done|].
  destruct (decide (k' = k)) as [|Hne]; [done|]. cbn.
  by destruct (decide (k' = k)).
Qed.

Lemma assoc_tail_None k es : assoc k es = None -> assoc k (tail es) = None.
Proof.
  destruct es as [|[k' v] es]; cbn; [done|]. by destruct (decide (k' = k)).
Qed.

(** The cache contract the round trip rests on: a [get] right after a [put]
    of the same id finds the value just stored, whatever was evicted. *)
Lemma cache_get_put k v c : cache_get k (cache_put k v c) = Some v.
Proof.
  unfold cache_get, cache_put. cbn [entries]. rewrite assoc_app.
  assert (assoc k (if maxlen c <=? Z.of_nat (length (remove_key k (entries c)))
                   then tail (remove_key k (entries c))
                   else remove_key k (entries c)) = None) as ->.
  { case_match; [apply assoc_tail_None|]; apply assoc_remove_key. }
  cbn. by destruct (decide (k = k)).
Qed.

(** C8: a [tx_cache_put] of a record with non-empty raw bytes succeeds and
    stores it under the id passed (under the id derived from the raw bytes
    when none is passed); a [tx_cache_get] of that id right after returns a
    reference to an object that did not exist before the call, is not the
    object the cache holds, and has the raw bytes that were put; whatever the
    caller then does to the returned object, a further [tx_cache_get] of the
    id again returns an object with those raw bytes. *)
Theorem C8_cache_roundtrip (tx : Transaction) (txid : option string) (st : TxStore) :
  raw tx ≠ "" ->
  let key :=
    match txid with
    | None => txid_of (raw tx)
    | Some t => if decide (t = "") then txid_of (raw tx) else t
    end in
  (forall t, txid = Some t -> t ≠ "" -> key = t) /\
  exists st1 st2 l,
    tx_cache_put txid_of (Some tx) txid st = (st1, None) /\
    tx_cache_get key st1 = (st2, Some l) /\
    tx_objects st1 !! l = None /\
    cache_get key (fetched_tx_cache st2) ≠ Some l /\
    raw <$> tx_objects st2 !! l = Some (raw tx) /\
    forall f : Transaction -> Transaction,
      exists st4 l',
        tx_cache_get key (tx_mutate f l st2) = (st4, Some l') /\
        raw <$> tx_objects st4 !! l' = Some (raw tx).
Proof.
  intros Hraw key. split.
  { intros t -> Ht. unfold key. by destruct (decide (t = "")). }
  set (objs := tx_objects st).
  set (c1 := cache_put key (length objs) (fetched_tx_cache st)).
  set (T := Transaction_new (raw tx)).
  exists (mkTxStore (objs ++ [T]) c1),
         (mkTxStore ((objs ++ [T]) ++ [T]) c1),
         (length (objs ++ [T])).
  assert (Hget : cache_get key c1 = Some (length objs)) by apply cache_get_put.
  assert (Hstored : (objs ++ [T]) !! length objs = Some T).
  { by rewrite lookup_app_r, Nat.sub_diag by lia. }
  split; [|split; [|split; [|split; [|split]]]].
  - unfold tx_cache_put. by destruct (decide (raw tx = "")).
  - unfold tx_cache_get. cbn [fetched_tx_cache tx_objects]. rewrite Hget, Hstored.
    cbn [raw T Transaction_new]. by destruct (decide (raw tx = "")).
  - cbn [tx_objects]. by apply lookup_ge_None_2.
  - cbn [fetched_tx_cache]. rewrite Hget. rewrite length_app. cbn. intros [=]. lia.
  - cbn [tx_objects]. by rewrite lookup_app_r, Nat.sub_diag by lia.
  - intros f.
    set (objs3 := alter f (length (objs ++ [T])) ((objs ++ [T]) ++ [T])).
    exists (mkTxStore (objs3 ++ [T]) c1), (length objs3).
    assert (Hstored3 : objs3 !! length objs = Some T).
    { unfold objs3. rewrite list_lookup_alter_ne by (rewrite length_app; cbn; lia).
      by apply lookup_app_l_Some. }
    split.
    + unfold tx_cache_get, tx_mutate. cbn [fetched_tx_cache tx_objects].
      fold objs3. rewrite Hget, Hstored3.
      cbn [raw T Transaction_new]. by destruct (decide (raw tx = "")).
    + cbn [tx_objects]. by rewrite lookup_app_r, Nat.sub_diag by lia.
Qed.

(** ** Preservation of the invariant *)

Lemma count_app p tr ev : count p (tr ++ ev) = (count p tr + count p ev)%nat.
Proof. induction tr as [|e tr IH]; cbn; [done|]. rewrite IH. lia. Qed.

Lemma Inv_init : Inv SlpGraphSearchManager_init [].
Proof.
  split; [constructor|]. split; [intros j H; by apply elem_of_nil in H|].
  intros j. unfold job_ok. cbn. by rewrite lookup_nil.
Qed.

(** A job whose retry count, events and membership in the queues are as
    before keeps its invariant. *)
Lemma job_ok_frame s tr s' ev j :
  job_ok s tr j ->
  match jobs s !! j, jobs s' !! j with
  | None, None => True
  | Some a, Some b => fetch_retries a = fetch_retries b
  | _, _ => False
  end ->
  count_fetch j ev = 0%nat ->
  count_cancel_callback j ev = 0%nat ->
  (j ∈ metadata_queue s' -> j ∈ metadata_queue s) ->
  (j ∈ pending s' -> j ∈ pending s) ->
  job_ok s' (tr ++ ev) j.
Proof.
  unfold job_ok, count_fetch, count_cancel_callback. intros Hok Hrel Hf Hc Hmq Hp.
  rewrite !count_app, Hf, Hc, !Nat.add_0_r.
  destruct (jobs s !! j) as [a|], (jobs s' !! j) as [b|]; try done.
  rewrite <- Hrel. destruct Hok as (? & ? & ? & Hq & Hu). auto 10.
Qed.

(** Queues and frame lose or move jobs; the job objects stay. *)
Lemma Inv_shrink s s' tr :
  Inv s tr ->
  jobs s' = jobs s ->
  (forall j, j ∈ metadata_queue s' -> j ∈ metadata_queue s) ->
  (forall j, j ∈ pending s' -> j ∈ pending s) ->
  NoDup (pending s') ->
  Inv s' tr.
Proof.
  intros (Hnd & Hal & Hok) Hjobs Hmq Hp Hnd'. split; [done|]. split.
  - intros j Hj. rewrite Hjobs. auto.
  - intros j. rewrite <- (app_nil_r tr). apply (job_ok_frame s); auto.
    rewrite Hjobs. by destruct (jobs s !! j).
Qed.

(** A method that leaves [fetch_retries] alone is applied to a job. *)
Lemma Inv_upd_job j f s tr :
  (forall job, jobs s !! j = Some job -> fetch_retries (f job) = fetch_retries job) ->
  Inv s tr ->
  Inv (upd_job j f s) tr.
Proof.
  intros Hf (Hnd & Hal & Hok). split; [done|]. split.
  - intros j' Hj'. rewrite upd_job_length. auto.
  - intros j'. rewrite <- (app_nil_r tr). apply (job_ok_frame s); auto.
    destruct (decide (j = j')) as [<-|Hne].
    + rewrite upd_job_lookup. destruct (jobs s !! j) as [job|] eqn:Hj; cbn; [|done].
      symmetry. by apply Hf.
    + rewrite upd_job_lookup_ne by done. by destruct (jobs s !! j').
Qed.

Lemma pending_new_search v s :
  pending (new_search v s).1 ≡ₚ length (jobs s) :: pending s.
Proof.
  unfold pending, new_search, frame_job. cbn.
  rewrite <- app_assoc. cbn. by rewrite <- Permutation_middle.
Qed.

Lemma Inv_new_search v s tr : Inv s tr -> Inv (new_search v s).1 tr.
Proof.
  intros (Hnd & Hal & Hok).
  pose proof (pending_new_search v s) as Hperm.
  assert (Hfresh : length (jobs s) ∉ pending s).
  { intros Hin. apply Hal in Hin. lia. }
  split; [|split].
  - rewrite Hperm. by apply NoDup_cons.
  - intros j. rewrite Hperm. cbn. rewrite length_app. cbn.
    intros [->|Hin]%elem_of_cons; [lia|]. apply Hal in Hin. lia.
  - intros j. destruct (decide (j = length (jobs s))) as [->|Hne].
    + specialize (Hok (length (jobs s))). unfold job_ok in *.
      rewrite lookup_ge_None_2 in Hok by lia. destruct Hok as [Hf Hc].
      cbn. rewrite lookup_app_r, Nat.sub_diag by lia. cbn.
      rewrite Hf, Hc. repeat split; try lia; done.
    + rewrite <- (app_nil_r tr). apply (job_ok_frame s); auto.
      * cbn. destruct (jobs s !! j) as [a|] eqn:Hj.
        -- by rewrite (lookup_app_l_Some _ _ _ _ Hj).
        -- apply lookup_ge_None_1 in Hj. rewrite lookup_app_r by lia.
           destruct (j - length (jobs s))%nat as [|n] eqn:Hn; [lia|]. done.
      * cbn. intros [Hin|Hin%list_elem_of_singleton]%elem_of_app; done.
      * rewrite Hperm. intros [->|Hin]%elem_of_cons; done.
Qed.

Lemma Inv_set_search_jobs r s tr : Inv s tr -> Inv (set_search_jobs r s) tr.
Proof. intros H. apply (Inv_shrink s); try done. apply H. Qed.

Lemma Inv_set_tx_store st s tr : Inv s tr -> Inv (set_tx_store st s) tr.
Proof. intros H. apply (Inv_shrink s); try done. apply H. Qed.

Lemma Inv_restart_callback j s tr : Inv s tr -> Inv (restart_callback j s) tr.
Proof.
  intros H. unfold restart_callback. destruct (jobs s !! j); [|done].
  by apply Inv_new_search, Inv_set_search_jobs.
Qed.

Lemma Inv_run_callback cb j s tr : Inv s tr -> Inv (run_callback cb j s) tr.
Proof. destruct cb; cbn; [apply Inv_restart_callback|done]. Qed.

Lemma Inv_restart_search j s tr : Inv s tr -> Inv (restart_search j s) tr.
Proof.
  intros H. unfold restart_search. destruct (jobs s !! j) as [job|]; [|done].
  destruct (negb (job_complete job)).
  - apply Inv_upd_job; [|done]. intros. apply sched_cancel_identity.
  - by apply Inv_restart_callback.
Qed.

(** *** Events *)

Lemma count_fetch_other j j' : j ≠ j' -> count_fetch j' [EvFetchMetadata j] = 0%nat.
Proof. intros H. cbn. by rewrite bool_decide_false. Qed.

Lemma count_cb_other j j' cb :
  j ≠ j' -> count_cancel_callback j' [EvCancelCallback j cb] = 0%nat.
Proof. intros H. cbn. by rewrite bool_decide_false. Qed.

Lemma job_ok_same_state s tr ev j :
  job_ok s tr j ->
  count_fetch j ev = 0%nat ->
  count_cancel_callback j ev = 0%nat ->
  job_ok s (tr ++ ev) j.
Proof.
  intros. apply (job_ok_frame s); auto. by destruct (jobs s !! j).
Qed.

(** Events that are neither a fetch nor a callback call. *)
Lemma Inv_quiet_events s tr ev :
  (forall j, count_fetch j ev = 0%nat /\ count_cancel_callback j ev = 0%nat) ->
  Inv s tr -> Inv s (tr ++ ev).
Proof.
  intros Hev (Hnd & Hal & Hok). split; [done|]. split; [done|].
  intros j. apply job_ok_same_state; [done|apply Hev..].
Qed.

(** A fetch for a job that is in no queue and has had no more fetches than retries. *)
Lemma Inv_fetch_event j s tr :
  Inv s tr ->
  j ∉ pending s ->
  (forall job, jobs s !! j = Some job -> Z.of_nat (count_fetch j tr) <= fetch_retries job) ->
  (j < length (jobs s))%nat ->
  Inv s (tr ++ [EvFetchMetadata j]).
Proof.
  intros (Hnd & Hal & Hok) Hnp Hcnt Hlt. split; [done|]. split; [done|].
  intros j'. destruct (decide (j = j')) as [<-|Hne].
  - specialize (Hok j). unfold job_ok, count_fetch, count_cancel_callback in *.
    rewrite !count_app. cbn. rewrite bool_decide_true by done.
    destruct (jobs s !! j) as [job|] eqn:Hj.
    + destruct Hok as (? & ? & ? & ? & ?). specialize (Hcnt job eq_refl).
      split; [done|]. split; [lia|]. split; [lia|]. split.
      * intros Hin. exfalso. apply Hnp. unfold pending. apply elem_of_app. by left.
      * done.
    + apply lookup_ge_None_1 in Hj. lia.
  - apply job_ok_same_state; [done|by apply count_fetch_other|done].
Qed.

(** The callback of a job that is in no queue and has not had it called. *)
Lemma Inv_cb_event j cb s tr :
  Inv s tr ->
  j ∉ pending s ->
  count_cancel_callback j tr = 0%nat ->
  (j < length (jobs s))%nat ->
  Inv s (tr ++ [EvCancelCallback j cb]).
Proof.
  intros (Hnd & Hal & Hok) Hnp Hcnt Hlt. split; [done|]. split; [done|].
  intros j'. destruct (decide (j = j')) as [<-|Hne].
  - specialize (Hok j). unfold job_ok, count_fetch, count_cancel_callback in *.
    rewrite !count_app. cbn. rewrite bool_decide_true by done.
    destruct (jobs s !! j) as [job|] eqn:Hj.
    + destruct Hok as (? & ? & ? & Hq & ?).
      split; [done|]. split; [lia|]. split; [lia|]. split; [|done].
      intros Hin. exfalso. apply Hnp. unfold pending. apply elem_of_app. by left.
    + apply lookup_ge_None_1 in Hj. lia.
  - apply job_ok_same_state; [done|done|by apply count_cb_other].
Qed.

(** *** Queues *)

(** The retry count of a job that is in no queue goes up by one. *)
Lemma Inv_incr j s tr :
  Inv s tr ->
  j ∉ pending s ->
  (forall job, jobs s !! j = Some job -> fetch_retries job <= 10) ->
  Inv (upd_job j (λ job, set_fetch_retries (fetch_retries job + 1) job) s) tr.
Proof.
  intros (Hnd & Hal & Hok) Hnp Hle. split; [done|]. split.
  - intros j' Hj'. rewrite upd_job_length. auto.
  - intros j'. destruct (decide (j = j')) as [<-|Hne].
    + specialize (Hok j). unfold job_ok in *. rewrite upd_job_lookup.
      destruct (jobs s !! j) as [job|] eqn:Hj; cbn; [|done].
      destruct Hok as (? & ? & ? & ? & ?). specialize (Hle job eq_refl).
      split; [lia|]. split; [lia|]. split; [done|]. split; [|done].
      intros Hin. exfalso. apply Hnp. unfold pending. apply elem_of_app. by left.
    + rewrite <- (app_nil_r tr). apply (job_ok_frame s); auto.
      rewrite upd_job_lookup_ne by done. by destruct (jobs s !! j').
Qed.

Lemma job_ok_enqueue s s' tr j j' :
  job_ok s tr j' ->
  jobs s' = jobs s ->
  j ≠ j' ->
  (forall x, x ∈ metadata_queue s' -> x = j \/ x ∈ metadata_queue s) ->
  (forall x, x ∈ pending s' -> x = j \/ x ∈ pending s) ->
  job_ok s' tr j'.
Proof.
  intros Hok Hjobs Hne Hmq Hp. rewrite <- (app_nil_r tr). apply (job_ok_frame s); auto.
  - rewrite Hjobs. by destruct (jobs s !! j').
  - intros Hin. by destruct (Hmq _ Hin) as [->|].
  - intros Hin. by destruct (Hp _ Hin) as [->|].
Qed.

(** [metadata_queue.put(job)] of a job that is in no queue. *)
Lemma Inv_enqueue_metadata j s tr :
  Inv s tr ->
  j ∉ pending s ->
  (j < length (jobs s))%nat ->
  (forall job, jobs s !! j = Some job -> Z.of_nat (count_fetch j tr) = fetch_retries job) ->
  count_cancel_callback j tr = 0%nat ->
  Inv (set_metadata_queue (metadata_queue s ++ [j]) s) tr.
Proof.
  intros (Hnd & Hal & Hok) Hnp Hlt Hcnt Hcb.
  assert (Hperm : pending (set_metadata_queue (metadata_queue s ++ [j]) s) ≡ₚ j :: pending s).
  { unfold pending, frame_job. cbn. rewrite <- app_assoc. cbn.
    by rewrite <- Permutation_middle. }
  split; [|split].
  - rewrite Hperm. by apply NoDup_cons.
  - intros j'. rewrite Hperm. cbn. intros [->|Hin]%elem_of_cons; auto.
  - intros j'. destruct (decide (j = j')) as [<-|Hne].
    + specialize (Hok j). unfold job_ok in *. cbn.
      destruct (jobs s !! j) as [job|] eqn:Hj; [|done].
      destruct Hok as (? & ? & ? & ? & ?). specialize (Hcnt job eq_refl).
      repeat split; try done; try lia.
    + apply (job_ok_enqueue s _ _ j); auto.
      * cbn. intros x [Hin|Hin%list_elem_of_singleton]%elem_of_app; auto.
      * intros x. rewrite Hperm. intros [->|Hin]%elem_of_cons; auto.
Qed.

(** [search_queue.put(job)] of a job that is in no queue. *)
Lemma Inv_enqueue_search j s tr :
  Inv s tr ->
  j ∉ pending s ->
  (j < length (jobs s))%nat ->
  count_cancel_callback j tr = 0%nat ->
  Inv (set_search_queue (search_queue s ++ [j]) s) tr.
Proof.
  intros (Hnd & Hal & Hok) Hnp Hlt Hcb.
  assert (Hperm : pending (set_search_queue (search_queue s ++ [j]) s) ≡ₚ j :: pending s).
  { unfold pending, frame_job. cbn. rewrite <- !app_assoc. cbn.
    rewrite <- Permutation_middle. by rewrite <- Permutation_middle. }
  assert (Hmq : j ∉ metadata_queue s).
  { intros Hin. apply Hnp. unfold pending. apply elem_of_app. by left. }
  split; [|split].
  - rewrite Hperm. by apply NoDup_cons.
  - intros j'. rewrite Hperm. cbn. intros [->|Hin]%elem_of_cons; auto.
  - intros j'. destruct (decide (j = j')) as [<-|Hne].
    + specialize (Hok j). unfold job_ok in *. cbn.
      destruct (jobs s !! j) as [job|] eqn:Hj; [|done].
      destruct Hok as (? & ? & ? & ? & ?).
      repeat split; try done; try lia.
    + apply (job_ok_enqueue s _ _ j); auto.
      intros x. rewrite Hperm. intros [->|Hin]%elem_of_cons; auto.
Qed.

(** *** The steps *)

Lemma pending_upd_job j f s : pending (upd_job j f s) = pending s.
Proof. done. Qed.

(** A job is fetched and then only gets attributes other than the retry
    count written. *)
Lemma Inv_after_fetch j f s tr :
  Inv s tr ->
  j ∉ pending s ->
  (j < length (jobs s))%nat ->
  (forall job, jobs s !! j = Some job ->
     Z.of_nat (count_fetch j tr) <= fetch_retries job /\
     fetch_retries (f job) = fetch_retries job) ->
  Inv (upd_job j f s) (tr ++ [EvFetchMetadata j]).
Proof.
  intros HI Hnp Hlt Hjob. apply Inv_fetch_event.
  - apply Inv_upd_job; [|done]. intros job Hj. by apply Hjob.
  - done.
  - intros job'. rewrite upd_job_lookup.
    destruct (jobs s !! j) as [job|] eqn:Hj; cbn; [|done].
    intros [= <-]. destruct (Hjob job eq_refl) as [? ->]. done.
  - by rewrite upd_job_length.
Qed.

Lemma set_failed_retries reason job :
  fetch_retries (set_failed reason job) = fetch_retries job.
Proof. done. Qed.

Lemma Inv_metadata_loop own res s tr :
  Inv s tr ->
  Inv (metadata_loop own res s).1 (tr ++ (metadata_loop own res s).2).
Proof.
  intros HI. unfold metadata_loop.
  destruct (metadata_queue s) as [|j q] eqn:Hq; [by rewrite app_nil_r|].
  pose proof HI as (Hnd & Hal & Hok).
  assert (Hpend : pending s = j :: pending (set_metadata_queue q s)).
  { unfold pending. by rewrite Hq. }
  rewrite Hpend in Hnd. apply NoDup_cons in Hnd as [Hnp Hnd0].
  assert (Hlt : (j < length (jobs s))%nat).
  { apply Hal. rewrite Hpend. by left. }
  assert (H0 : Inv (set_metadata_queue q s) tr).
  { apply (Inv_shrink s); try done.
    - cbn. rewrite Hq. intros x Hx. by right.
    - intros x Hx. rewrite Hpend. by right. }
  cbn [jobs set_metadata_queue].
  destruct (jobs s !! j) as [job|] eqn:Hj; [|by rewrite app_nil_r].
  assert (Hcnt : Z.of_nat (count_fetch j tr) = fetch_retries job /\
                 count_cancel_callback j tr = 0%nat /\ 0 <= fetch_retries job <= 11).
  { specialize (Hok j). unfold job_ok in Hok. rewrite Hj in Hok.
    destruct Hok as (? & ? & ? & Hmq & Hcb). split; [|split; [|done]].
    - apply Hmq. rewrite Hq. by left.
    - apply Hcb. rewrite Hpend. by left. }
  destruct Hcnt as (Hcnt & Hcb & Hrange).
  cbn [search_jobs set_metadata_queue].
  destruct (search_jobs s !! root_txid job); [by rewrite app_nil_r|].
  set (s1 := set_search_jobs _ (set_metadata_queue q s)).
  assert (H1 : Inv s1 tr) by (by apply Inv_set_search_jobs).
  assert (Hnp1 : j ∉ pending s1) by done.
  assert (Hlt1 : (j < length (jobs s1))%nat) by done.
  assert (Hj1 : jobs s1 !! j = Some job) by done.
  assert (Hfail : forall msg,
            Inv (upd_job j (set_failed msg) s1) (tr ++ [EvFetchMetadata j])).
  { intros msg. apply Inv_after_fetch; try done.
    intros job' Hj'. rewrite Hj1 in Hj'. injection Hj' as <-. split; [lia|done]. }
  destruct (owner_finished own).
  { cbn. rewrite app_nil_r. by apply Inv_upd_job. }
  destruct (host_unset own).
  { cbn. rewrite app_nil_r. by apply Inv_upd_job. }
  destruct res as [td cnt dm| |msg].
  - (* the fetch succeeds *)
    set (sM := upd_job j (set_metadata td cnt dm) s1).
    assert (HM : Inv sM tr) by (by apply Inv_upd_job).
    assert (HjM : jobs sM !! j = Some (set_metadata td cnt dm job)).
    { unfold sM. by rewrite upd_job_lookup, Hj1. }
    assert (HfailM : forall msg,
              Inv (upd_job j (set_failed msg) sM) (tr ++ [EvFetchMetadata j])).
    { intros msg. apply Inv_after_fetch; try done.
      - unfold sM. by rewrite upd_job_length.
      - intros job' Hj'. rewrite HjM in Hj'. injection Hj' as <-. split; [cbn; lia|done]. }
    destruct cnt as [n|]; [|apply HfailM].
    destruct (n <=? cancel_thresh_txcount); [apply HfailM|].
    cbn [fst snd]. apply Inv_enqueue_search.
    + apply Inv_fetch_event; try done.
      * intros job' Hj'. rewrite HjM in Hj'. injection Hj' as <-. cbn. lia.
      * unfold sM. by rewrite upd_job_length.
    + done.
    + unfold sM. by rewrite upd_job_length.
    + unfold count_cancel_callback in *. rewrite count_app. cbn. lia.
  - (* no data yet *)
    destruct (10 <? fetch_retries job) eqn:Hretry; [apply Hfail|].
    apply Z.ltb_ge in Hretry.
    set (sB := upd_job j (λ job, set_fetch_retries (fetch_retries job + 1) job) s1).
    set (ev := match metadata_queue s1 with [] => [EvSleep] | _ :: _ => [] end).
    cbn [fst snd].
    assert (HB : Inv sB tr).
    { apply Inv_incr; try done. intros job' Hj'. rewrite Hj1 in Hj'. by injection Hj' as <-. }
    assert (HjB : jobs sB !! j = Some (set_fetch_retries (fetch_retries job + 1) job)).
    { unfold sB. by rewrite upd_job_lookup, Hj1. }
    assert (HltB : (j < length (jobs sB))%nat).
    { unfold sB. by rewrite upd_job_length. }
    assert (Hquiet : forall j', count_fetch j' ev = 0%nat /\ count_cancel_callback j' ev = 0%nat).
    { intros j'. unfold ev. by destruct (metadata_queue s1). }
    change (EvFetchMetadata j :: ev) with ([EvFetchMetadata j] ++ ev).
    rewrite app_assoc.
    apply Inv_enqueue_metadata; try done.
    + apply Inv_quiet_events; [done|]. apply Inv_fetch_event; try done.
      intros job' Hj'. rewrite HjB in Hj'. injection Hj' as <-. cbn. lia.
    + intros job' Hj'. rewrite HjB in Hj'. injection Hj' as <-.
      unfold count_fetch in *. rewrite !count_app. cbn.
      rewrite bool_decide_true by done.
      destruct (Hquiet j) as [Hq0 _]. unfold count_fetch in Hq0. rewrite Hq0. lia.
    + unfold count_cancel_callback in *. rewrite !count_app. cbn.
      destruct (Hquiet j) as [_ Hq0]. unfold count_cancel_callback in Hq0. rewrite Hq0. lia.
  - apply Hfail.
Qed.

Lemma Inv_clear_frame s tr : Inv s tr -> Inv (set_searching None s) tr.
Proof.
  intros HI. pose proof HI as (Hnd & _).
  assert (Hsub : forall x, x ∈ pending (set_searching None s) -> x ∈ pending s).
  { intros x. unfold pending, frame_job. cbn. rewrite app_nil_r, !elem_of_app. tauto. }
  apply (Inv_shrink s); try done.
  unfold pending, frame_job in *. cbn. rewrite app_nil_r.
  rewrite app_assoc in Hnd. by apply NoDup_app in Hnd as (? & _).
Qed.

Lemma Inv_same_frame j txids k txids' k' s tr :
  searching s = Some (j, txids, k) ->
  Inv s tr -> Inv (set_searching (Some (j, txids', k')) s) tr.
Proof.
  intros Hs HI.
  assert (Hp : pending (set_searching (Some (j, txids', k')) s) = pending s).
  { unfold pending, frame_job. cbn. by rewrite Hs. }
  apply (Inv_shrink s); try done; rewrite Hp; [done|apply HI].
Qed.

Lemma Inv_search_loop_dequeue own s tr :
  Inv s tr -> Inv (search_loop_dequeue own s) tr.
Proof.
  intros HI. unfold search_loop_dequeue.
  destruct (searching s) as [fr|] eqn:Hs; [done|].
  destruct (search_queue s) as [|j q] eqn:Hq; [done|].
  assert (HA : Inv (upd_job j (set_search_started true) s) tr) by (by apply Inv_upd_job).
  assert (Hpend : pending s ≡ₚ j :: metadata_queue s ++ q).
  { unfold pending, frame_job. rewrite Hs, Hq, app_nil_r. by rewrite <- Permutation_middle. }
  pose proof HI as (Hnd & _). rewrite Hpend in Hnd. apply NoDup_cons in Hnd as [Hnp Hnd].
  destruct (owner_finished own).
  - apply Inv_upd_job; [done|].
    apply (Inv_shrink (upd_job j (set_search_started true) s)); try done.
    + intros x. rewrite pending_upd_job, Hpend.
      unfold pending, frame_job. cbn. rewrite Hs, app_nil_r. by right.
    + unfold pending, frame_job. cbn. by rewrite Hs, app_nil_r.
  - apply (Inv_shrink (upd_job j (set_search_started true) s)); try done.
    + intros x. rewrite pending_upd_job, Hpend.
      unfold pending, frame_job. cbn.
      rewrite app_assoc, elem_of_app, list_elem_of_singleton, elem_of_cons. tauto.
    + unfold pending, frame_job. cbn. rewrite app_assoc.
      rewrite <- Permutation_cons_append. by apply NoDup_cons.
Qed.

(** A call of [search_query] past the cancel test leaves the retry count
    and the identity of the job alone and neither fetches metadata nor calls
    a callback. *)
Lemma search_query_chunk_frame own resp j txids k job st :
  let '(job', st', ev, out) := search_query_chunk txid_of own resp j txids k job st in
  fetch_retries job' = fetch_retries job /\
  root_txid job' = root_txid job /\
  valjob job' = valjob job /\
  depth_map job' = depth_map job /\
  total_depth job' = total_depth job /\
  (forall j', count_fetch j' ev = 0%nat /\ count_cancel_callback j' ev = 0%nat).
Proof.
  unfold search_query_chunk.
  destruct (owner_finished own); [done|].
  destruct (depth_map job) as [dm|] eqn:Hdm; [|done].
  destruct (dm !! str ((k + 1) * 1000)) as [[bd cnt]|]; [|done].
  destruct (if 0 <? k then _ else _) as [qd|]; [|done].
  destruct (slpdb_host own) as [host|]; [|done].
  destruct resp as [g|msg]; [|done].
  destruct (tx_cache_put_all _ _ _) as [st' [e|]]; [done|].
  destruct (response_txns g) as [|tx txns];
    cbn [total_depth set_txn_count_progress set_depth_completed set_last_search_url
         set_depth_current_query];
    (destruct (total_depth job) eqn:Htd; [|cbn; by rewrite ?Hdm, ?Htd]);
    match goal with
    | |- context [depth_completed ?x <? ?y] => destruct (depth_completed x <? y)
    end; cbn; by rewrite ?Hdm, ?Htd.
Qed.

Lemma run_callback_frame cb j s :
  searching (run_callback cb j s) = searching s /\
  search_queue (run_callback cb j s) = search_queue s /\
  (length (jobs s) <= length (jobs (run_callback cb j s)))%nat.
Proof.
  destruct cb; cbn; [|done]. unfold restart_callback.
  destruct (jobs s !! j); [|done]. cbn. rewrite length_app. cbn. split; [done|]. split; [done|lia].
Qed.

Lemma Inv_search_loop_call own resp s tr :
  Inv s tr ->
  Inv (search_loop_call txid_of own resp s).1 (tr ++ (search_loop_call txid_of own resp s).2).
Proof.
  intros HI. unfold search_loop_call.
  destruct (searching s) as [[[j txids] k]|] eqn:Hs; [|by rewrite app_nil_r].
  pose proof HI as (Hnd & Hal & Hok).
  assert (Hin : j ∈ pending s).
  { unfold pending, frame_job. rewrite Hs, !elem_of_app, list_elem_of_singleton. auto. }
  assert (Hlt : (j < length (jobs s))%nat) by auto.
  unfold search_query_call.
  destruct (jobs s !! j) as [job|] eqn:Hj.
  2:{ cbn. rewrite app_nil_r. by apply Inv_clear_frame, Inv_upd_job. }
  destruct (waiting_to_cancel job).
  - (* the cancel test *)
    assert (Hcb0 : count_cancel_callback j tr = 0%nat).
    { specialize (Hok j). unfold job_ok in Hok. rewrite Hj in Hok. by apply Hok. }
    assert (HA : Inv (upd_job j cancel_flags s) tr) by (by apply Inv_upd_job).
    unfold _cancel. rewrite upd_job_lookup, Hj. cbn [fmap option_fmap option_map].
    change (cancel_callback (cancel_flags job)) with (cancel_callback job).
    destruct (cancel_callback job) as [cb|]; cbn [fst snd].
    2:{ rewrite app_nil_r. by apply Inv_clear_frame. }
    destruct (run_callback_frame cb j (upd_job j cancel_flags s)) as (Hfr & Hsq & Hlen).
    assert (HC : Inv (set_searching None (run_callback cb j (upd_job j cancel_flags s))) tr).
    { by apply Inv_clear_frame, Inv_run_callback. }
    apply Inv_cb_event; try done.
    + pose proof (Inv_run_callback cb j _ _ HA) as (Hnd' & _).
      unfold pending, frame_job in Hnd' |- *. rewrite Hfr in Hnd'. cbn [searching upd_job set_jobs] in Hnd'.
      rewrite Hs in Hnd'. cbn. rewrite app_nil_r.
      rewrite app_assoc in Hnd'. apply NoDup_app in Hnd' as (_ & Hdisj & _).
      intros Hin'. apply (Hdisj j Hin'). by apply list_elem_of_singleton.
    + cbn. rewrite upd_job_length in Hlen. lia.
  - (* the rest of the call *)
    pose proof (search_query_chunk_frame own resp j txids k job (tx_store s)) as Hfr.
    destruct (search_query_chunk txid_of own resp j txids k job (tx_store s))
      as [[[job' st'] ev] out].
    destruct Hfr as (Hretries & _ & _ & _ & _ & Hquiet).
    assert (HB : Inv (set_tx_store st' (upd_job j (λ _, job') s)) (tr ++ ev)).
    { apply Inv_quiet_events; [done|]. apply Inv_set_tx_store, Inv_upd_job; [|done].
      intros job0 Hj0. rewrite Hj in Hj0. by injection Hj0 as <-. }
    destruct out as [|txids' k'|msg]; cbn [fst snd].
    + by apply Inv_clear_frame.
    + by apply (Inv_same_frame j txids k).
    + by apply Inv_clear_frame, Inv_upd_job.
Qed.

Lemma Inv_step o s tr :
  Inv s tr -> Inv (step txid_of o s).1 (tr ++ (step txid_of o s).2).
Proof.
  intros HI. destruct o; cbn [step fst snd]; rewrite ?app_nil_r.
  - by apply Inv_new_search.
  - by apply Inv_restart_search.
  - apply Inv_upd_job; [|done]. intros. apply sched_cancel_identity.
  - by apply Inv_metadata_loop.
  - by apply Inv_search_loop_dequeue.
  - by apply Inv_search_loop_call.
Qed.

Lemma Inv_run ops s tr :
  Inv s tr -> Inv (run txid_of ops s).1 (tr ++ (run txid_of ops s).2).
Proof.
  revert s tr. induction ops as [|o ops IH]; intros s tr HI; cbn.
  - by rewrite app_nil_r.
  - pose proof (Inv_step o s tr HI) as H1.
    destruct (step txid_of o s) as [s1 ev1]. cbn [fst snd] in H1.
    specialize (IH s1 _ H1).
    destruct (run txid_of ops s1) as [s2 ev2]. cbn [fst snd] in IH |- *.
    by rewrite app_assoc.
Qed.

(** ** Progress of [depth_completed] *)

Lemma unstr_str z : unstr (str z) = Some z.
Proof.
  unfold unstr, str. rewrite NilZero.isi.
  - cbn. by rewrite DecimalZ.of_to.
  - destruct z; cbn; try done. intros [= H]. by apply DecimalPos.Unsigned.to_uint_nonnil in H.
  - destruct z; cbn; try done. intros [= H]. by apply DecimalPos.Unsigned.to_uint_nonnil in H.
Qed.

Lemma depth_map_ok_wf dm total :
  0 <= total -> depth_map_ok dm total = true -> wf_depth_map dm total.
Proof.
  intros Htd [Hb Hm]%andb_prop. split; [done|].
  rewrite forallb_forall in Hb. rewrite forallb_forall in Hm. split.
  - intros i d c Hl.
    assert (Hin : In (str (i * 1000), (d, c)) (map_to_list dm)).
    { apply list_elem_of_In. by apply elem_of_map_to_list. }
    apply Hb in Hin. cbn in Hin. lia.
  - intros m n d1 c1 d2 c2 Hmn H1 H2.
    assert (Hin1 : In (str (m * 1000), (d1, c1)) (map_to_list dm)).
    { apply list_elem_of_In. by apply elem_of_map_to_list. }
    assert (Hin2 : In (str (n * 1000), (d2, c2)) (map_to_list dm)).
    { apply list_elem_of_In. by apply elem_of_map_to_list. }
    specialize (Hm _ Hin1). rewrite forallb_forall in Hm. specialize (Hm _ Hin2).
    cbn in Hm. rewrite !unstr_str in Hm.
    destruct (Z.leb_spec (m * 1000) (n * 1000)); lia.
Qed.

Lemma mono_refl s : mono s s.
Proof. intros j job Hj. exists job. split; [done|lia]. Qed.

Lemma mono_trans s1 s2 s3 : mono s1 s2 -> mono s2 s3 -> mono s1 s3.
Proof.
  intros H12 H23 j job Hj. destruct (H12 j job Hj) as (job2 & Hj2 & ?).
  destruct (H23 j job2 Hj2) as (job3 & Hj3 & ?). exists job3. split; [done|lia].
Qed.

Lemma mono_same_jobs s s' : jobs s' = jobs s -> mono s s'.
Proof. intros H j job Hj. exists job. rewrite H. split; [done|lia]. Qed.

(** Job [j] is written, the others are not. *)
Lemma Dinv_update s s' j job' :
  Dinv s ->
  jobs s' !! j = Some job' ->
  (forall x, x ≠ j -> jobs s' !! x = jobs s !! x) ->
  (forall x, x ≠ j -> x ∈ metadata_queue s' ++ search_queue s' ->
     x ∈ metadata_queue s ++ search_queue s) ->
  (forall x t k, x ≠ j -> searching s' = Some (x, t, k) -> searching s = Some (x, t, k)) ->
  meta_ok job' -> dc_ok job' ->
  (j ∈ metadata_queue s' ++ search_queue s' -> depth_completed job' = 0) ->
  (forall t k, searching s' = Some (j, t, k) -> frame_ok job' k) ->
  Dinv s'.
Proof.
  intros HD Hj' Hoth Hq Hfr Hm Hd Hz Hf x. unfold dinv.
  destruct (decide (x = j)) as [->|Hne]; [by rewrite Hj'|].
  rewrite Hoth by done. specialize (HD x). unfold dinv in HD.
  destruct (jobs s !! x) as [job|]; [|done].
  destruct HD as (? & ? & Hqx & Hfx). split; [done|]. split; [done|]. split; [auto|].
  intros t k Hs. apply (Hfx t k). by apply Hfr.
Qed.

Lemma mono_update s s' j :
  (forall job, jobs s !! j = Some job ->
     exists job', jobs s' !! j = Some job' /\ depth_completed job <= depth_completed job') ->
  (forall x, x ≠ j -> jobs s' !! x = jobs s !! x) ->
  mono s s'.
Proof.
  intros Hj Hoth x job Hx. destruct (decide (x = j)) as [->|Hne]; [by apply Hj|].
  exists job. rewrite Hoth by done. split; [done|lia].
Qed.

Lemma Dinv_same_jobs s s' :
  Dinv s ->
  jobs s' = jobs s ->
  (forall x, x ∈ metadata_queue s' ++ search_queue s' ->
     x ∈ metadata_queue s ++ search_queue s) ->
  (forall x t k, searching s' = Some (x, t, k) -> searching s = Some (x, t, k)) ->
  Dinv s'.
Proof.
  intros HD Hjobs Hq Hfr x. specialize (HD x). unfold dinv in *. rewrite Hjobs.
  destruct (jobs s !! x) as [job|]; [|done].
  destruct HD as (? & ? & Hqx & Hfx). split; [done|]. split; [done|]. split; [auto|].
  intros t k Hs. apply (Hfx t k). by apply Hfr.
Qed.

Lemma same_depth_ok job job' :
  same_depth job job' ->
  (meta_ok job -> meta_ok job') /\
  (dc_ok job -> dc_ok job') /\
  (forall k, frame_ok job k -> frame_ok job' k).
Proof.
  intros (Hdm & Htd & Hdc). unfold meta_ok, dc_ok, frame_ok.
  rewrite Hdm, Htd, Hdc. done.
Qed.

Lemma upd_job_lookup_None j f s : jobs s !! j = None -> jobs (upd_job j f s) = jobs s.
Proof.
  intros H. cbn. apply list_eq. intros i. destruct (decide (j = i)) as [<-|Hne].
  - by rewrite list_lookup_alter_eq, H.
  - by rewrite list_lookup_alter_ne.
Qed.

Lemma Dstep_upd_job j f s :
  (forall job, jobs s !! j = Some job -> same_depth job (f job)) ->
  Dinv s -> Dinv (upd_job j f s) /\ mono s (upd_job j f s).
Proof.
  intros Hf HD. destruct (jobs s !! j) as [job|] eqn:Hj.
  - destruct (Hf job eq_refl) as (Hdm & Htd & Hdc).
    destruct (same_depth_ok job (f job) (Hf job eq_refl)) as (Hm & Hd & Hfr).
    pose proof (HD j) as Hjinv. unfold dinv in Hjinv. rewrite Hj in Hjinv.
    destruct Hjinv as (? & ? & Hq & Hfrj). split.
    + apply (Dinv_update s _ j (f job)); auto.
      * by rewrite upd_job_lookup, Hj.
      * intros x Hx. by rewrite upd_job_lookup_ne.
      * intros Hin. rewrite Hdc. by apply Hq.
      * intros t k Hs. apply Hfr. by apply (Hfrj t k).
    + apply (mono_update _ _ j).
      * intros job0 Hj0. rewrite Hj in Hj0. injection Hj0 as <-.
        exists (f job). rewrite upd_job_lookup, Hj. split; [done|lia].
      * intros x Hx. by rewrite upd_job_lookup_ne.
  - split; [apply (Dinv_same_jobs s); auto using upd_job_lookup_None|].
    apply mono_same_jobs. by apply upd_job_lookup_None.
Qed.

Lemma Dstep_new_search v s tr :
  Inv s tr -> Dinv s -> Dinv (new_search v s).1 /\ mono s (new_search v s).1.
Proof.
  intros (Hnd & Hal & _) HD.
  assert (Hfresh : length (jobs s) ∉ pending s).
  { intros Hin. apply Hal in Hin. lia. }
  assert (Hoth : forall x, x ≠ length (jobs s) ->
            jobs (new_search v s).1 !! x = jobs s !! x).
  { intros x Hx. cbn. destruct (jobs s !! x) as [a|] eqn:Hl.
    - by apply lookup_app_l_Some.
    - apply lookup_ge_None_1 in Hl. rewrite lookup_app_r by lia.
      destruct (x - length (jobs s))%nat as [|n] eqn:Hn; [lia|done]. }
  split.
  - apply (Dinv_update s _ (length (jobs s)) (GraphSearchJob_init (vj_root_txid v) v)); auto.
    + cbn. by rewrite lookup_app_r, Nat.sub_diag by lia.
    + intros x Hx. cbn. rewrite !elem_of_app, list_elem_of_singleton. tauto.
    + intros dm [=].
    + split; [done|]. intros td [=].
    + intros t k Hs. exfalso. apply Hfresh. unfold pending, frame_job.
      cbn in Hs. rewrite Hs, !elem_of_app, list_elem_of_singleton. auto.
  - apply (mono_update _ _ (length (jobs s))); [|done].
    intros job Hj. apply lookup_lt_Some in Hj. lia.
Qed.

Lemma Dstep_restart_callback j s tr :
  Inv s tr -> Dinv s -> Dinv (restart_callback j s) /\ mono s (restart_callback j s).
Proof.
  intros HI HD. unfold restart_callback.
  destruct (jobs s !! j) as [job|]; [|split; [done|apply mono_refl]].
  set (s1 := set_search_jobs _ s).
  apply (Dstep_new_search (valjob job) s1 tr); [by apply Inv_set_search_jobs|].
  by apply (Dinv_same_jobs s).
Qed.

Lemma Dstep_run_callback cb j s tr :
  Inv s tr -> Dinv s -> Dinv (run_callback cb j s) /\ mono s (run_callback cb j s).
Proof.
  destruct cb; cbn; [apply Dstep_restart_callback|]. intros _ HD. split; [done|apply mono_refl].
Qed.

Lemma sched_cancel_same_depth cb reason job : same_depth job (sched_cancel cb reason job).
Proof. destruct (sched_cancel_identity cb reason job) as (_ & _ & _ & ? & ? & ?). done. Qed.

Lemma Dstep_restart_search j s tr :
  Inv s tr -> Dinv s -> Dinv (restart_search j s) /\ mono s (restart_search j s).
Proof.
  intros HI HD. unfold restart_search.
  destruct (jobs s !! j) as [job|]; [|split; [done|apply mono_refl]].
  destruct (negb (job_complete job)).
  - apply Dstep_upd_job; [|done]. intros. apply sched_cancel_same_depth.
  - by apply (Dstep_restart_callback j s tr).
Qed.

(** A job taken from a queue is written while its [depth_completed] is 0. *)
Lemma Dstep_dequeued s s' tr j job job' :
  Inv s tr -> Dinv s ->
  j ∈ metadata_queue s ++ search_queue s ->
  jobs s !! j = Some job ->
  jobs s' !! j = Some job' ->
  (forall x, x ≠ j -> jobs s' !! x = jobs s !! x) ->
  (forall x, x ≠ j -> x ∈ metadata_queue s' ++ search_queue s' ->
     x ∈ metadata_queue s ++ search_queue s) ->
  searching s' = searching s ->
  meta_ok job' -> dc_ok job' -> depth_completed job' = 0 ->
  Dinv s' /\ mono s s'.
Proof.
  intros (Hnd & _) HD Hin Hj Hj' Hoth Hq Hs Hm Hd Hz.
  pose proof (HD j) as Hjinv. unfold dinv in Hjinv. rewrite Hj in Hjinv.
  destruct Hjinv as (_ & _ & Hz0 & _). split.
  - apply (Dinv_update s _ j job'); auto.
    + intros x t k _. by rewrite Hs.
    + intros t k Hfr. exfalso. rewrite Hs in Hfr.
      unfold pending, frame_job in Hnd. rewrite Hfr, app_assoc in Hnd.
      apply NoDup_app in Hnd as (_ & Hdisj & _). apply (Hdisj j Hin).
      by apply list_elem_of_singleton.
  - apply (mono_update _ _ j); [|done].
    intros job0 Hj0. rewrite Hj in Hj0. injection Hj0 as <-.
    exists job'. split; [done|]. rewrite Hz, (Hz0 Hin). lia.
Qed.

Lemma set_metadata_ok total cnt dm job :
  fetch_ok (FetchOk total cnt dm) = true ->
  depth_completed job = 0 ->
  meta_ok (set_metadata total cnt dm job) /\ dc_ok (set_metadata total cnt dm job).
Proof.
  intros Hok Hz. cbn in Hok. destruct total as [td|]; [|done].
  apply andb_prop in Hok as [Htd Hdm]. apply Z.leb_le in Htd.
  split.
  - intros dm' [= <-]. exists td. split; [done|]. by apply depth_map_ok_wf.
  - split; [cbn; lia|]. intros td' [= <-]. cbn. lia.
Qed.

Lemma Dstep_metadata_loop own res s tr :
  Inv s tr -> Dinv s -> fetch_ok res = true ->
  Dinv (metadata_loop own res s).1 /\ mono s (metadata_loop own res s).1.
Proof.
  intros HI HD Hres. unfold metadata_loop.
  destruct (metadata_queue s) as [|j q] eqn:Hq; [split; [done|apply mono_refl]|].
  assert (Hdrop : Dinv (set_metadata_queue q s) /\ mono s (set_metadata_queue q s)).
  { split; [|by apply mono_same_jobs]. apply (Dinv_same_jobs s); try done.
    intros x. cbn. rewrite Hq, !elem_of_app, elem_of_cons. tauto. }
  cbn [jobs set_metadata_queue].
  destruct (jobs s !! j) as [job|] eqn:Hj; [|done].
  cbn [search_jobs set_metadata_queue].
  destruct (search_jobs s !! root_txid job); [done|].
  set (s1 := set_search_jobs _ (set_metadata_queue q s)).
  assert (Hj1 : jobs s1 !! j = Some job) by done.
  assert (Hjobs1 : forall x, jobs s1 !! x = jobs s !! x) by done.
  assert (Hin : j ∈ metadata_queue s ++ search_queue s).
  { rewrite Hq. by left. }
  pose proof (HD j) as Hjinv. unfold dinv in Hjinv. rewrite Hj in Hjinv.
  destruct Hjinv as (Hm & Hd & Hz & _). specialize (Hz Hin).
  assert (Hgen : forall s' job',
            jobs s' !! j = Some job' ->
            (forall x, x ≠ j -> jobs s' !! x = jobs s !! x) ->
            searching s' = searching s ->
            (forall x, x ∈ metadata_queue s' ++ search_queue s' ->
               x = j \/ x ∈ q ++ search_queue s) ->
            meta_ok job' -> dc_ok job' -> depth_completed job' = 0 ->
            Dinv s' /\ mono s s').
  { intros s' job' Hj' Hoth Hs Hqs Hm' Hd' Hz'.
    apply (Dstep_dequeued s s' tr j job job'); try done.
    intros x Hx Hxin. destruct (Hqs x Hxin) as [->|Hxq]; [done|].
    rewrite Hq. by right. }
  assert (Hfail : forall msg, Dinv (upd_job j (set_failed msg) s1) /\
                              mono s (upd_job j (set_failed msg) s1)).
  { intros msg. apply (Hgen _ (set_failed msg job)); try done.
    - by rewrite upd_job_lookup, Hj1.
    - intros x Hx. by rewrite upd_job_lookup_ne, Hjobs1.
    - intros x Hx. by right. }
  destruct (owner_finished own); [apply Hfail|].
  destruct (host_unset own); [apply Hfail|].
  destruct res as [td cnt dm| |msg]; [| |apply Hfail].
  - destruct (set_metadata_ok td cnt dm job Hres Hz) as [HmM HdM].
    assert (HfailM : forall msg,
              Dinv (upd_job j (set_failed msg) (upd_job j (set_metadata td cnt dm) s1)) /\
              mono s (upd_job j (set_failed msg) (upd_job j (set_metadata td cnt dm) s1))).
    { intros msg. apply (Hgen _ (set_failed msg (set_metadata td cnt dm job))); try done.
      - by rewrite !upd_job_lookup, Hj1.
      - intros x Hx. by rewrite !upd_job_lookup_ne, Hjobs1.
      - intros x Hx. by right. }
    destruct cnt as [n|]; [|apply HfailM].
    destruct (n <=? cancel_thresh_txcount); [apply HfailM|].
    cbn [fst]. apply (Hgen _ (set_metadata td (Some n) dm job)); try done.
    + cbn [jobs set_search_queue set_metadata_queue]. by rewrite upd_job_lookup, Hj1.
    + intros x Hx. cbn [jobs set_search_queue set_metadata_queue]. by rewrite upd_job_lookup_ne, Hjobs1.
    + intros x. cbn. rewrite !elem_of_app, list_elem_of_singleton. tauto.
  - destruct (10 <? fetch_retries job); [apply Hfail|].
    cbn [fst]. apply (Hgen _ (set_fetch_retries (fetch_retries job + 1) job)); try done.
    + cbn [jobs set_search_queue set_metadata_queue]. by rewrite upd_job_lookup, Hj1.
    + intros x Hx. cbn [jobs set_search_queue set_metadata_queue]. by rewrite upd_job_lookup_ne, Hjobs1.
    + intros x. cbn. rewrite !elem_of_app, list_elem_of_singleton. tauto.
Qed.

Lemma Dstep_search_loop_dequeue own s tr :
  Inv s tr -> Dinv s ->
  Dinv (search_loop_dequeue own s) /\ mono s (search_loop_dequeue own s).
Proof.
  intros HI HD. unfold search_loop_dequeue.
  destruct (searching s) as [fr|] eqn:Hs; [split; [done|apply mono_refl]|].
  destruct (search_queue s) as [|j q] eqn:Hq; [split; [done|apply mono_refl]|].
  assert (Hin : j ∈ metadata_queue s ++ search_queue s).
  { rewrite Hq, elem_of_app, elem_of_cons. auto. }
  assert (Hlt : (j < length (jobs s))%nat).
  { destruct HI as (_ & Hal & _). apply Hal. unfold pending.
    rewrite app_assoc, elem_of_app. by left. }
  destruct (lookup_lt_is_Some_2 _ _ Hlt) as [job Hj].
  pose proof (HD j) as Hjinv. unfold dinv in Hjinv. rewrite Hj in Hjinv.
  destruct Hjinv as (Hm & Hd & Hz & _). specialize (Hz Hin).
  assert (Hqs : forall x, x ≠ j -> x ∈ metadata_queue s ++ q ->
            x ∈ metadata_queue s ++ search_queue s).
  { intros x Hx. rewrite Hq, !elem_of_app, elem_of_cons. tauto. }
  destruct (owner_finished own).
  - apply (Dstep_dequeued s _ tr j job (set_failed (Some "validation finished")
                                          (set_search_started true job))); try done.
    + rewrite !upd_job_lookup. cbn [jobs set_search_queue]. by rewrite Hj.
    + intros x Hx. by rewrite !upd_job_lookup_ne.
  - split.
    + apply (Dinv_update s _ j (set_search_started true job)); try done.
      * cbn [jobs set_searching]. rewrite upd_job_lookup. cbn [jobs set_search_queue].
        by rewrite Hj.
      * intros x Hx. cbn [jobs set_searching]. by rewrite upd_job_lookup_ne.
      * intros x t k Hx [= -> _ _]. done.
      * intros t k [= <- <-]. split; [done|]. intros dm i d c Hdm Hi Hl. cbn. rewrite Hz.
        destruct (Hm dm Hdm) as (td & _ & _ & Hb & _). by apply (Hb i d c).
    + apply (mono_update _ _ j).
      * intros job0 Hj0. rewrite Hj in Hj0. injection Hj0 as <-.
        exists (set_search_started true job). split; [|cbn; lia].
        cbn [jobs set_searching]. rewrite upd_job_lookup. cbn [jobs set_search_queue].
        by rewrite Hj.
      * intros x Hx. cbn [jobs set_searching]. by rewrite upd_job_lookup_ne.
Qed.

(** One call of [search_query] under a well-formed depth map: the progress
    counter does not go down, stays within [total_depth], and the boundaries
    of the chunks to come are not below it. *)
Lemma search_query_chunk_depth own resp j txids k job st :
  meta_ok job -> dc_ok job -> frame_ok job k ->
  let '(job', st', ev, out) := search_query_chunk txid_of own resp j txids k job st in
  meta_ok job' /\ dc_ok job' /\
  depth_completed job <= depth_completed job' /\
  forall txids' k', out = Recurse txids' k' -> frame_ok job' k'.
Proof.
  intros Hm Hd Hf. unfold search_query_chunk.
  assert (Hrefl : depth_completed job <= depth_completed job) by lia.
  destruct (owner_finished own); [done|].
  destruct (depth_map job) as [dm|] eqn:Hdm; [|done].
  destruct (dm !! str ((k + 1) * 1000)) as [[bd cnt]|] eqn:Hbd; [|done].
  destruct (if 0 <? k then _ else _) as [qd|]; [|done].
  destruct (slpdb_host own) as [host|]; [|done].
  destruct resp as [g|msg]; [|done].
  destruct (tx_cache_put_all _ _ _) as [st' [e|]]; [done|].
  destruct (Hm dm Hdm) as (td & Htd & Htd0 & Hbound & Hmono).
  destruct Hf as [Hk Hf]. destruct Hd as [Hd0 Hd1].
  pose proof (Hbound (k + 1) bd cnt Hbd) as Hbd_range.
  pose proof (Hf dm (k + 1) bd cnt Hdm ltac:(lia) Hbd) as Hbd_ge.
  destruct (response_txns g) as [|tx txns];
    cbn [total_depth depth_completed set_txn_count_progress set_depth_completed
         set_last_search_url set_depth_current_query];
    rewrite Htd;
    match goal with
    | |- context [?a <? ?b] => destruct (a <? b)
    end.
  - split; [done|]. split; [done|]. split; [done|].
    intros txids' k' [= <- <-]. split; [lia|].
    intros dm' i d c Hdm' Hi Hl. apply (Hf dm' i d c Hdm'); [lia|done].
  - done.
  - split; [done|]. split; [split; [cbn; lia|intros td' Htd'; cbn in Htd'; rewrite Htd in Htd'; injection Htd' as <-; cbn; lia]|].
    split; [cbn; lia|].
    intros txids' k' [= <- <-]. split; [lia|].
    intros dm' i d c Hdm' Hi Hl. cbn in Hdm' |- *. rewrite Hdm in Hdm'.
    injection Hdm' as <-. apply (Hmono (k + 1) i bd cnt d c); [lia|done|done].
  - split; [done|]. split; [split; [cbn; lia|intros td' Htd'; cbn in Htd'; rewrite Htd in Htd'; injection Htd' as <-; cbn; lia]|].
    split; [cbn; lia|]. intros ?? [=].
Qed.

Lemma Dstep_clear_frame s : Dinv s -> Dinv (set_searching None s) /\ mono s (set_searching None s).
Proof.
  intros HD. split; [|by apply mono_same_jobs]. by apply (Dinv_same_jobs s).
Qed.

Lemma Dstep_search_loop_call own resp s tr :
  Inv s tr -> Dinv s ->
  Dinv (search_loop_call txid_of own resp s).1 /\
  mono s (search_loop_call txid_of own resp s).1.
Proof.
  intros HI HD. unfold search_loop_call.
  destruct (searching s) as [[[j txids] k]|] eqn:Hs; [|split; [done|apply mono_refl]].
  pose proof HI as (Hnd & Hal & _).
  assert (Hnq : j ∉ metadata_queue s ++ search_queue s).
  { unfold pending, frame_job in Hnd. rewrite Hs, app_assoc in Hnd.
    apply NoDup_app in Hnd as (_ & Hdisj & _). intros Hin. apply (Hdisj j Hin).
    by apply list_elem_of_singleton. }
  unfold search_query_call.
  destruct (jobs s !! j) as [job|] eqn:Hj.
  2:{ cbn [fst]. destruct (Dstep_upd_job j (set_failed (Some "no such job")) s) as [H1 H2];
        [by intros ? [=]|done|].
      destruct (Dstep_clear_frame _ H1) as [H3 H4]. split; [done|].
      by apply (mono_trans _ _ _ H2). }
  pose proof (HD j) as Hjinv. unfold dinv in Hjinv. rewrite Hj in Hjinv.
  destruct Hjinv as (Hm & Hd & _ & Hf). specialize (Hf txids k Hs).
  destruct (waiting_to_cancel job).
  - destruct (Dstep_upd_job j cancel_flags s) as [HA HAm]; [done|done|].
    assert (HIA : Inv (upd_job j cancel_flags s) tr) by (by apply Inv_upd_job).
    unfold _cancel. rewrite upd_job_lookup, Hj. cbn [fmap option_fmap option_map].
    change (cancel_callback (cancel_flags job)) with (cancel_callback job).
    destruct (cancel_callback job) as [cb|]; cbn [fst snd].
    + destruct (Dstep_run_callback cb j _ tr HIA HA) as [HB HBm].
      destruct (Dstep_clear_frame _ HB) as [HC HCm]. split; [done|].
      eapply mono_trans; [apply HAm|]. eapply mono_trans; [apply HBm|apply HCm].
    + destruct (Dstep_clear_frame _ HA) as [HC HCm]. split; [done|].
      eapply mono_trans; [apply HAm|apply HCm].
  - pose proof (search_query_chunk_depth own resp j txids k job (tx_store s) Hm Hd Hf) as Hch.
    destruct (search_query_chunk txid_of own resp j txids k job (tx_store s))
      as [[[job' st'] ev] out].
    destruct Hch as (Hm' & Hd' & Hle & Hf').
    assert (Hgen : forall s' job'',
              jobs s' !! j = Some job'' ->
              (forall x, x ≠ j -> jobs s' !! x = jobs s !! x) ->
              metadata_queue s' = metadata_queue s ->
              search_queue s' = search_queue s ->
              (searching s' = None \/
               exists t' k', searching s' = Some (j, t', k') /\ frame_ok job'' k') ->
              meta_ok job'' -> dc_ok job'' ->
              depth_completed job <= depth_completed job'' ->
              Dinv s' /\ mono s s').
    { intros s' job'' Hj'' Hoth Hmq Hsq Hfr Hm'' Hd'' Hle''. split.
      - apply (Dinv_update s _ j job''); try done.
        + intros x Hx. by rewrite Hmq, Hsq.
        + intros x t0 k0 Hx Hs'. destruct Hfr as [Hnone|(t' & k' & Hsome & _)]; congruence.
        + rewrite Hmq, Hsq. done.
        + intros t0 k0 Hs'. destruct Hfr as [Hnone|(t' & k' & Hsome & Hok)]; [congruence|].
          rewrite Hsome in Hs'. by injection Hs' as <- <-.
      - apply (mono_update _ _ j); [|done].
        intros job0 Hj0. rewrite Hj in Hj0. injection Hj0 as <-. by exists job''. }
    assert (Hlk : jobs (upd_job j (λ _, job') s) !! j = Some job').
    { by rewrite upd_job_lookup, Hj. }
    assert (Hlk' : forall x, x ≠ j -> jobs (upd_job j (λ _, job') s) !! x = jobs s !! x).
    { intros x Hx. by rewrite upd_job_lookup_ne. }
    destruct out as [|txids' k'|msg]; cbn [fst].
    + apply (Hgen _ job'); [done|done|done|done|by left|done|done|done].
    + apply (Hgen _ job'); [done|done|done|done| |done|done|done].
      right. exists txids', k'. split; [done|]. by apply (Hf' txids' k').
    + apply (Hgen _ (set_failed (Some msg) job')); [|  |done|done|by left|done|done|done].
      * cbn [jobs set_searching]. rewrite upd_job_lookup. cbn [jobs set_tx_store].
        by rewrite Hlk.
      * intros x Hx. cbn [jobs set_searching]. rewrite upd_job_lookup_ne by done.
        cbn [jobs set_tx_store]. by apply Hlk'.
Qed.

Lemma Dstep_step o s tr :
  Inv s tr -> Dinv s -> op_ok o = true ->
  Dinv (step txid_of o s).1 /\ mono s (step txid_of o s).1.
Proof.
  intros HI HD Hok. destruct o; cbn [step fst].
  - by apply (Dstep_new_search _ s tr).
  - by apply (Dstep_restart_search _ s tr).
  - apply Dstep_upd_job; [|done]. intros. apply sched_cancel_same_depth.
  - by apply (Dstep_metadata_loop _ _ s tr).
  - by apply (Dstep_search_loop_dequeue _ s tr).
  - by apply (Dstep_search_loop_call _ _ s tr).
Qed.

Lemma Dstep_run ops s tr :
  Inv s tr -> Dinv s -> forallb op_ok ops = true ->
  Dinv (run txid_of ops s).1 /\ mono s (run txid_of ops s).1.
Proof.
  revert s tr. induction ops as [|o ops IH]; intros s tr HI HD Hok.
  - split; [done|apply mono_refl].
  - cbn in Hok. apply andb_prop in Hok as [Ho Hops]. cbn [run].
    pose proof (Inv_step o s tr HI) as HI1.
    destruct (Dstep_step o s tr HI HD Ho) as [HD1 Hm1].
    destruct (step txid_of o s) as [s1 ev1]. cbn [fst snd] in *.
    destruct (IH s1 _ HI1 HD1 Hops) as [HD2 Hm2].
    destruct (run txid_of ops s1) as [s2 ev2]. cbn [fst snd] in *.
    split; [done|]. by apply (mono_trans _ s1).
Qed.

Lemma run_app ops1 ops2 s :
  run txid_of (ops1 ++ ops2) s =
    let '(s1, ev1) := run txid_of ops1 s in
    let '(s2, ev2) := run txid_of ops2 s1 in
    (s2, ev1 ++ ev2).
Proof.
  revert s. induction ops1 as [|o ops1 IH]; intros s; cbn.
  - by destruct (run txid_of ops2 s).
  - destruct (step txid_of o s) as [s0 ev0]. rewrite IH.
    destruct (run txid_of ops1 s0) as [s1 ev1].
    destruct (run txid_of ops2 s1) as [s2 ev2]. by rewrite app_assoc.
Qed.

Lemma Dinv_init : Dinv SlpGraphSearchManager_init.
Proof. intros j. unfold dinv. cbn. by rewrite lookup_nil. Qed.

(** ** Bounds that hold of every run *)

Lemma run_job_ok ops j :
  job_ok (run txid_of ops SlpGraphSearchManager_init).1
         (run txid_of ops SlpGraphSearchManager_init).2 j.
Proof.
  pose proof (Inv_run ops _ _ Inv_init) as (_ & _ & Hok). apply Hok.
Qed.

Lemma run_counts ops j :
  (count_fetch j (run txid_of ops SlpGraphSearchManager_init).2 <= 12)%nat /\
  (count_cancel_callback j (run txid_of ops SlpGraphSearchManager_init).2 <= 1)%nat.
Proof.
  pose proof (run_job_ok ops j) as Hok. unfold job_ok in Hok.
  destruct (jobs _ !! j) as [job|].
  - destruct Hok as (? & ? & ? & _). split; [lia|done].
  - destruct Hok as [-> ->]. lia.
Qed.

(** C1: the retry budget of the metadata stage.  A fetch that raises "no data yet" on a job with at most
    10 retries adds one to the retry count and puts the job back on the
    metadata queue; one that finds more than 10 retries fails the job with
    the message "No data found, right-click to try" and does not put it
    back.  In every run a job has at most 11 retries and at most one fetch
    more than retries, so at most 12 calls of [fetch_metadata] are ever
    issued for one job. *)
Theorem C1_retry_budget :
  (forall ops j,
     let s := (run txid_of ops SlpGraphSearchManager_init).1 in
     let tr := (run txid_of ops SlpGraphSearchManager_init).2 in
     (count_fetch j tr <= 12)%nat /\
     forall job, jobs s !! j = Some job ->
       0 <= fetch_retries job <= 11 /\
       Z.of_nat (count_fetch j tr) <= fetch_retries job + 1) /\
  (forall own s j q job,
     metadata_queue s = j :: q ->
     jobs s !! j = Some job ->
     search_jobs s !! root_txid job = None ->
     owner_finished own = false ->
     host_unset own = false ->
     let s' := (metadata_loop own FetchNoData s).1 in
     let ev := (metadata_loop own FetchNoData s).2 in
     count_fetch j ev = 1%nat /\
     (fetch_retries job <= 10 ->
        jobs s' !! j = Some (set_fetch_retries (fetch_retries job + 1) job) /\
        metadata_queue s' = q ++ [j]) /\
     (10 < fetch_retries job ->
        metadata_queue s' = q /\
        exists job',
          jobs s' !! j = Some job' /\
          is_failed "No data found, right-click to try" job' /\
          fetch_retries job' = fetch_retries job)).
Proof.
  split.
  - intros ops j s tr. split; [apply run_counts|].
    intros job Hj. pose proof (run_job_ok ops j) as Hok. unfold job_ok in Hok.
    fold s in Hok. rewrite Hj in Hok. destruct Hok as (? & ? & _). done.
  - intros own s j q job Hq Hj Hreg Hown Hhost s' ev. subst s' ev.
    rewrite (metadata_loop_fetch _ _ _ _ _ _ Hq Hj Hreg Hown Hhost). cbn zeta.
    destruct (Z.ltb_spec 10 (fetch_retries job)) as [Hgt|Hle]; cbn [fst snd].
    + split; [cbn; by rewrite bool_decide_true|]. split; [lia|]. intros _.
      split; [done|]. rewrite upd_job_lookup.
      cbn [jobs set_search_jobs set_metadata_queue]. rewrite Hj.
      eexists. split; [reflexivity|]. done.
    + split; [cbn; rewrite bool_decide_true by done; by destruct q|].
      split; [|lia]. intros _. split; [|done].
      cbn [jobs set_metadata_queue]. rewrite upd_job_lookup.
      cbn [jobs set_search_jobs set_metadata_queue]. by rewrite Hj.
Qed.

(** C2: [sched_cancel] on a complete job only writes the reason; on a job
    that is not complete it sets [waiting_to_cancel] (and registers the
    callback unless a request was already pending); no request calls a
    callback.  When the test at the start of a call of [search_query] finds
    the flag set, the job becomes complete and unsuccessful with the reason
    of the request, the registered callback is called once within that call,
    no search request is issued, and the search worker goes back to its
    queue.  Over a whole run the cancel callback of a job is called at most
    once. *)
Theorem C2_cooperative_cancel :
  (forall cb reason job,
     job_complete job = true ->
     sched_cancel cb reason job = set_exit_msg (Some reason) job) /\
  (forall j cb reason s,
     (step txid_of (CallSchedCancel j cb reason) s).2 = [] /\
     (step txid_of (CallSchedCancel j cb reason) s).1 = upd_job j (sched_cancel cb reason) s) /\
  (forall cb reason job,
     job_complete job = false ->
     waiting_to_cancel (sched_cancel cb reason job) = true /\
     job_complete (sched_cancel cb reason job) = false /\
     exit_msg (sched_cancel cb reason job) = Some reason /\
     cancel_callback (sched_cancel cb reason job) =
       (if waiting_to_cancel job then cancel_callback job else cb)) /\
  (forall own resp j txids k s job,
     searching s = Some (j, txids, k) ->
     jobs s !! j = Some job ->
     waiting_to_cancel job = true ->
     let s' := (search_loop_call txid_of own resp s).1 in
     let ev := (search_loop_call txid_of own resp s).2 in
     searching s' = None /\
     ev = match cancel_callback job with
          | Some cb => [EvCancelCallback j cb]
          | None => []
          end /\
     jobs s' !! j = Some (cancel_flags job) /\
     job_complete (cancel_flags job) = true /\
     search_success (cancel_flags job) = Some false /\
     exit_msg (cancel_flags job) = exit_msg job) /\
  (forall ops j,
     (count_cancel_callback j (run txid_of ops SlpGraphSearchManager_init).2 <= 1)%nat).
Proof.
  split; [apply sched_cancel_complete|]. split; [done|].
  split; [apply sched_cancel_pending|]. split; [|intros; apply run_counts].
  intros own resp j txids k s job Hs Hj Hw s' ev. subst s' ev.
  rewrite (search_loop_call_cancel own resp j txids k s job Hs Hj Hw).
  destruct (cancel_spec j s job Hj) as (Hl & Hev & _). cbn [fst snd].
  split; [done|]. split; [done|]. split; [done|]. done.
Qed.

(** C3: progress under well-formed metadata.  In a run whose metadata replies are well formed (a
    total depth that is a non-negative integer, and a depth map whose
    boundary depths lie between 0 and the total depth and do not decrease as
    the boundary key grows), a job's [depth_completed] never goes down from
    one moment of the run to a later one, is never negative and never
    exceeds the job's [total_depth]. *)
Theorem C3_depth_completed_monotone_bounded ops1 ops2 j job1 :
  forallb op_ok (ops1 ++ ops2) = true ->
  jobs (run txid_of ops1 SlpGraphSearchManager_init).1 !! j = Some job1 ->
  exists job2,
    jobs (run txid_of (ops1 ++ ops2) SlpGraphSearchManager_init).1 !! j = Some job2 /\
    depth_completed job1 <= depth_completed job2 /\
    0 <= depth_completed job2 /\
    forall total, total_depth job2 = Some total -> depth_completed job2 <= total.
Proof.
  intros Hok Hj1. rewrite forallb_app in Hok. apply andb_prop in Hok as [Hok1 Hok2].
  rewrite run_app.
  pose proof (Inv_run ops1 _ _ Inv_init) as HI1.
  destruct (Dstep_run ops1 _ _ Inv_init Dinv_init Hok1) as [HD1 _].
  destruct (run txid_of ops1 SlpGraphSearchManager_init) as [s1 ev1].
  cbn [fst snd] in *.
  destruct (Dstep_run ops2 s1 _ HI1 HD1 Hok2) as [HD2 Hm2].
  destruct (run txid_of ops2 s1) as [s2 ev2]. cbn [fst snd] in *.
  destruct (Hm2 j job1 Hj1) as (job2 & Hj2 & Hle).
  exists job2. split; [done|]. split; [done|].
  specialize (HD2 j). unfold dinv in HD2. rewrite Hj2 in HD2.
  destruct HD2 as (_ & Hd & _). done.
Qed.

(** ** Failure and the started flag *)

Lemma search_query_chunk_status own resp j txids k job st :
  job_complete job = false ->
  let '(job', st', ev, out) := search_query_chunk txid_of own resp j txids k job st in
  match out with
  | Return =>
      (search_started job' = true /\ search_success job' = Some false) \/
      search_success job' = Some true
  | _ => job_complete job' = false
  end.
Proof.
  intros Hc. unfold search_query_chunk.
  destruct (owner_finished own); [by left|].
  destruct (depth_map job) as [dm|]; [|done].
  destruct (dm !! str ((k + 1) * 1000)) as [[bd cnt]|]; [|done].
  destruct (if 0 <? k then _ else _) as [qd|]; [|done].
  destruct (slpdb_host own) as [host|]; [|done].
  destruct resp as [g|msg]; [|done].
  destruct (tx_cache_put_all _ _ _) as [st' [e|]]; [done|].
  destruct (response_txns g) as [|tx txns];
    cbn [total_depth depth_completed set_txn_count_progress set_depth_completed
         set_last_search_url set_depth_current_query];
    (destruct (total_depth job); [|done]);
    match goal with
    | |- context [?a <? ?b] => destruct (a <? b)
    end; first [done | by right].
Qed.

(** C10: [set_failed] sets [search_started], and every step that fails a job
    does it through [set_failed].  A job that the metadata stage fails
    (owner finished, missing host, fetch error, metadata error, low
    transaction count, or retries used up) reads as started although it was
    never put on the search queue nor handed to the search worker; a job the
    search stage fails reads as started as well. *)
Theorem C10_failed_sets_started :
  (forall reason job,
     search_started (set_failed reason job) = true /\
     job_complete (set_failed reason job) = true /\
     search_success (set_failed reason job) = Some false /\
     exit_msg (set_failed reason job) = reason) /\
  (forall own res s j q job msg,
     metadata_queue s = j :: q ->
     jobs s !! j = Some job ->
     search_jobs s !! root_txid job = None ->
     metadata_failure own res = Some msg ->
     let s' := (metadata_loop own res s).1 in
     exists job',
       jobs s' !! j = Some job' /\
       is_failed msg job' /\
       search_started job' = true /\
       search_queue s' = search_queue s /\
       searching s' = searching s) /\
  (forall own res s j q job job',
     metadata_queue s = j :: q ->
     jobs s !! j = Some job ->
     job_complete job = false ->
     let s' := (metadata_loop own res s).1 in
     jobs s' !! j = Some job' ->
     job_complete job' = true ->
     search_started job' = true /\
     search_success job' = Some false /\
     search_queue s' = search_queue s /\
     searching s' = searching s) /\
  (forall own s j q job job',
     searching s = None ->
     search_queue s = j :: q ->
     jobs s !! j = Some job ->
     job_complete job = false ->
     jobs (search_loop_dequeue own s) !! j = Some job' ->
     job_complete job' = true ->
     search_started job' = true /\ search_success job' = Some false) /\
  (forall own resp s j txids k job job',
     searching s = Some (j, txids, k) ->
     jobs s !! j = Some job ->
     job_complete job = false ->
     waiting_to_cancel job = false ->
     jobs (search_loop_call txid_of own resp s).1 !! j = Some job' ->
     job_complete job' = true ->
     search_success job' = Some false ->
     search_started job' = true).
Proof.
  split; [intros; apply set_failed_spec|]. split; [|split; [|split]].
  - intros own res s j q job msg Hq Hj Hreg Hfail s'. subst s'.
    unfold metadata_failure in Hfail. unfold metadata_loop.
    rewrite Hq. cbn [jobs set_metadata_queue]. rewrite Hj.
    cbn [search_jobs set_metadata_queue]. rewrite Hreg.
    unfold is_failed.
    repeat case_match; simplify_eq; cbn [fst];
      rewrite ?upd_job_lookup; cbn [jobs set_search_jobs set_metadata_queue];
      rewrite Hj; (eexists; split; [reflexivity|]); done.
  - intros own res s j q job job' Hq Hj Hc s'. subst s'.
    unfold metadata_loop. rewrite Hq. cbn [jobs set_metadata_queue]. rewrite Hj.
    cbn [search_jobs set_metadata_queue].
    repeat case_match; simplify_eq; cbn [fst jobs set_search_queue set_metadata_queue];
      rewrite ?upd_job_lookup; cbn [jobs set_search_jobs set_metadata_queue];
      rewrite ?Hj; cbn; intros [= <-]; cbn; intros Hc'; congruence || done.
  - intros own s j q job job' Hs Hq Hj Hc. unfold search_loop_dequeue.
    rewrite Hs, Hq. destruct (owner_finished own).
    + rewrite !upd_job_lookup. cbn [jobs set_search_queue]. rewrite Hj. cbn.
      by intros [= <-].
    + cbn [jobs set_searching]. rewrite upd_job_lookup. cbn [jobs set_search_queue].
      rewrite Hj. cbn. intros [= <-]. cbn. congruence.
  - intros own resp s j txids k job job' Hs Hj Hc Hw.
    unfold search_loop_call, search_query_call. rewrite Hs, Hj, Hw.
    pose proof (search_query_chunk_status own resp j txids k job (tx_store s) Hc) as Hst.
    destruct (search_query_chunk txid_of own resp j txids k job (tx_store s))
      as [[[job1 st1] ev1] out].
    destruct out as [|txids' k'|msg]; cbn [fst jobs set_searching set_tx_store].
    + rewrite upd_job_lookup, Hj. cbn. intros [= <-] _ Hf.
      destruct Hst as [[? _]|?]; [done|congruence].
    + rewrite upd_job_lookup, Hj. cbn. intros [= <-] Hc'. congruence.
    + rewrite !upd_job_lookup. cbn [jobs set_tx_store]. rewrite upd_job_lookup, Hj. cbn.
      by intros [= <-].
Qed.

End Properties.

(** * Examples on concrete inputs *)

(** C1, on one job: the first "no data yet" adds a retry and puts the job
    back on the queue. *)
Lemma C1_retry_budget_witness :
  metadata_queue demo_submitted = [0%nat] /\
  jobs demo_submitted !! 0%nat = Some demo_job /\
  search_jobs demo_submitted !! root_txid demo_job = None /\
  fetch_retries demo_job <= 10 /\
  jobs (metadata_loop demo_live FetchNoData demo_submitted).1 !! 0%nat =
    Some (set_fetch_retries 1 demo_job) /\
  metadata_queue (metadata_loop demo_live FetchNoData demo_submitted).1 = [0%nat] /\
  (count_fetch 0 (run demo_txid demo_retry_ops SlpGraphSearchManager_init).2 <= 12)%nat.
Proof.
  destruct (C1_retry_budget demo_txid) as [Hrun Hstep].
  destruct (Hstep demo_live demo_submitted 0%nat [] demo_job
              eq_refl eq_refl eq_refl eq_refl eq_refl) as (_ & Hle & _).
  assert (H10 : fetch_retries demo_job <= 10) by (cbn; lia).
  destruct (Hle H10) as [Hjob Hq].
  split; [reflexivity|]. split; [reflexivity|]. split; [reflexivity|].
  split; [exact H10|]. split; [exact Hjob|]. split; [exact Hq|].
  apply (Hrun demo_retry_ops 0%nat).
Defined.

(** C1, the bound of eleven attempts does not hold: in this run every fetch
    of job 1 raises "no data yet", and [fetch_metadata] is called on job 1
    twelve times before the job is failed. *)
Lemma C1_twelve_fetch_attempts :
  let s := (run demo_txid demo_retry_ops SlpGraphSearchManager_init).1 in
  let tr := (run demo_txid demo_retry_ops SlpGraphSearchManager_init).2 in
  count_fetch 1 tr = 12%nat /\
  ~ (count_fetch 1 tr <= 11)%nat /\
  (fetch_retries <$> jobs s !! 1%nat) = Some 11 /\
  (exit_msg <$> jobs s !! 1%nat) = Some (Some "No data found, right-click to try").
Proof.
  cbv zeta.
  assert (H : count_fetch 1 (run demo_txid demo_retry_ops SlpGraphSearchManager_init).2 = 12%nat)
    by (vm_compute; reflexivity).
  split; [exact H|]. split; [rewrite H; lia|]. split; vm_compute; reflexivity.
Qed.

(** C2, on a job the search worker holds: the request calls nothing, the
    next call of [search_query] cancels the job and calls the callback. *)
Lemma C2_cooperative_cancel_witness :
  let s := (run demo_txid demo_cancel_ops SlpGraphSearchManager_init).1 in
  exists job,
    searching s = Some (0%nat, [], 0) /\
    jobs s !! 0%nat = Some job /\
    waiting_to_cancel job = true /\
    (run demo_txid demo_cancel_ops SlpGraphSearchManager_init).2 = [EvFetchMetadata 0] /\
    (search_loop_call demo_txid demo_live (RespOk demo_reply_0) s).2 =
      [EvCancelCallback 0 (CbExternal 7)] /\
    searching (search_loop_call demo_txid demo_live (RespOk demo_reply_0) s).1 = None /\
    jobs (search_loop_call demo_txid demo_live (RespOk demo_reply_0) s).1 !! 0%nat =
      Some (cancel_flags job).
Proof.
  cbv zeta.
  set (s := (run demo_txid demo_cancel_ops SlpGraphSearchManager_init).1).
  assert (Hs : searching s = Some (0%nat, [], 0)) by (vm_compute; reflexivity).
  destruct (jobs s !! 0%nat) as [job|] eqn:Hj; [|vm_compute in Hj; discriminate Hj].
  assert (Hw : waiting_to_cancel job = true).
  { pose proof Hj as Hj'. vm_compute in Hj'. injection Hj' as <-. reflexivity. }
  assert (Hcb : cancel_callback job = Some (CbExternal 7)).
  { pose proof Hj as Hj'. vm_compute in Hj'. injection Hj' as <-. reflexivity. }
  destruct (C2_cooperative_cancel demo_txid) as (_ & _ & _ & Hcheck & _).
  destruct (Hcheck demo_live (RespOk demo_reply_0) 0%nat [] 0 s job Hs Hj Hw)
    as (Hnone & Hev & Hjob & _).
  rewrite Hcb in Hev.
  exists job. split; [exact Hs|]. split; [reflexivity|]. split; [exact Hw|].
  split; [vm_compute; reflexivity|]. split; [exact Hev|]. split; [exact Hnone|exact Hjob].
Defined.

(** C3, without well-formed metadata: with a depth map whose first boundary depth (50) is
    above the total depth (30), one round leaves [depth_completed] at 50;
    with boundary depths that go down (50, then 40), [depth_completed] goes
    from 50 to 40. *)
Lemma C3_depth_completed_unbounded :
  (exists job,
     jobs (run demo_txid demo_deep_ops SlpGraphSearchManager_init).1 !! 0%nat = Some job /\
     total_depth job = Some 30 /\ depth_completed job = 50 /\
     ~ (forall total, total_depth job = Some total -> depth_completed job <= total)) /\
  (exists job1 job2,
     jobs (run demo_txid demo_falling_ops SlpGraphSearchManager_init).1 !! 0%nat = Some job1 /\
     jobs (run demo_txid (demo_falling_ops ++ [SearchLoopCall demo_live (RespOk demo_reply_1)])
             SlpGraphSearchManager_init).1 !! 0%nat = Some job2 /\
     depth_completed job1 = 50 /\ depth_completed job2 = 40 /\
     ~ depth_completed job1 <= depth_completed job2).
Proof.
  split.
  - eexists. split; [vm_compute; reflexivity|]. split; [reflexivity|]. split; [reflexivity|].
    intros H. specialize (H 30 eq_refl). cbn in H. lia.
  - eexists. eexists. split; [vm_compute; reflexivity|]. split; [vm_compute; reflexivity|].
    split; [reflexivity|]. split; [reflexivity|]. cbn. lia.
Qed.

(** C3, on a search of two chunks under well-formed metadata. *)
Lemma C3_depth_completed_monotone_bounded_witness :
  let ops1 := demo_search_ops in
  let ops2 := [SearchLoopCall demo_live (RespOk demo_reply_1)] in
  forallb op_ok (ops1 ++ ops2) = true /\
  exists job1 job2,
    jobs (run demo_txid ops1 SlpGraphSearchManager_init).1 !! 0%nat = Some job1 /\
    jobs (run demo_txid (ops1 ++ ops2) SlpGraphSearchManager_init).1 !! 0%nat = Some job2 /\
    depth_completed job1 <= depth_completed job2 /\
    0 <= depth_completed job2 /\
    (forall total, total_depth job2 = Some total -> depth_completed job2 <= total).
Proof.
  cbv zeta.
  assert (Hok : forallb op_ok
                  (demo_search_ops ++ [SearchLoopCall demo_live (RespOk demo_reply_1)]) = true)
    by (vm_compute; reflexivity).
  split; [exact Hok|].
  destruct (jobs (run demo_txid demo_search_ops SlpGraphSearchManager_init).1 !! 0%nat)
    as [job1|] eqn:Hj1; [|vm_compute in Hj1; discriminate Hj1].
  destruct (C3_depth_completed_monotone_bounded demo_txid _ _ 0%nat job1 Hok Hj1)
    as (job2 & Hj2 & Hle & H0 & Hb).
  exists job1, job2. split; [reflexivity|]. split; [exact Hj2|].
  split; [exact Hle|]. split; [exact H0|exact Hb].
Defined.

(** C4, at the threshold: a count of 20 fails the job. *)
Lemma C4_admission_witness :
  metadata_queue demo_submitted = [0%nat] /\
  jobs demo_submitted !! 0%nat = Some demo_job /\
  search_jobs demo_submitted !! root_txid demo_job = None /\
  owner_finished demo_live = false /\
  host_unset demo_live = false /\
  exists job',
    jobs (metadata_loop demo_live (FetchOk (Some 9) (Some 20) demo_depth_map)
            demo_submitted).1 !! 0%nat = Some job' /\
    is_failed "low txn count" job'.
Proof.
  destruct (C4_admission demo_live (Some 9) (Some 20) demo_depth_map demo_submitted
              0%nat [] demo_job eq_refl eq_refl eq_refl eq_refl eq_refl)
    as (_ & job' & Hj & Hlow & _).
  destruct (Hlow ltac:(lia)) as [Hfailed _].
  repeat (split; [reflexivity|]). exists job'. split; [exact Hj|exact Hfailed].
Defined.

(** C5, on the first chunk of the demo search: three transactions came, so
    [depth_completed] is the boundary depth 5, below the total depth 9, and
    the call recurses. *)
Lemma C5_round_progress_witness :
  owner_finished demo_live = false /\
  depth_map demo_fetched_job = Some demo_depth_map /\
  demo_depth_map !! str ((0 + 1) * 1000) = Some (5, 1000) /\
  slpdb_host demo_live = Some "https://slpdb.example" /\
  total_depth demo_fetched_job = Some 9 /\
  Forall (λ r, r ≠ "") (concat (map dependsOn demo_reply_0)) /\
  depth_completed
    (search_query_chunk demo_txid demo_live (RespOk demo_reply_0) 0 [] 0
       demo_fetched_job TxStore_init).1.1.1 = 5 /\
  exists txids',
    (search_query_chunk demo_txid demo_live (RespOk demo_reply_0) 0 [] 0
       demo_fetched_job TxStore_init).2 = Recurse txids' 1.
Proof.
  assert (Hraw : Forall (λ r, r ≠ "") (concat (map dependsOn demo_reply_0))).
  { cbn. repeat constructor; discriminate. }
  assert (Hprev : 0 < 0 -> is_Some (demo_depth_map !! str (0 * 1000))) by lia.
  pose proof (C5_round_progress demo_txid demo_live demo_reply_0 0%nat [] 0
                demo_fetched_job TxStore_init demo_depth_map 5 1000
                "https://slpdb.example" 9
                eq_refl eq_refl eq_refl Hprev eq_refl eq_refl Hraw) as H.
  destruct (search_query_chunk demo_txid demo_live (RespOk demo_reply_0) 0 [] 0
              demo_fetched_job TxStore_init) as [[[job' st'] ev] out].
  destruct H as (Hdc & _ & _ & Hrec & _).
  cbn [fst snd]. cbn in Hdc.
  repeat (split; [first [reflexivity | exact Hraw]|]).
  split; [exact Hdc|]. rewrite Hdc in Hrec. destruct (Hrec ltac:(lia)) as [Hout _].
  exact Hout.
Defined.

(** C6, on the second chunk of the demo search: the requested depth is
    9 - 5 = 4, and a recursion would pass on the ids at depth 4. *)
Lemma C6_requested_depth_and_frontier_witness :
  0 <= 1 /\
  owner_finished demo_live = false /\
  depth_map demo_fetched_job = Some demo_depth_map /\
  slpdb_host demo_live = Some "https://slpdb.example" /\
  requested_depth demo_depth_map 1 = Some 4 /\
  (search_query_chunk demo_txid demo_live (RespOk demo_reply_1) 0 ["txid:bb"; "txid:cc"] 1
     demo_fetched_job TxStore_init).1.2 =
    [EvSearchRequest 0 ["txid:bb"; "txid:cc"] 4].
Proof.
  assert (H1 : 0 <= 1) by lia.
  pose proof (C6_requested_depth_and_frontier demo_txid demo_live (RespOk demo_reply_1)
                0%nat ["txid:bb"; "txid:cc"] 1 demo_fetched_job TxStore_init
                demo_depth_map "https://slpdb.example" 4
                H1 eq_refl eq_refl eq_refl eq_refl) as (_ & _ & H).
  destruct (search_query_chunk demo_txid demo_live (RespOk demo_reply_1) 0
              ["txid:bb"; "txid:cc"] 1 demo_fetched_job TxStore_init)
    as [[[job' st'] ev] out].
  destruct H as [Hev _]. cbn [fst snd].
  split; [exact H1|]. repeat (split; [reflexivity|]). exact Hev.
Defined.

(** C7, on the second of two jobs for one root id. *)
Lemma C7_dedup_witness :
  let s := (run demo_txid demo_duplicate_ops SlpGraphSearchManager_init).1 in
  metadata_queue s = [1%nat] /\
  jobs s !! 1%nat = Some demo_job /\
  search_jobs s !! root_txid demo_job = Some 0%nat /\
  metadata_loop demo_live demo_metadata s = (set_metadata_queue [] s, []) /\
  search_jobs (metadata_loop demo_live demo_metadata s).1 !! root_txid demo_job = Some 0%nat.
Proof.
  cbv zeta.
  set (s := (run demo_txid demo_duplicate_ops SlpGraphSearchManager_init).1).
  assert (Hq : metadata_queue s = [1%nat]) by (vm_compute; reflexivity).
  assert (Hj : jobs s !! 1%nat = Some demo_job) by (vm_compute; reflexivity).
  assert (Hreg : search_jobs s !! root_txid demo_job = Some 0%nat) by (vm_compute; reflexivity).
  destruct (C7_dedup demo_live demo_metadata s 1%nat [] demo_job Hq Hj) as [Hdup _].
  destruct (Hdup 0%nat Hreg) as (Heq & _ & _ & Hkeep & _).
  split; [exact Hq|]. split; [exact Hj|]. split; [exact Hreg|].
  split; [exact Heq|exact Hkeep].
Defined.

(** C8, with an id passed along. *)
Lemma C8_cache_roundtrip_witness :
  raw (mkTx "0100" false) ≠ "" /\
  exists st1 st2 l,
    tx_cache_put demo_txid (Some (mkTx "0100" false)) (Some "abcd") TxStore_init = (st1, None) /\
    tx_cache_get "abcd" st1 = (st2, Some l) /\
    raw <$> tx_objects st2 !! l = Some "0100".
Proof.
  assert (Hraw : raw (mkTx "0100" false) ≠ "") by discriminate.
  destruct (C8_cache_roundtrip demo_txid (mkTx "0100" false) (Some "abcd") TxStore_init Hraw)
    as (_ & st1 & st2 & l & Hput & Hget & _ & _ & Hread & _).
  split; [exact Hraw|]. exists st1, st2, l.
  split; [exact Hput|]. split; [exact Hget|exact Hread].
Defined.

(** C9, on a job that is not complete. *)
Lemma C9_restart_witness :
  jobs demo_submitted !! 0%nat = Some demo_job /\
  job_complete demo_job = false /\
  restart_search 0 demo_submitted =
    upd_job 0 (sched_cancel (Some CbRestartSearch) "job restarted") demo_submitted /\
  search_jobs (run_callback CbRestartSearch 0 demo_submitted) =
    delete "root" (search_jobs demo_submitted).
Proof.
  destruct (C9_restart demo_txid 0%nat demo_submitted demo_job eq_refl)
    as (Hpend & (Hreg & _) & _).
  destruct (Hpend eq_refl) as (Heq & _).
  split; [reflexivity|]. split; [reflexivity|]. split; [exact Heq|exact Hreg].
Defined.

(** C10, on a job whose owner has finished. *)
Lemma C10_failed_sets_started_witness :
  metadata_queue demo_submitted = [0%nat] /\
  jobs demo_submitted !! 0%nat = Some demo_job /\
  search_jobs demo_submitted !! root_txid demo_job = None /\
  metadata_failure demo_finished demo_metadata = Some "validation finished" /\
  search_started demo_job = false /\
  exists job',
    jobs (metadata_loop demo_finished demo_metadata demo_submitted).1 !! 0%nat = Some job' /\
    is_failed "validation finished" job' /\
    search_started job' = true.
Proof.
  destruct (C10_failed_sets_started demo_txid) as (_ & Hmeta & _).
  destruct (Hmeta demo_finished demo_metadata demo_submitted 0%nat [] demo_job
              "validation finished" eq_refl eq_refl eq_refl eq_refl)
    as (job' & Hj & Hfailed & Hstarted & _).
  repeat (split; [reflexivity|]). exists job'.
  split; [exact Hj|]. split; [exact Hfailed|exact Hstarted].
Defined.

(** * Further properties of the module *)

Section Extras.

Variable txid_of : string -> string.

Implicit Types (s : SlpGraphSearchManager) (job : GraphSearchJob) (j : nat).
Implicit Types (own : OwnerStatus) (tr ev : list Event).

(** ** fetch_metadata *)

Lemma metadata_element_complete resp :
  reply_complete resp = true ->
  exists dm cnt td,
    r_depthMap resp = Some dm /\ r_txcount resp = Some cnt /\ r_totalDepth resp = Some td /\
    metadata_element resp = Value (mkMetadataDict dm cnt td).
Proof.
  unfold reply_complete, metadata_element.
  destruct (r_depthMap resp) as [dm|]; [|done].
  destruct (r_txcount resp) as [cnt|]; [|done].
  destruct (r_totalDepth resp) as [td|]; [|done].
  intros _. by exists dm, cnt, td.
Qed.

Lemma metadata_element_incomplete resp :
  reply_complete resp = false -> exists key, metadata_element resp = KeyError key.
Proof.
  unfold reply_complete, metadata_element.
  destruct (r_depthMap resp) as [dm|]; [|by eexists].
  destruct (r_txcount resp) as [cnt|]; [|by eexists].
  destruct (r_totalDepth resp) as [td|]; [done|by eexists].
Qed.

Lemma metadata_query_loop_incomplete g res :
  (exists resp, resp ∈ g /\ reply_complete resp = false) ->
  exists key, metadata_query_loop g res = KeyError key.
Proof.
  revert res. induction g as [|r g IH]; intros res (resp & Hin & Hinc).
  - by apply elem_of_nil in Hin.
  - cbn. destruct (reply_complete r) eqn:Hr.
    + destruct (metadata_element_complete r Hr) as (dm & cnt & td & _ & _ & _ & ->).
      apply IH. exists resp. split; [|done].
      apply elem_of_cons in Hin as [->|Hin]; [congruence|done].
    + destruct (metadata_element_incomplete r Hr) as [key ->]. by exists key.
Qed.

Lemma metadata_query_loop_complete g res :
  forallb reply_complete g = true ->
  metadata_query_loop g res =
    Value (match last g with
           | None => res
           | Some resp =>
               match metadata_element resp with Value o => Some o | _ => None end
           end).
Proof.
  revert res. induction g as [|r g IH]; intros res Hall; [done|].
  cbn in Hall. apply andb_prop in Hall as [Hr Hg]. cbn [metadata_query_loop].
  destruct (metadata_element_complete r Hr) as (dm & cnt & td & Hdm & Hcnt & Htd & Hel).
  rewrite Hel, (IH _ Hg). destruct g as [|r' g]; cbn [last]; [by rewrite Hel|].
  destruct (last (r' :: g)) as [resp|] eqn:Hlast; [done|].
  by apply last_None in Hlast.
Qed.

Lemma forallb_false_elem {A} (f : A -> bool) (l : list A) :
  forallb f l = false -> exists x, x ∈ l /\ f x = false.
Proof.
  induction l as [|a l IH]; cbn; [done|]. destruct (f a) eqn:Ha; cbn.
  - intros H. destruct (IH H) as (x & Hin & Hx). exists x. split; [by right|done].
  - intros _. exists a. split; [by left|done].
Qed.

(** X1: [fetch_metadata] raises [SlpdbErrorNoSearchData] exactly when the
    decoded reply has no key ['g'], or an empty list there, or a list with an
    element that lacks one of the keys [depthMap], [txcount], [totalDepth]
    (the last element or any before it); [metadata_loop] then sees "no data
    yet", and no attribute of the job has been assigned. *)
Theorem X1_fetch_metadata_no_data (g : option (list MetadataReply)) job :
  ((exists msg, fetch_metadata (MetaJson g) job = SlpdbErrorNoSearchData msg) <->
   (g = None \/ g = Some [] \/
    exists l resp, g = Some l /\ resp ∈ l /\ reply_complete resp = false)) /\
  ((exists msg, fetch_metadata (MetaJson g) job = SlpdbErrorNoSearchData msg) <->
   fetch_result (MetaJson g) = FetchNoData) /\
  (forall msg, fetch_metadata (MetaJson g) job ≠ FetchException msg).
Proof.
  unfold fetch_metadata, fetch_result, metadata_query.
  destruct g as [l|].
  2:{ split; [|split]; [split; [auto|by eexists]|split; [done|by eexists]|done]. }
  destruct (forallb reply_complete l) eqn:Hall.
  - rewrite (metadata_query_loop_complete l None Hall).
    destruct l as [|r l]; cbn [last].
    { split; [|split]; [split; [auto|by eexists]|split; [done|by eexists]|done]. }
    assert (Hlast : exists resp, last (r :: l) = Some resp /\ reply_complete resp = true).
    { destruct (last (r :: l)) as [resp|] eqn:Hlast.
      - exists resp. split; [done|]. rewrite forallb_forall in Hall. apply Hall.
        apply list_elem_of_In. by apply last_Some_elem_of.
      - by apply last_None in Hlast. }
    destruct Hlast as (resp & -> & Hc).
    destruct (metadata_element_complete resp Hc) as (dm & cnt & td & _ & _ & _ & ->).
    split; [|split]; [| |done].
    + split; [by intros [msg [=]]|].
      intros [[=]|[[=]|(l' & resp' & [= <-] & Hin & Hinc)]].
      rewrite forallb_forall in Hall. apply list_elem_of_In in Hin.
      apply Hall in Hin. congruence.
    + split; [by intros [msg [=]]|done].
  - destruct (forallb_false_elem _ _ Hall) as (resp & Hin & Hinc).
    destruct (metadata_query_loop_incomplete l None) as [key ->]; [by exists resp|].
    split; [|split]; [| |done].
    + split; [|by eexists]. intros _. right. right. by exists l, resp.
    + split; [done|by eexists].
Qed.

(** X2: when every element of ['g'] has the three keys, [fetch_metadata]
    assigns the values of the last element, whatever the elements before it
    hold, and [metadata_loop] goes on to the admission tests with them. *)
Theorem X2_fetch_metadata_last_element l resp job dm cnt td :
  forallb reply_complete l = true ->
  r_depthMap resp = Some dm ->
  r_txcount resp = Some cnt ->
  r_totalDepth resp = Some td ->
  fetch_metadata (MetaJson (Some (l ++ [resp]))) job = Fetched (set_metadata td cnt dm job) /\
  fetch_result (MetaJson (Some (l ++ [resp]))) = FetchOk td cnt dm.
Proof.
  intros Hl Hdm Hcnt Htd.
  assert (Hall : forallb reply_complete (l ++ [resp]) = true).
  { rewrite forallb_app, Hl. cbn. unfold reply_complete. by rewrite Hdm, Hcnt, Htd. }
  unfold fetch_metadata, fetch_result, metadata_query.
  rewrite (metadata_query_loop_complete _ None Hall), last_snoc.
  unfold metadata_element. by rewrite Hdm, Hcnt, Htd.
Qed.

(** ** Cancellation requests *)

(** X3: a second [sched_cancel] changes nothing but the reason: whatever the
    job, the callback of the second request is not registered and the one of
    the first request (if the job was not complete) stays. *)
Theorem X3_sched_cancel_twice cb1 r1 cb2 r2 job :
  sched_cancel cb2 r2 (sched_cancel cb1 r1 job) =
    set_exit_msg (Some r2) (sched_cancel cb1 r1 job) /\
  cancel_callback (sched_cancel cb2 r2 (sched_cancel cb1 r1 job)) =
    cancel_callback (sched_cancel cb1 r1 job) /\
  exit_msg (sched_cancel cb2 r2 (sched_cancel cb1 r1 job)) = Some r2.
Proof.
  assert (H : sched_cancel cb2 r2 (sched_cancel cb1 r1 job) =
              set_exit_msg (Some r2) (sched_cancel cb1 r1 job)).
  { unfold sched_cancel. cbn.
    destruct (job_complete job) eqn:Hc; cbn; rewrite ?Hc; [done|].
    destruct (waiting_to_cancel job) eqn:Hw; cbn; rewrite ?Hc, ?Hw; cbn; by rewrite ?Hc. }
  split; [done|]. by rewrite H.
Qed.


(** ** Error paths of the search *)

(** A call of [search_query] that gets past the cancel test, as [search_loop]
    sees it. *)
Lemma search_loop_call_chunk own resp j txids k s job :
  searching s = Some (j, txids, k) ->
  jobs s !! j = Some job ->
  waiting_to_cancel job = false ->
  search_loop_call txid_of own resp s =
    let '(job', st', ev, out) :=
      search_query_chunk txid_of own resp j txids k job (tx_store s) in
    let s' := set_tx_store st' (upd_job j (λ _, job') s) in
    match out with
    | Return => (set_searching None s', ev)
    | Recurse txids' k' => (set_searching (Some (j, txids', k')) s', ev)
    | Raise msg => (set_searching None (upd_job j (set_failed (Some msg)) s'), ev)
    end.
Proof.
  intros Hs Hj Hw. unfold search_loop_call, search_query_call. rewrite Hs, Hj, Hw.
  destruct (search_query_chunk txid_of own resp j txids k job (tx_store s))
    as [[[job' st'] ev] out]. by destruct out.
Qed.

Lemma upd_job_const_lookup j job' f s job :
  jobs s !! j = Some job ->
  jobs (upd_job j f (set_tx_store (tx_store s) (upd_job j (λ _, job') s))) !! j = Some (f job').
Proof.
  intros Hj. rewrite upd_job_lookup. cbn [jobs set_tx_store].
  by rewrite upd_job_lookup, Hj.
Qed.

(** X5: when the depth map has no entry for the boundary of the chunk, key
    [str((depth_map_index+1)*1000)], the call raises the [KeyError] before any
    request is made and before any attribute is written: the job fails with
    the quoted key as its reason, and the cache and the queues are as before.
    When that entry is there but the one of the previous boundary is not
    (for an index above 0), the job fails in the same way, with
    [depth_current_query] already set to the new boundary depth. *)
Theorem X5_missing_boundary_key own resp j txids k s job dm :
  searching s = Some (j, txids, k) ->
  jobs s !! j = Some job ->
  waiting_to_cancel job = false ->
  owner_finished own = false ->
  depth_map job = Some dm ->
  let s' := (search_loop_call txid_of own resp s).1 in
  let ev := (search_loop_call txid_of own resp s).2 in
  (dm !! str ((k + 1) * 1000) = None ->
     ev = [] /\ searching s' = None /\ tx_store s' = tx_store s /\
     search_queue s' = search_queue s /\ metadata_queue s' = metadata_queue s /\
     jobs s' !! j = Some (set_failed (Some ("'" +:+ str ((k + 1) * 1000) +:+ "'")) job)) /\
  (forall bd cnt,
     0 < k ->
     dm !! str ((k + 1) * 1000) = Some (bd, cnt) ->
     dm !! str (k * 1000) = None ->
     ev = [] /\ searching s' = None /\ tx_store s' = tx_store s /\
     jobs s' !! j =
       Some (set_failed (Some ("'" +:+ str (k * 1000) +:+ "'"))
               (set_depth_current_query (Some bd) job))).
Proof.
  intros Hs Hj Hw Hown Hdm. cbn zeta.
  rewrite (search_loop_call_chunk own resp j txids k s job Hs Hj Hw).
  unfold search_query_chunk. rewrite Hown, Hdm. split.
  - intros ->. cbn [fst snd]. repeat (split; [done|]).
    cbn [jobs set_searching]. by rewrite (upd_job_const_lookup j job _ s job Hj).
  - intros bd cnt Hk -> Hprev. destruct (Z.ltb_spec 0 k) as [_|?]; [|lia].
    rewrite Hprev. cbn [fmap option_fmap option_map fst snd]. repeat (split; [done|]).
    cbn [jobs set_searching].
    by rewrite (upd_job_const_lookup j _ _ s job Hj).
Qed.

Lemma tx_cache_put_all_app txs1 txs2 st :
  tx_cache_put_all txid_of (txs1 ++ txs2) st =
    match tx_cache_put_all txid_of txs1 st with
    | (st', Some e) => (st', Some e)
    | (st', None) => tx_cache_put_all txid_of txs2 st'
    end.
Proof.
  revert st. induction txs1 as [|tx txs1 IH]; intros st; [done|].
  cbn [app tx_cache_put_all].
  destruct (tx_cache_put txid_of (Some tx) None st) as [st1 [e|]]; [done|apply IH].
Qed.

(** X6: when the reply holds a transaction with empty raw bytes, the round
    caches the transactions before it, raises the [ValueError] of
    [tx_cache_put] at that one and caches none after it; the job fails with
    that message, its [txn_count_progress] already counts every transaction
    of the reply, and its [depth_completed] is not advanced. *)
Theorem X6_empty_raw_in_reply own g j txids k s job dm bd cnt qd host pre d bad post :
  searching s = Some (j, txids, k) ->
  jobs s !! j = Some job ->
  waiting_to_cancel job = false ->
  owner_finished own = false ->
  depth_map job = Some dm ->
  dm !! str ((k + 1) * 1000) = Some (bd, cnt) ->
  (if 0 <? k then (λ prev, bd - prev.1) <$> dm !! str (k * 1000) else Some bd) = Some qd ->
  slpdb_host own = Some host ->
  response_txns g = pre ++ (d, bad) :: post ->
  Forall (λ tx, raw tx.2 ≠ "") pre ->
  raw bad = "" ->
  let s' := (search_loop_call txid_of own (RespOk g) s).1 in
  exists st' job',
    tx_cache_put_all txid_of (map snd pre) (tx_store s) = (st', None) /\
    tx_store s' = st' /\
    searching s' = None /\
    jobs s' !! j = Some job' /\
    is_failed invalid_raw_msg job' /\
    txn_count_progress job' =
      txn_count_progress job + Z.of_nat (length pre + 1 + length post) /\
    depth_completed job' = depth_completed job.
Proof.
  intros Hs Hj Hw Hown Hdm Hbd Hqd Hhost Htx Hpre Hbad. cbn zeta.
  rewrite (search_loop_call_chunk own (RespOk g) j txids k s job Hs Hj Hw).
  unfold search_query_chunk. rewrite Hown, Hdm, Hbd, Hqd, Hhost, Htx.
  rewrite map_app, tx_cache_put_all_app.
  destruct (tx_cache_put_all_ok txid_of (map snd pre) (tx_store s)) as [st' Hput].
  { clear -Hpre. induction Hpre; cbn; constructor; auto. }
  rewrite Hput. cbn [map tx_cache_put_all snd tx_cache_put].
  destruct (decide (raw bad = "")) as [_|Hne]; [|done].
  exists st'. eexists. split; [done|]. cbn [fst]. split; [done|]. split; [done|].
  split.
  - cbn [jobs set_searching]. by rewrite upd_job_lookup; cbn [jobs set_tx_store];
      rewrite upd_job_lookup, Hj.
  - split; [done|]. split; [|done]. cbn. rewrite length_app. cbn. f_equal. lia.
Qed.

(** X7: nothing is asked of the backend for a job whose owner has
    finished, nor fetched when no host is set: the metadata iteration makes
    no call at all, the search worker does not start [search_query] on a job
    it takes from its queue, and a call of [search_query] that is under way
    issues no request (the only thing it may call is a pending cancel
    callback) and leaves the cache alone. *)
Theorem X7_no_request_when_owner_finished own :
  (owner_finished own = true \/ host_unset own = true ->
   forall res s, (metadata_loop own res s).2 = []) /\
  (owner_finished own = true ->
   forall s, searching s = None -> searching (search_loop_dequeue own s) = None) /\
  (owner_finished own = true ->
   forall resp s,
     (forall e, e ∈ (search_loop_call txid_of own resp s).2 ->
        exists j cb, e = EvCancelCallback j cb) /\
     tx_store (search_loop_call txid_of own resp s).1 = tx_store s).
Proof.
  split; [|split].
  - intros Hown res s. unfold metadata_loop.
    destruct (metadata_queue s) as [|j q]; [done|]. cbn [jobs set_metadata_queue].
    destruct (jobs s !! j) as [job|]; [|done]. cbn [search_jobs set_metadata_queue].
    destruct (search_jobs s !! root_txid job); [done|].
    destruct (owner_finished own); [done|]. destruct (host_unset own); [done|].
    by destruct Hown.
  - intros Hown s Hs. unfold search_loop_dequeue. rewrite Hs, Hown.
    by destruct (search_queue s).
  - intros Hown resp s. unfold search_loop_call.
    destruct (searching s) as [[[j txids] k]|]; [|split; [by intros e ?%elem_of_nil|done]].
    unfold search_query_call. destruct (jobs s !! j) as [job|] eqn:Hj.
    2:{ split; [by intros e ?%elem_of_nil|done]. }
    destruct (waiting_to_cancel job).
    + destruct (cancel_spec j s job Hj) as (_ & Hev & Hst).
      destruct (_cancel j s) as [s1 ev1]. cbn [fst snd] in *. subst ev1 s1. split.
      * intros e. destruct (cancel_callback job) as [cb|]; [|by intros ?%elem_of_nil].
        intros ->%list_elem_of_singleton. by exists j, cb.
      * destruct (cancel_callback job) as [[|tag]|]; [|done|done].
        cbn [run_callback tx_store set_searching].
        destruct (restart_callback_spec j (upd_job j cancel_flags s) (cancel_flags job))
          as (_ & _ & _ & _ & _ & ->); [by rewrite upd_job_lookup, Hj|done].
    + unfold search_query_chunk. rewrite Hown. cbn [fst snd].
      split; [by intros e ?%elem_of_nil|done].
Qed.

(** ** Status invariant of the runs *)

Lemma jstat_incomplete job :
  job_complete job = false -> search_success job = None -> jstat job.
Proof.
  intros Hc Hs. unfold jstat. rewrite Hc, Hs. split; [|done].
  split; [done|]. by intros [? [=]].
Qed.

Lemma jstat_failed reason job : jstat (set_failed reason job).
Proof. unfold jstat. cbn. split; [|done]. split; [by eexists|done]. Qed.

Lemma jstat_cancel_flags job : search_started job = true -> jstat (cancel_flags job).
Proof. intros H. unfold jstat. cbn. split; [|done]. split; [by eexists|done]. Qed.

Lemma jstat_not_complete job :
  jstat job -> job_complete job = false -> search_success job = None.
Proof.
  intros ([_ H] & _) Hc. destruct (search_success job) as [b|]; [|done].
  rewrite H in Hc; [done|by eexists].
Qed.

Lemma Sinv_update s s' j job' :
  Sinv s ->
  jobs s' !! j = Some job' ->
  (forall x, x ≠ j -> jobs s' !! x = jobs s !! x) ->
  (forall x, x ≠ j -> x ∈ pending s' -> x ∈ pending s) ->
  (forall x, x ≠ j -> x ∈ frame_job s' -> x ∈ frame_job s) ->
  jstat job' ->
  (j ∈ pending s' -> job_complete job' = false) ->
  (j ∈ frame_job s' -> search_started job' = true) ->
  Sinv s'.
Proof.
  intros HS Hj' Hoth Hp Hf Hst Hpc Hfs x. unfold sinv.
  destruct (decide (x = j)) as [->|Hne]; [by rewrite Hj'|].
  rewrite Hoth by done. specialize (HS x). unfold sinv in HS.
  destruct (jobs s !! x) as [job|]; [|done].
  destruct HS as (? & Hpx & Hfx). split; [done|]. split; auto.
Qed.

Lemma Sinv_same_jobs s s' :
  Sinv s ->
  jobs s' = jobs s ->
  (forall x, x ∈ pending s' -> x ∈ pending s) ->
  (forall x, x ∈ frame_job s' -> x ∈ frame_job s) ->
  Sinv s'.
Proof.
  intros HS Hjobs Hp Hf x. specialize (HS x). unfold sinv in *. rewrite Hjobs.
  destruct (jobs s !! x) as [job|]; [|done].
  destruct HS as (? & Hpx & Hfx). split; [done|]. split; auto.
Qed.

(** The attributes the status invariant reads. *)
Lemma Sinv_upd_job j f s :
  (forall job, jobs s !! j = Some job ->
     job_complete (f job) = job_complete job /\
     search_success (f job) = search_success job /\
     search_started (f job) = search_started job /\
     total_depth (f job) = total_depth job /\
     depth_completed (f job) = depth_completed job) ->
  Sinv s -> Sinv (upd_job j f s).
Proof.
  intros Hf HS. destruct (jobs s !! j) as [job|] eqn:Hj.
  - destruct (Hf job eq_refl) as (Hc & Hsu & Hst & Htd & Hdc).
    pose proof (HS j) as Hjinv. unfold sinv in Hjinv. rewrite Hj in Hjinv.
    destruct Hjinv as (Hjs & Hp & Hfr).
    apply (Sinv_update s _ j (f job)); auto.
    + by rewrite upd_job_lookup, Hj.
    + intros x Hx. by rewrite upd_job_lookup_ne.
    + unfold jstat in *. by rewrite Hc, Hsu, Hst, Htd, Hdc.
    + intros Hin. rewrite Hc. by apply Hp.
    + intros Hin. rewrite Hst. by apply Hfr.
  - apply (Sinv_same_jobs s); auto using upd_job_lookup_None.
Qed.

Lemma sched_cancel_status cb reason job :
  job_complete (sched_cancel cb reason job) = job_complete job /\
  search_success (sched_cancel cb reason job) = search_success job /\
  search_started (sched_cancel cb reason job) = search_started job /\
  total_depth (sched_cancel cb reason job) = total_depth job /\
  depth_completed (sched_cancel cb reason job) = depth_completed job.
Proof. unfold sched_cancel. cbn. by repeat case_match. Qed.

Lemma frame_job_pending s x : x ∈ frame_job s -> x ∈ pending s.
Proof. unfold pending. rewrite !elem_of_app. auto. Qed.

Lemma new_search_lookup_ne v s x :
  x ≠ length (jobs s) -> jobs (new_search v s).1 !! x = jobs s !! x.
Proof.
  intros Hx. cbn. destruct (jobs s !! x) as [a|] eqn:Hl.
  - by apply lookup_app_l_Some.
  - apply lookup_ge_None_1 in Hl. rewrite lookup_app_r by lia.
    destruct (x - length (jobs s))%nat as [|n] eqn:Hn; [lia|done].
Qed.

Lemma new_search_lookup v s :
  jobs (new_search v s).1 !! length (jobs s) = Some (GraphSearchJob_init (vj_root_txid v) v).
Proof. cbn. by rewrite lookup_app_r, Nat.sub_diag by lia. Qed.

Lemma Sinv_new_search v s tr : Inv s tr -> Sinv s -> Sinv (new_search v s).1.
Proof.
  intros (Hnd & Hal & _) HS.
  assert (Hfresh : length (jobs s) ∉ pending s).
  { intros Hin. apply Hal in Hin. lia. }
  apply (Sinv_update s _ (length (jobs s)) (GraphSearchJob_init (vj_root_txid v) v)); auto.
  - apply new_search_lookup.
  - intros x Hx. by apply new_search_lookup_ne.
  - intros x Hx. rewrite pending_new_search. intros [?|?]%elem_of_cons; done.
  - by apply jstat_incomplete.
  - intros Hin. exfalso. apply Hfresh. by apply frame_job_pending.
Qed.

Lemma Sinv_restart_callback j s tr : Inv s tr -> Sinv s -> Sinv (restart_callback j s).
Proof.
  intros HI HS. unfold restart_callback. destruct (jobs s !! j) as [job|]; [|done].
  apply (Sinv_new_search _ _ tr); [by apply Inv_set_search_jobs|].
  by apply (Sinv_same_jobs s).
Qed.

Lemma Sinv_run_callback cb j s tr : Inv s tr -> Sinv s -> Sinv (run_callback cb j s).
Proof. destruct cb; cbn; [apply Sinv_restart_callback|done]. Qed.

Lemma Sinv_restart_search j s tr : Inv s tr -> Sinv s -> Sinv (restart_search j s).
Proof.
  intros HI HS. unfold restart_search. destruct (jobs s !! j) as [job|]; [|done].
  destruct (negb (job_complete job)).
  - apply Sinv_upd_job; [|done]. intros. apply sched_cancel_status.
  - by apply (Sinv_restart_callback j s tr).
Qed.

(** A job leaves the queues: it is failed, or it goes on incomplete. *)
Lemma Sinv_taken s s' tr j job job' :
  Inv s tr -> Sinv s ->
  j ∈ pending s ->
  jobs s !! j = Some job ->
  jobs s' !! j = Some job' ->
  (forall x, x ≠ j -> jobs s' !! x = jobs s !! x) ->
  (forall x, x ≠ j -> x ∈ pending s' -> x ∈ pending s) ->
  (forall x, x ≠ j -> x ∈ frame_job s' -> x ∈ frame_job s) ->
  (j ∈ frame_job s' -> search_started job' = true) ->
  ((j ∉ pending s') /\ jstat job') \/
  (job_complete job' = false /\ search_success job' = None) ->
  Sinv s'.
Proof.
  intros HI HS Hin Hj Hj' Hoth Hp Hf Hfs Hcase.
  apply (Sinv_update s _ j job'); auto.
  - destruct Hcase as [[_ ?]|[? ?]]; [done|by apply jstat_incomplete].
  - intros Hin'. destruct Hcase as [[? _]|[? _]]; done.
Qed.

Lemma frame_job_unchanged :
  (forall q s, frame_job (set_search_queue q s) = frame_job s) /\
  (forall q s, frame_job (set_metadata_queue q s) = frame_job s) /\
  (forall r s, frame_job (set_search_jobs r s) = frame_job s) /\
  (forall st s, frame_job (set_tx_store st s) = frame_job s) /\
  (forall j f s, frame_job (upd_job j f s) = frame_job s).
Proof. done. Qed.

Lemma Sinv_metadata_loop own res s tr :
  Inv s tr -> Sinv s -> Sinv (metadata_loop own res s).1.
Proof.
  intros HI HS. unfold metadata_loop.
  destruct (metadata_queue s) as [|j q] eqn:Hq; [done|].
  pose proof HI as (Hnd & _).
  assert (Hpend : pending s = j :: q ++ search_queue s ++ frame_job s).
  { unfold pending. by rewrite Hq. }
  rewrite Hpend in Hnd. apply NoDup_cons in Hnd as [Hnp _].
  assert (Hin : j ∈ pending s) by (rewrite Hpend; by left).
  assert (Hdrop : Sinv (set_metadata_queue q s)).
  { apply (Sinv_same_jobs s); try done. intros x Hx. rewrite Hpend. by right. }
  cbn [jobs set_metadata_queue].
  destruct (jobs s !! j) as [job|] eqn:Hj; [|done].
  cbn [search_jobs set_metadata_queue].
  destruct (search_jobs s !! root_txid job); [done|].
  set (s1 := set_search_jobs _ (set_metadata_queue q s)).
  assert (Hj1 : jobs s1 !! j = Some job) by done.
  assert (Hjobs1 : forall x, jobs s1 !! x = jobs s !! x) by done.
  pose proof (HS j) as Hjinv. unfold sinv in Hjinv. rewrite Hj in Hjinv.
  destruct Hjinv as (Hjs & Hpc & _). specialize (Hpc Hin).
  pose proof (jstat_not_complete job Hjs Hpc) as Hsu.
  assert (Hnf : j ∉ frame_job s).
  { intros Hf. apply Hnp. rewrite !elem_of_app. auto. }
  assert (Hgen : forall s' job',
            jobs s' !! j = Some job' ->
            (forall x, x ≠ j -> jobs s' !! x = jobs s !! x) ->
            frame_job s' = frame_job s ->
            (forall x, x ≠ j -> x ∈ pending s' -> x ∈ pending s) ->
            ((j ∉ pending s') /\ jstat job') \/
            (job_complete job' = false /\ search_success job' = None) ->
            Sinv s').
  { intros s' job' Hj' Hoth Hfr Hp Hcase.
    apply (Sinv_taken s s' tr j job job'); try done; rewrite Hfr; done. }
  assert (Hfail : forall msg, Sinv (upd_job j (set_failed msg) s1)).
  { intros msg. apply (Hgen _ (set_failed msg job)); try done.
    - by rewrite upd_job_lookup, Hj1.
    - intros x Hx. by rewrite upd_job_lookup_ne, Hjobs1.
    - intros x Hx Hxin. rewrite Hpend. by right.
    - left. split; [done|apply jstat_failed]. }
  destruct (owner_finished own); [apply Hfail|].
  destruct (host_unset own); [apply Hfail|].
  destruct res as [td cnt dm| |msg]; [| |apply Hfail].
  - assert (HfailM : forall msg,
              Sinv (upd_job j (set_failed msg) (upd_job j (set_metadata td cnt dm) s1))).
    { intros msg. apply (Hgen _ (set_failed msg (set_metadata td cnt dm job))); try done.
      - by rewrite !upd_job_lookup, Hj1.
      - intros x Hx. by rewrite !upd_job_lookup_ne, Hjobs1.
      - intros x Hx Hxin. rewrite Hpend. by right.
      - left. split; [done|apply jstat_failed]. }
    destruct cnt as [n|]; [|apply HfailM].
    destruct (n <=? cancel_thresh_txcount); [apply HfailM|].
    cbn [fst]. apply (Hgen _ (set_metadata td (Some n) dm job)); try done.
    + cbn [jobs set_search_queue]. by rewrite upd_job_lookup, Hj1.
    + intros x Hx. cbn [jobs set_search_queue]. by rewrite upd_job_lookup_ne, Hjobs1.
    + intros x Hx. rewrite Hpend. unfold pending, s1.
      destruct frame_job_unchanged as (F1 & F2 & F3 & _ & F5).
      rewrite ?F1, ?F2, ?F5, ?F3, ?F2. cbn.
      rewrite !elem_of_cons, !elem_of_app, ?elem_of_cons, ?elem_of_nil. tauto.
    + by right.
  - destruct (10 <? fetch_retries job); [apply Hfail|].
    cbn [fst]. apply (Hgen _ (set_fetch_retries (fetch_retries job + 1) job)); try done.
    + cbn [jobs set_metadata_queue]. by rewrite upd_job_lookup, Hj1.
    + intros x Hx. cbn [jobs set_metadata_queue]. by rewrite upd_job_lookup_ne, Hjobs1.
    + intros x Hx. rewrite Hpend. unfold pending, s1.
      destruct frame_job_unchanged as (F1 & F2 & F3 & _ & F5).
      rewrite ?F1, ?F2, ?F5, ?F3, ?F2. cbn.
      rewrite !elem_of_cons, !elem_of_app, ?elem_of_cons, ?elem_of_nil. tauto.
    + by right.
Qed.

Lemma Sinv_search_loop_dequeue own s tr :
  Inv s tr -> Sinv s -> Sinv (search_loop_dequeue own s).
Proof.
  intros HI HS. unfold search_loop_dequeue.
  destruct (searching s) as [fr|] eqn:Hs; [done|].
  destruct (search_queue s) as [|j q] eqn:Hq; [done|].
  pose proof HI as (Hnd & Hal & _).
  assert (Hpend : pending s ≡ₚ j :: metadata_queue s ++ q).
  { unfold pending, frame_job. rewrite Hs, Hq, app_nil_r. by rewrite <- Permutation_middle. }
  rewrite Hpend in Hnd. apply NoDup_cons in Hnd as [Hnp _].
  assert (Hin : j ∈ pending s) by (rewrite Hpend; by left).
  destruct (lookup_lt_is_Some_2 _ _ (Hal j Hin)) as [job Hj].
  pose proof (HS j) as Hjinv. unfold sinv in Hjinv. rewrite Hj in Hjinv.
  destruct Hjinv as (Hjs & Hpc & _). specialize (Hpc Hin).
  pose proof (jstat_not_complete job Hjs Hpc) as Hsu.
  destruct (owner_finished own).
  - apply (Sinv_taken s _ tr j job (set_failed (Some "validation finished")
                                      (set_search_started true job))); try done.
    + rewrite !upd_job_lookup. cbn [jobs set_search_queue]. by rewrite Hj.
    + intros x Hx. by rewrite !upd_job_lookup_ne.
    + intros x Hx. rewrite Hpend. unfold pending, frame_job. cbn. rewrite Hs, app_nil_r.
      by right.
    + left. split; [|apply jstat_failed]. unfold pending, frame_job. cbn.
      by rewrite Hs, app_nil_r.
  - apply (Sinv_taken s _ tr j job (set_search_started true job)); try done.
    + cbn [jobs set_searching]. rewrite upd_job_lookup. cbn [jobs set_search_queue].
      by rewrite Hj.
    + intros x Hx. cbn [jobs set_searching]. by rewrite upd_job_lookup_ne.
    + intros x Hx. rewrite Hpend. unfold pending, frame_job. cbn.
      rewrite app_assoc, elem_of_app, list_elem_of_singleton, elem_of_cons. tauto.
    + intros x Hx. unfold frame_job. cbn. by intros ?%list_elem_of_singleton.
    + by right.
Qed.

(** One call of [search_query] on a job that is started and not complete. *)
Lemma search_query_chunk_jstat own resp j txids k job st :
  job_complete job = false ->
  search_success job = None ->
  search_started job = true ->
  let '(job', st', ev, out) := search_query_chunk txid_of own resp j txids k job st in
  search_started job' = true /\
  match out with
  | Return => jstat job'
  | _ => job_complete job' = false /\ search_success job' = None
  end.
Proof.
  intros Hc Hsu Hst. unfold search_query_chunk.
  destruct (owner_finished own); [split; [done|apply jstat_failed]|].
  destruct (depth_map job) as [dm|]; [|done].
  destruct (dm !! str ((k + 1) * 1000)) as [[bd cnt]|]; [|done].
  destruct (if 0 <? k then _ else _) as [qd|]; [|done].
  destruct (slpdb_host own) as [host|]; [|done].
  destruct resp as [g|msg]; [|done].
  destruct (tx_cache_put_all _ _ _) as [st' [e|]]; [done|].
  destruct (response_txns g) as [|tx txns];
    cbn [total_depth depth_completed set_txn_count_progress set_depth_completed
         set_last_search_url set_depth_current_query];
    (destruct (total_depth job) as [td|] eqn:Htd; [|done]);
    match goal with
    | |- context [?a <? ?b] => destruct (Z.ltb_spec a b)
    end; try done;
    (split; [done|]); unfold jstat; cbn; rewrite Htd;
    (split; [split; [by eexists|done]|]); (split; [done|]); intros _; eexists; (split; [done|lia]).
Qed.

Lemma run_callback_set_searching f cb j s :
  set_searching f (run_callback cb j s) = run_callback cb j (set_searching f s).
Proof.
  destruct cb; cbn; [|done]. unfold restart_callback. cbn.
  by destruct (jobs s !! j).
Qed.

Lemma Sinv_search_loop_call own resp s tr :
  Inv s tr -> Sinv s -> Sinv (search_loop_call txid_of own resp s).1.
Proof.
  intros HI HS. unfold search_loop_call.
  destruct (searching s) as [[[j txids] k]|] eqn:Hs; [|done].
  pose proof HI as (Hnd & Hal & _).
  assert (Hfr : frame_job s = [j]) by (unfold frame_job; by rewrite Hs).
  assert (Hin : j ∈ pending s).
  { apply frame_job_pending. rewrite Hfr. by left. }
  assert (Hnq : j ∉ metadata_queue s ++ search_queue s).
  { unfold pending in Hnd. rewrite Hfr, app_assoc in Hnd.
    apply NoDup_app in Hnd as (_ & Hdisj & _). intros Hin'. apply (Hdisj j Hin').
    by apply list_elem_of_singleton. }
  unfold search_query_call.
  destruct (jobs s !! j) as [job|] eqn:Hj.
  2:{ cbn [fst]. apply (Sinv_same_jobs s); try done.
      - cbn. by apply upd_job_lookup_None.
      - intros x. unfold pending, frame_job. cbn. rewrite app_nil_r, !elem_of_app. tauto.
      - intros x. unfold frame_job. cbn. by intros ?%elem_of_nil. }
  pose proof (HS j) as Hjinv. unfold sinv in Hjinv. rewrite Hj in Hjinv.
  destruct Hjinv as (Hjs & Hpc & Hfs). specialize (Hpc Hin).
  assert (Hst : search_started job = true) by (apply Hfs; rewrite Hfr; by left).
  pose proof (jstat_not_complete job Hjs Hpc) as Hsu.
  (* a state in which only job [j] is written and the frame, if any, holds [j] *)
  assert (Hgen : forall s' job',
            jobs s' !! j = Some job' ->
            (forall x, x ≠ j -> jobs s' !! x = jobs s !! x) ->
            metadata_queue s' = metadata_queue s ->
            search_queue s' = search_queue s ->
            search_started job' = true ->
            (searching s' = None /\ jstat job') \/
            ((exists t' k', searching s' = Some (j, t', k')) /\
             job_complete job' = false /\ search_success job' = None) ->
            Sinv s').
  { intros s' job' Hj' Hoth Hmq Hsq Hst' Hcase.
    assert (Hfr' : forall x, x ∈ frame_job s' -> x = j).
    { intros x. unfold frame_job.
      destruct Hcase as [[-> _]|[(t' & k' & ->) _]]; [by intros ?%elem_of_nil|].
      by intros ?%list_elem_of_singleton. }
    apply (Sinv_update s s' j job'); try done.
    - intros x Hx. unfold pending. rewrite Hmq, Hsq, !elem_of_app.
      intros [?|[?|Hxf]]; auto. by apply Hfr' in Hxf.
    - intros x Hx Hxf. by apply Hfr' in Hxf.
    - destruct Hcase as [[_ ?]|[_ [? ?]]]; [done|by apply jstat_incomplete].
    - destruct Hcase as [[Hnone _]|[_ [? _]]]; [|done].
      intros Hin'. exfalso. apply Hnq. unfold pending, frame_job in Hin'.
      rewrite Hmq, Hsq, Hnone, app_nil_r in Hin'. done. }
  destruct (waiting_to_cancel job).
  - unfold _cancel. rewrite upd_job_lookup, Hj. cbn [fmap option_fmap option_map].
    change (cancel_callback (cancel_flags job)) with (cancel_callback job).
    assert (HA : Sinv (set_searching None (upd_job j cancel_flags s))).
    { apply (Hgen _ (cancel_flags job)); try done.
      - cbn [jobs set_searching]. by rewrite upd_job_lookup, Hj.
      - intros x Hx. cbn [jobs set_searching]. by rewrite upd_job_lookup_ne.
      - left. split; [done|]. by apply jstat_cancel_flags. }
    destruct (cancel_callback job) as [cb|]; cbn [fst]; [|done].
    rewrite run_callback_set_searching.
    apply (Sinv_run_callback cb j _ tr); [|done].
    by apply Inv_clear_frame, Inv_upd_job.
  - pose proof (search_query_chunk_jstat own resp j txids k job (tx_store s) Hpc Hsu Hst)
      as Hch.
    destruct (search_query_chunk txid_of own resp j txids k job (tx_store s))
      as [[[job' st'] ev] out].
    destruct Hch as [Hst' Hout].
    assert (Hlk : jobs (upd_job j (λ _, job') s) !! j = Some job').
    { by rewrite upd_job_lookup, Hj. }
    assert (Hlk' : forall x, x ≠ j -> jobs (upd_job j (λ _, job') s) !! x = jobs s !! x).
    { intros x Hx. by rewrite upd_job_lookup_ne. }
    destruct out as [|txids' k'|msg]; cbn [fst].
    + apply (Hgen _ job'); [done|done|done|done|done|]. by left.
    + apply (Hgen _ job'); [done|done|done|done|done|]. right. split; [|done].
      by exists txids', k'.
    + apply (Hgen _ (set_failed (Some msg) job')); [| |done|done|done|].
      * cbn [jobs set_searching]. rewrite upd_job_lookup. cbn [jobs set_tx_store].
        by rewrite Hlk.
      * intros x Hx. cbn [jobs set_searching]. rewrite upd_job_lookup_ne by done.
        cbn [jobs set_tx_store]. by apply Hlk'.
      * left. split; [done|apply jstat_failed].
Qed.

Lemma Sinv_step o s tr : Inv s tr -> Sinv s -> Sinv (step txid_of o s).1.
Proof.
  intros HI HS. destruct o; cbn [step fst].
  - by apply (Sinv_new_search _ s tr).
  - by apply (Sinv_restart_search _ s tr).
  - apply Sinv_upd_job; [|done]. intros. apply sched_cancel_status.
  - by apply (Sinv_metadata_loop _ _ s tr).
  - by apply (Sinv_search_loop_dequeue _ s tr).
  - by apply (Sinv_search_loop_call _ _ s tr).
Qed.

Lemma Sinv_run ops s tr : Inv s tr -> Sinv s -> Sinv (run txid_of ops s).1.
Proof.
  revert s tr. induction ops as [|o ops IH]; intros s tr HI HS; [done|].
  cbn [run]. pose proof (Inv_step txid_of o s tr HI) as HI1.
  pose proof (Sinv_step o s tr HI HS) as HS1.
  destruct (step txid_of o s) as [s1 ev1]. cbn [fst snd] in *.
  specialize (IH s1 _ HI1 HS1). by destruct (run txid_of ops s1) as [s2 ev2].
Qed.

Lemma Sinv_init : Sinv SlpGraphSearchManager_init.
Proof. intros j. unfold sinv. cbn. by rewrite lookup_nil. Qed.

(** X8: the status attributes agree in every run.  Whatever the callers and
    the two workers have done, a job is complete exactly when its
    [search_success] has been set ([True] or [False]); a complete job reads
    as started; a job that waits in a queue or that the search worker holds
    is not complete, and the one the search worker holds reads as started. *)
Theorem X8_status_consistent ops j job :
  let s := (run txid_of ops SlpGraphSearchManager_init).1 in
  jobs s !! j = Some job ->
  (job_complete job = true <-> is_Some (search_success job)) /\
  (job_complete job = true -> search_started job = true) /\
  (j ∈ pending s -> job_complete job = false /\ search_success job = None) /\
  (j ∈ frame_job s -> search_started job = true).
Proof.
  cbn zeta. intros Hj.
  pose proof (Sinv_run ops _ _ Inv_init Sinv_init j) as HS.
  unfold sinv in HS. rewrite Hj in HS. destruct HS as (Hst & Hp & Hf).
  pose proof Hst as (Hiff & Hstarted & _).
  split; [done|]. split; [done|]. split; [|done].
  intros Hin. split; [by apply Hp|]. apply jstat_not_complete; auto.
Qed.

(** X9: in every run, a job that ended in success has been started, is
    complete, has an integer [total_depth] and a [depth_completed] that is
    not below it: [set_success] is reached only past the test
    [job.depth_completed < job.total_depth].  When the metadata replies of
    the run are well formed the two depths are equal. *)
Theorem X9_success_reached_total_depth ops j job :
  jobs (run txid_of ops SlpGraphSearchManager_init).1 !! j = Some job ->
  search_success job = Some true ->
  job_complete job = true /\
  search_started job = true /\
  exists total,
    total_depth job = Some total /\ total <= depth_completed job /\
    (forallb op_ok ops = true -> depth_completed job = total).
Proof.
  intros Hj Hsu.
  pose proof (Sinv_run ops _ _ Inv_init Sinv_init j) as HS.
  unfold sinv in HS. rewrite Hj in HS. destruct HS as ((Hiff & Hstarted & Hdepth) & _).
  assert (Hc : job_complete job = true) by (apply Hiff; rewrite Hsu; by eexists).
  split; [done|]. split; [by apply Hstarted|].
  destruct (Hdepth Hsu) as (total & Htd & Hle). exists total.
  split; [done|]. split; [done|]. intros Hok.
  destruct (Dstep_run txid_of ops _ _ Inv_init Dinv_init Hok) as [HD _].
  specialize (HD j). unfold dinv in HD. rewrite Hj in HD.
  destruct HD as (_ & [_ Hd] & _). specialize (Hd total Htd). lia.
Qed.

(** X10: the queues hold every job at most once.  In every run no job is
    twice in a queue, in both queues, or in a queue while the search worker
    holds it, and every queued job is one that [new_search] created. *)
Theorem X10_queues_hold_a_job_once ops :
  let s := (run txid_of ops SlpGraphSearchManager_init).1 in
  NoDup (metadata_queue s ++ search_queue s ++ frame_job s) /\
  (forall j, j ∈ metadata_queue s ++ search_queue s ++ frame_job s -> is_Some (jobs s !! j)).
Proof.
  cbn zeta. pose proof (Inv_run txid_of ops _ _ Inv_init) as (Hnd & Hal & _).
  split; [done|]. intros j Hin. apply lookup_lt_is_Some_2. by apply Hal.
Qed.

(** ** Jobs that have left the queues *)

Lemma sched_cancel_again cb1 r1 cb2 r2 job :
  sched_cancel cb2 r2 (sched_cancel cb1 r1 job) = sched_cancel cb1 r2 job.
Proof.
  unfold sched_cancel. cbn.
  destruct (job_complete job) eqn:Hc; cbn; rewrite ?Hc; [done|].
  destruct (waiting_to_cancel job) eqn:Hw; cbn; rewrite ?Hc, ?Hw; cbn; by rewrite ?Hc.
Qed.

Lemma settled_change_trans job1 job2 job3 :
  settled_change job1 job2 -> settled_change job2 job3 -> settled_change job1 job3.
Proof.
  intros [->|(cb1 & r1 & ->)] [->|(cb2 & r2 & ->)].
  - by left.
  - right. by exists cb2, r2.
  - right. by exists cb1, r1.
  - right. exists cb1, r2. apply sched_cancel_again.
Qed.

Lemma kept_refl s j : kept s s j.
Proof. intros job Hj. exists job. do 3 (split; [done|]). intros Hn. split; [done|by left]. Qed.

Lemma kept_trans s1 s2 s3 j : kept s1 s2 j -> kept s2 s3 j -> kept s1 s3 j.
Proof.
  intros H12 H23 job1 Hj1.
  destruct (H12 job1 Hj1) as (job2 & Hj2 & Hr2 & Hv2 & Hs2).
  destruct (H23 job2 Hj2) as (job3 & Hj3 & Hr3 & Hv3 & Hs3).
  exists job3. split; [done|]. split; [congruence|]. split; [congruence|].
  intros Hn. destruct (Hs2 Hn) as [Hn2 Hc2]. destruct (Hs3 Hn2) as [Hn3 Hc3].
  split; [done|]. by apply (settled_change_trans _ job2).
Qed.

Lemma kept_same_jobs s s' j :
  jobs s' = jobs s -> (forall x, x ∈ pending s' -> x ∈ pending s) -> kept s s' j.
Proof.
  intros Hjobs Hp job Hj. exists job. rewrite Hjobs. do 3 (split; [done|]).
  intros Hn. split; [|by left]. intros Hin. by apply Hn, Hp.
Qed.

(** A worker writes the job [j0] it has taken from a queue. *)
Lemma kept_write s s' j0 j :
  j0 ∈ pending s ->
  (forall x, x ≠ j0 -> jobs s' !! x = jobs s !! x) ->
  (forall job0, jobs s !! j0 = Some job0 ->
     exists job0', jobs s' !! j0 = Some job0' /\
       root_txid job0' = root_txid job0 /\ valjob job0' = valjob job0) ->
  (forall x, x ≠ j0 -> x ∈ pending s' -> x ∈ pending s) ->
  kept s s' j.
Proof.
  intros Hin Hoth Hj0 Hp job Hj. destruct (decide (j = j0)) as [->|Hne].
  - destruct (Hj0 job Hj) as (job' & Hj' & Hr & Hv). exists job'.
    do 3 (split; [done|]). by intros Hn.
  - exists job. rewrite Hoth by done. do 3 (split; [done|]).
    intros Hn. split; [|by left]. intros Hin'. apply Hn. by apply Hp.
Qed.

Lemma kept_sched_cancel j0 cb reason s j : kept s (upd_job j0 (sched_cancel cb reason) s) j.
Proof.
  intros job Hj. destruct (decide (j = j0)) as [->|Hne].
  - exists (sched_cancel cb reason job). rewrite upd_job_lookup, Hj.
    destruct (sched_cancel_identity cb reason job) as (Hr & Hv & _).
    do 3 (split; [done|]). intros Hn. split; [done|]. right. by exists cb, reason.
  - exists job. rewrite upd_job_lookup_ne by done. do 3 (split; [done|]).
    intros Hn. split; [done|by left].
Qed.

Lemma kept_new_search v s j : kept s (new_search v s).1 j.
Proof.
  intros job Hj. pose proof (lookup_lt_Some _ _ _ Hj) as Hlt. exists job.
  split; [rewrite new_search_lookup_ne; [done|lia]|]. do 2 (split; [done|]).
  intros Hn. split; [|by left]. rewrite pending_new_search.
  intros [->|?]%elem_of_cons; [lia|done].
Qed.

Lemma kept_restart_callback j0 s j : kept s (restart_callback j0 s) j.
Proof.
  unfold restart_callback. destruct (jobs s !! j0) as [job0|]; [|apply kept_refl].
  apply (kept_trans _ (set_search_jobs (delete (root_txid job0) (search_jobs s)) s)).
  - by apply kept_same_jobs.
  - apply kept_new_search.
Qed.

Lemma kept_run_callback cb j0 s j : kept s (run_callback cb j0 s) j.
Proof. destruct cb; cbn; [apply kept_restart_callback|apply kept_refl]. Qed.

Lemma kept_restart_search j0 s j : kept s (restart_search j0 s) j.
Proof.
  unfold restart_search. destruct (jobs s !! j0) as [job0|]; [|apply kept_refl].
  destruct (negb (job_complete job0)); [apply kept_sched_cancel|apply kept_restart_callback].
Qed.

Lemma kept_metadata_loop own res s j : kept s (metadata_loop own res s).1 j.
Proof.
  unfold metadata_loop.
  destruct (metadata_queue s) as [|j0 q] eqn:Hq; [apply kept_refl|].
  assert (Hpend : pending s = j0 :: q ++ search_queue s ++ frame_job s).
  { unfold pending. by rewrite Hq. }
  assert (Hin : j0 ∈ pending s) by (rewrite Hpend; by left).
  assert (Hdrop : kept s (set_metadata_queue q s) j).
  { apply kept_same_jobs; [done|]. intros x Hx. rewrite Hpend. by right. }
  cbn [jobs set_metadata_queue].
  destruct (jobs s !! j0) as [job0|] eqn:Hj0; [|done].
  cbn [search_jobs set_metadata_queue].
  destruct (search_jobs s !! root_txid job0); [done|].
  set (s1 := set_search_jobs _ (set_metadata_queue q s)).
  assert (Hgen : forall s' f,
            jobs s' = alter f j0 (jobs s) ->
            root_txid (f job0) = root_txid job0 ->
            valjob (f job0) = valjob job0 ->
            (forall x, x ≠ j0 -> x ∈ pending s' -> x ∈ pending s) ->
            kept s s' j).
  { intros s' f Hjobs Hr Hv Hp. apply (kept_write s s' j0); try done.
    - intros x Hx. rewrite Hjobs. by apply list_lookup_alter_ne.
    - intros job0' Hj0'. assert (job0' = job0) as -> by congruence. exists (f job0).
      by rewrite Hjobs, list_lookup_alter_eq, Hj0. }
  assert (Hfail : forall msg, kept s (upd_job j0 (set_failed msg) s1) j).
  { intros msg. apply (Hgen _ (set_failed msg)); try done.
    intros x Hx Hxin. rewrite Hpend. by right. }
  destruct (owner_finished own); [apply Hfail|].
  destruct (host_unset own); [apply Hfail|].
  destruct res as [td cnt dm| |msg]; [| |apply Hfail].
  - assert (HfailM : forall msg,
              kept s (upd_job j0 (set_failed msg) (upd_job j0 (set_metadata td cnt dm) s1)) j).
    { intros msg. apply (Hgen _ (set_failed msg ∘ set_metadata td cnt dm)); try done.
      - cbn. by rewrite list_alter_alter_eq.
      - intros x Hx Hxin. rewrite Hpend. by right. }
    destruct cnt as [n|]; [|apply HfailM].
    destruct (n <=? cancel_thresh_txcount); [apply HfailM|].
    cbn [fst]. apply (Hgen _ (set_metadata td (Some n) dm)); try done.
    intros x Hx. rewrite Hpend. unfold pending, s1.
    destruct frame_job_unchanged as (F1 & F2 & F3 & _ & F5).
    rewrite ?F1, ?F2, ?F5, ?F3, ?F2. cbn.
    rewrite !elem_of_cons, !elem_of_app, ?elem_of_cons, ?elem_of_nil. tauto.
  - destruct (10 <? fetch_retries job0); [apply Hfail|].
    cbn [fst]. apply (Hgen _ (λ job, set_fetch_retries (fetch_retries job + 1) job)); try done.
    intros x Hx. rewrite Hpend. unfold pending, s1.
    destruct frame_job_unchanged as (F1 & F2 & F3 & _ & F5).
    rewrite ?F1, ?F2, ?F5, ?F3, ?F2. cbn.
    rewrite !elem_of_cons, !elem_of_app, ?elem_of_cons, ?elem_of_nil. tauto.
Qed.

Lemma kept_search_loop_dequeue own s j : kept s (search_loop_dequeue own s) j.
Proof.
  unfold search_loop_dequeue.
  destruct (searching s) as [fr|] eqn:Hs; [apply kept_refl|].
  destruct (search_queue s) as [|j0 q] eqn:Hq; [apply kept_refl|].
  assert (Hpend : forall x, x ∈ pending s <-> x = j0 \/ x ∈ metadata_queue s \/ x ∈ q).
  { intros x. unfold pending, frame_job.
    rewrite Hs, Hq, app_nil_r, elem_of_app, elem_of_cons. tauto. }
  assert (Hin : j0 ∈ pending s) by (apply Hpend; by left).
  assert (Hgen : forall s' f,
            jobs s' = alter f j0 (jobs s) ->
            (forall job0, root_txid (f job0) = root_txid job0 /\ valjob (f job0) = valjob job0) ->
            (forall x, x ≠ j0 -> x ∈ pending s' -> x ∈ pending s) ->
            kept s s' j).
  { intros s' f Hjobs Hf Hp. apply (kept_write s s' j0); try done.
    - intros x Hx. rewrite Hjobs. by apply list_lookup_alter_ne.
    - intros job0 Hj0. exists (f job0). destruct (Hf job0) as [Hr Hv].
      by rewrite Hjobs, list_lookup_alter_eq, Hj0. }
  destruct (owner_finished own).
  - apply (Hgen _ (set_failed (Some "validation finished") ∘ set_search_started true)).
    + cbn. by rewrite list_alter_alter_eq.
    + done.
    + intros x Hx. rewrite Hpend. unfold pending, frame_job. cbn.
      rewrite Hs, app_nil_r, elem_of_app. tauto.
  - apply (Hgen _ (set_search_started true)); [done|done|].
    intros x Hx. rewrite Hpend. unfold pending, frame_job. cbn.
    rewrite !elem_of_app, list_elem_of_singleton. tauto.
Qed.

Lemma kept_search_loop_call own resp s j : kept s (search_loop_call txid_of own resp s).1 j.
Proof.
  unfold search_loop_call.
  destruct (searching s) as [[[j0 txids] k]|] eqn:Hs; [|apply kept_refl].
  assert (Hfr : frame_job s = [j0]) by (unfold frame_job; by rewrite Hs).
  assert (Hin : j0 ∈ pending s).
  { apply frame_job_pending. rewrite Hfr. by left. }
  assert (Hpend : forall x, x ∈ pending s <->
                     x ∈ metadata_queue s \/ x ∈ search_queue s \/ x = j0).
  { intros x. unfold pending. rewrite Hfr, !elem_of_app, list_elem_of_singleton. tauto. }
  unfold search_query_call.
  destruct (jobs s !! j0) as [job0|] eqn:Hj0.
  2:{ cbn [fst]. apply kept_same_jobs.
      - cbn. by apply upd_job_lookup_None.
      - intros x. unfold pending, frame_job. cbn. rewrite app_nil_r, !elem_of_app. tauto. }
  assert (Hgen : forall s' job0',
            jobs s' !! j0 = Some job0' ->
            (forall x, x ≠ j0 -> jobs s' !! x = jobs s !! x) ->
            root_txid job0' = root_txid job0 ->
            valjob job0' = valjob job0 ->
            metadata_queue s' = metadata_queue s ->
            search_queue s' = search_queue s ->
            (forall x, x ∈ frame_job s' -> x = j0) ->
            kept s s' j).
  { intros s' job0' Hj0' Hoth Hr Hv Hmq Hsq Hf. apply (kept_write s s' j0); try done.
    - intros job Hjob. exists job0'. by simplify_eq.
    - intros x Hx. rewrite Hpend. unfold pending. rewrite Hmq, Hsq, !elem_of_app.
      intros [?|[?|Hxf]]; auto. }
  assert (Hnil : forall x : nat, x ∈ @nil nat -> x = j0) by (by intros x ?%elem_of_nil).
  destruct (waiting_to_cancel job0).
  - unfold _cancel. rewrite upd_job_lookup, Hj0. cbn [fmap option_fmap option_map].
    change (cancel_callback (cancel_flags job0)) with (cancel_callback job0).
    assert (HA : kept s (set_searching None (upd_job j0 cancel_flags s)) j).
    { apply (Hgen _ (cancel_flags job0)); try done.
      - cbn [jobs set_searching]. by rewrite upd_job_lookup, Hj0.
      - intros x Hx. cbn [jobs set_searching]. by rewrite upd_job_lookup_ne. }
    destruct (cancel_callback job0) as [cb|]; cbn [fst]; [|done].
    rewrite run_callback_set_searching.
    apply (kept_trans _ _ _ _ HA), kept_run_callback.
  - pose proof (search_query_chunk_frame txid_of own resp j0 txids k job0 (tx_store s)) as Hch.
    destruct (search_query_chunk txid_of own resp j0 txids k job0 (tx_store s))
      as [[[job' st'] ev] out].
    destruct Hch as (_ & Hr & Hv & _).
    assert (Hlk : jobs (upd_job j0 (λ _, job') s) !! j0 = Some job').
    { by rewrite upd_job_lookup, Hj0. }
    assert (Hlk' : forall x, x ≠ j0 -> jobs (upd_job j0 (λ _, job') s) !! x = jobs s !! x).
    { intros x Hx. by rewrite upd_job_lookup_ne. }
    destruct out as [|txids' k'|msg]; cbn [fst].
    + by apply (Hgen _ job').
    + apply (Hgen _ job'); try done. intros x. unfold frame_job. cbn.
      by intros ?%list_elem_of_singleton.
    + apply (Hgen _ (set_failed (Some msg) job')); try done.
      * cbn [jobs set_searching]. rewrite upd_job_lookup. cbn [jobs set_tx_store].
        by rewrite Hlk.
      * intros x Hx. cbn [jobs set_searching]. rewrite upd_job_lookup_ne by done.
        cbn [jobs set_tx_store]. by apply Hlk'.
Qed.

Lemma kept_step o s j : kept s (step txid_of o s).1 j.
Proof.
  destruct o; cbn [step fst].
  - apply kept_new_search.
  - apply kept_restart_search.
  - apply kept_sched_cancel.
  - apply kept_metadata_loop.
  - apply kept_search_loop_dequeue.
  - apply kept_search_loop_call.
Qed.

Lemma kept_run ops s j : kept s (run txid_of ops s).1 j.
Proof.
  revert s. induction ops as [|o ops IH]; intros s; [apply kept_refl|].
  cbn [run]. pose proof (kept_step o s j) as H1.
  destruct (step txid_of o s) as [s1 ev1]. cbn [fst] in H1.
  specialize (IH s1). destruct (run txid_of ops s1) as [s2 ev2]. cbn [fst] in *.
  by apply (kept_trans _ s1).
Qed.

Lemma set_exit_msg_same job : set_exit_msg (exit_msg job) job = job.
Proof. by destruct job. Qed.

(** X11: a job that is complete, or that has left the queues without being
    completed (a duplicate that [metadata_loop] dropped), is never taken up
    again.  From then on, whatever the callers and the workers do, the job is
    in no queue and not with the search worker, and its object is as it was
    or as a [sched_cancel] leaves it: no status, depth, metadata or retry
    attribute is written any more, and on a complete job nothing but
    [exit_msg]. *)
Theorem X11_settled_job ops1 ops2 j job :
  let s1 := (run txid_of ops1 SlpGraphSearchManager_init).1 in
  let s2 := (run txid_of (ops1 ++ ops2) SlpGraphSearchManager_init).1 in
  jobs s1 !! j = Some job ->
  job_complete job = true \/ j ∉ pending s1 ->
  (j ∉ pending s2) /\
  exists job',
    jobs s2 !! j = Some job' /\
    (job' = job \/ exists cb reason, job' = sched_cancel cb reason job) /\
    job_complete job' = job_complete job /\
    search_success job' = search_success job /\
    (job_complete job = true -> job' = set_exit_msg (exit_msg job') job).
Proof.
  cbn zeta. intros Hj Hor. rewrite run_app.
  pose proof (Sinv_run ops1 _ _ Inv_init Sinv_init j) as HS.
  destruct (run txid_of ops1 SlpGraphSearchManager_init) as [s1 ev1]. cbn [fst] in *.
  pose proof (kept_run ops2 s1 j job Hj) as (job' & Hj' & _ & _ & Hset).
  destruct (run txid_of ops2 s1) as [s2 ev2]. cbn [fst] in *.
  assert (Hn : j ∉ pending s1).
  { destruct Hor as [Hc|Hn]; [|done]. unfold sinv in HS. rewrite Hj in HS.
    destruct HS as (_ & Hp & _). intros Hin. apply Hp in Hin. congruence. }
  destruct (Hset Hn) as [Hn2 Hch]. split; [done|]. exists job'. split; [done|].
  split; [done|]. destruct Hch as [->|(cb & r & ->)].
  - do 2 (split; [done|]). intros _. by rewrite set_exit_msg_same.
  - destruct (sched_cancel_status cb r job) as (Hc & Hsu & _).
    do 2 (split; [done|]). intros Hcomp. by rewrite (sched_cancel_complete cb r job Hcomp).
Qed.

(** ** The registry *)

(** An entry of the registry after a step was there before, or is the job
    that [metadata_loop] has just registered under its root id. *)
Lemma restart_callback_registry j0 s r j :
  search_jobs (restart_callback j0 s) !! r = Some j -> search_jobs s !! r = Some j.
Proof.
  unfold restart_callback. destruct (jobs s !! j0) as [job0|]; [|done].
  cbn. by intros [_ ?]%lookup_delete_Some.
Qed.

Lemma run_callback_registry cb j0 s r j :
  search_jobs (run_callback cb j0 s) !! r = Some j -> search_jobs s !! r = Some j.
Proof. destruct cb; cbn; [apply restart_callback_registry|done]. Qed.

Lemma step_registry o s r j :
  search_jobs (step txid_of o s).1 !! r = Some j ->
  search_jobs s !! r = Some j \/ exists job, jobs s !! j = Some job /\ root_txid job = r.
Proof.
  destruct o as [v|j0|j0 cb reason|own res|own|own resp]; cbn [step fst].
  - by left.
  - unfold restart_search. destruct (jobs s !! j0) as [job0|]; [|by left].
    destruct (negb (job_complete job0)); [by left|].
    intros H. left. by apply restart_callback_registry in H.
  - by left.
  - unfold metadata_loop. destruct (metadata_queue s) as [|j0 q]; [by left|].
    cbn [jobs search_jobs set_metadata_queue].
    destruct (jobs s !! j0) as [job0|] eqn:Hj0; [|by left].
    destruct (search_jobs s !! root_txid job0); [by left|].
    assert (Hins : <[root_txid job0 := j0]> (search_jobs s) !! r = Some j ->
              search_jobs s !! r = Some j \/
              exists job, jobs s !! j = Some job /\ root_txid job = r).
    { intros [[<- <-]|[_ ?]]%lookup_insert_Some; [right; by exists job0|by left]. }
    destruct (owner_finished own); [done|]. destruct (host_unset own); [done|].
    destruct res as [td cnt dm| |msg]; [| |done].
    + destruct cnt as [n|]; [|done]. by destruct (n <=? cancel_thresh_txcount).
    + by destruct (10 <? fetch_retries job0).
  - unfold search_loop_dequeue. destruct (searching s); [by left|].
    destruct (search_queue s) as [|j0 q]; [by left|].
    destruct (owner_finished own); by left.
  - unfold search_loop_call. destruct (searching s) as [[[j0 txids] k]|]; [|by left].
    unfold search_query_call. destruct (jobs s !! j0) as [job0|] eqn:Hj0; [|by left].
    destruct (waiting_to_cancel job0).
    + unfold _cancel. rewrite upd_job_lookup, Hj0. cbn [fmap option_fmap option_map].
      destruct (cancel_callback (cancel_flags job0)) as [cb|]; cbn [fst]; [|by left].
      intros H. left. by apply run_callback_registry in H.
    + destruct (search_query_chunk txid_of own resp j0 txids k job0 (tx_store s))
        as [[[job' st'] ev] out].
      destruct out; by left.
Qed.

Lemma Rinv_step o s : Rinv s -> Rinv (step txid_of o s).1.
Proof.
  intros HR r j Hr.
  assert (Hold : exists job, jobs s !! j = Some job /\ root_txid job = r).
  { destruct (step_registry o s r j Hr) as [Hs|?]; [by apply HR|done]. }
  destruct Hold as (job & Hj & Hroot).
  destruct (kept_step o s j job Hj) as (job' & Hj' & Hr' & _).
  exists job'. split; [done|congruence].
Qed.

Lemma Rinv_run ops s : Rinv s -> Rinv (run txid_of ops s).1.
Proof.
  revert s. induction ops as [|o ops IH]; intros s HR; [done|].
  cbn [run]. pose proof (Rinv_step o s HR) as H1.
  destruct (step txid_of o s) as [s1 ev1]. cbn [fst] in H1.
  specialize (IH s1 H1). by destruct (run txid_of ops s1) as [s2 ev2].
Qed.

(** The root id of a job is the one of its owner, from [__init__] on. *)
Lemma root_of_owner_run ops j job :
  jobs (run txid_of ops SlpGraphSearchManager_init).1 !! j = Some job ->
  root_txid job = vj_root_txid (valjob job).
Proof.
  revert j job. induction ops as [|o ops IH] using rev_ind; intros j job.
  { cbn. by rewrite lookup_nil. }
  rewrite run_app. destruct (run txid_of ops SlpGraphSearchManager_init) as [s1 ev1].
  cbn [run fst] in *. destruct (step txid_of o s1) as [s2 ev2] eqn:Hstep. cbn [fst].
  intros Hj2.
  destruct (jobs s1 !! j) as [job1|] eqn:Hj1.
  - destruct (kept_step o s1 j job1 Hj1) as (job' & Hj' & Hr & Hv & _).
    rewrite Hstep in Hj'. cbn [fst] in Hj'. assert (job' = job) as -> by congruence.
    rewrite Hr, Hv. by apply (IH j).
  - (* a job object the step has created *)
    assert (Hnew : forall v s, jobs s !! j = None ->
              forall job, jobs (new_search v s).1 !! j = Some job ->
              root_txid job = vj_root_txid (valjob job)).
    { intros v s Hnone job0. cbn. apply lookup_ge_None_1 in Hnone.
      rewrite lookup_app_r by lia.
      destruct (j - length (jobs s))%nat as [|m]; [by intros [= <-]|].
      change ([GraphSearchJob_init (vj_root_txid v) v] !! S m) with (@nil GraphSearchJob !! m).
      by rewrite lookup_nil. }
    assert (Hcb : forall j0 s, jobs s !! j = None ->
              forall job, jobs (restart_callback j0 s) !! j = Some job ->
              root_txid job = vj_root_txid (valjob job)).
    { intros j0 s Hnone job0. unfold restart_callback.
      destruct (jobs s !! j0) as [job0'|]; [by apply Hnew|by rewrite Hnone]. }
    assert (Hupd : forall j0 f s, jobs s !! j = None -> jobs (upd_job j0 f s) !! j = None).
    { intros j0 f s Hnone. destruct (decide (j0 = j)) as [->|Hne].
      - by rewrite upd_job_lookup, Hnone.
      - by rewrite upd_job_lookup_ne. }
    assert (Hsame : jobs s1 !! j = Some job -> root_txid job = vj_root_txid (valjob job)).
    { by rewrite Hj1. }
    revert Hj2. replace s2 with (step txid_of o s1).1 by (by rewrite Hstep). clear Hstep.
    destruct o as [v|j0|j0 cb reason|own res|own|own resp]; cbn [step fst].
    + by apply Hnew.
    + unfold restart_search. destruct (jobs s1 !! j0) as [job0|]; [|apply Hsame].
      destruct (negb (job_complete job0)); [by rewrite Hupd|by apply Hcb].
    + by rewrite Hupd.
    + unfold metadata_loop. destruct (metadata_queue s1) as [|j0 q]; [apply Hsame|].
      cbn [jobs search_jobs set_metadata_queue].
      destruct (jobs s1 !! j0) as [job0|]; [|apply Hsame].
      destruct (search_jobs s1 !! root_txid job0); [apply Hsame|].
      destruct (owner_finished own); [cbn [fst]; by rewrite Hupd|].
      destruct (host_unset own); [cbn [fst]; by rewrite Hupd|].
      destruct res as [td cnt dm| |msg]; [| |cbn [fst]; by rewrite Hupd].
      * destruct cnt as [n|]; [|cbn [fst]; rewrite Hupd; [done|by apply Hupd]].
        destruct (n <=? cancel_thresh_txcount); [cbn [fst]; rewrite Hupd; [done|by apply Hupd]|].
        cbn [fst jobs set_search_queue]. by rewrite Hupd.
      * destruct (10 <? fetch_retries job0); [cbn [fst]; by rewrite Hupd|].
        cbn [fst jobs set_metadata_queue]. by rewrite Hupd.
    + unfold search_loop_dequeue. destruct (searching s1); [apply Hsame|].
      destruct (search_queue s1) as [|j0 q]; [apply Hsame|].
      destruct (owner_finished own); [cbn [fst]; rewrite Hupd; [done|by apply Hupd]|].
      cbn [jobs set_searching]. by rewrite Hupd.
    + unfold search_loop_call. destruct (searching s1) as [[[j0 txids] k]|]; [|apply Hsame].
      unfold search_query_call. destruct (jobs s1 !! j0) as [job0|] eqn:Hj0.
      2:{ cbn [fst jobs set_searching]. by rewrite Hupd. }
      destruct (waiting_to_cancel job0).
      * unfold _cancel. rewrite upd_job_lookup, Hj0. cbn [fmap option_fmap option_map].
        destruct (cancel_callback (cancel_flags job0)) as [[|tag]|]; cbn [fst run_callback].
        -- cbn [jobs set_searching]. apply Hcb. by apply Hupd.
        -- cbn [jobs set_searching]. by rewrite Hupd.
        -- cbn [jobs set_searching]. by rewrite Hupd.
      * destruct (search_query_chunk txid_of own resp j0 txids k job0 (tx_store s1))
          as [[[job' st'] ev] out].
        destruct out; cbn [fst jobs set_searching set_tx_store];
          rewrite ?Hupd; try done; cbn [jobs set_tx_store]; by rewrite ?Hupd.
Qed.

(** X12: the registry is keyed by the root ids of its jobs.  In every run an
    entry of [search_jobs] maps a root id to a job object that exists and
    whose [root_txid] is that id, which is also the root id of the job's
    owner: no step writes [root_txid] or [valjob] after [__init__]. *)
Theorem X12_registry_keyed_by_root ops r j :
  search_jobs (run txid_of ops SlpGraphSearchManager_init).1 !! r = Some j ->
  exists job,
    jobs (run txid_of ops SlpGraphSearchManager_init).1 !! j = Some job /\
    root_txid job = r /\
    vj_root_txid (valjob job) = r.
Proof.
  intros Hr.
  assert (H0 : Rinv SlpGraphSearchManager_init) by (by intros r0 j0 ?).
  destruct (Rinv_run ops _ H0 r j Hr) as (job & Hj & Hroot).
  exists job. split; [done|]. split; [done|].
  by rewrite <- (root_of_owner_run ops j job Hj).
Qed.

(** ** Runs without a restart *)

Lemma count_fetch_app j tr ev :
  count_fetch j (tr ++ ev) = (count_fetch j tr + count_fetch j ev)%nat.
Proof. apply count_app. Qed.

Lemma count_fetch_self j : count_fetch j [EvFetchMetadata j] = 1%nat.
Proof. cbn. by rewrite bool_decide_true. Qed.

Lemma search_query_chunk_callback own resp j txids k job st :
  let '(job', st', ev, out) := search_query_chunk txid_of own resp j txids k job st in
  cancel_callback job' = cancel_callback job.
Proof.
  unfold search_query_chunk.
  destruct (owner_finished own); [done|].
  destruct (depth_map job) as [dm|]; [|done].
  destruct (dm !! str ((k + 1) * 1000)) as [[bd cnt]|]; [|done].
  destruct (if 0 <? k then _ else _) as [qd|]; [|done].
  destruct (slpdb_host own) as [host|]; [|done].
  destruct resp as [g|msg]; [|done].
  destruct (tx_cache_put_all _ _ _) as [st' [e|]]; [done|].
  destruct (response_txns g) as [|tx txns];
    cbn [total_depth depth_completed set_txn_count_progress set_depth_completed
         set_last_search_url set_depth_current_query];
    (destruct (total_depth job); [|done]);
    match goal with
    | |- context [?a <? ?b] => destruct (a <? b)
    end; done.
Qed.

Lemma Finv_update s s' tr tr' j0 job0' :
  Finv s tr ->
  jobs s' !! j0 = Some job0' ->
  (forall x, x ≠ j0 -> jobs s' !! x = jobs s !! x) ->
  (forall x, x ≠ j0 -> count_fetch x tr' = count_fetch x tr) ->
  (forall r, is_Some (search_jobs s !! r) -> is_Some (search_jobs s' !! r)) ->
  (forall x, x ≠ j0 ->
     x ∈ search_queue s' ++ frame_job s' -> x ∈ search_queue s ++ frame_job s) ->
  cancel_callback job0' ≠ Some CbRestartSearch ->
  fetch_retries job0' <= Z.of_nat (count_fetch j0 tr') ->
  (count_fetch j0 tr' <= 1)%nat ->
  ((0 < count_fetch j0 tr')%nat -> is_Some (search_jobs s' !! root_txid job0')) ->
  (0 < fetch_retries job0' ->
     job_complete job0' = false /\ j0 ∉ search_queue s' ++ frame_job s') ->
  Finv s' tr'.
Proof.
  intros HF Hj0 Hoth Hev Hreg Hq Hcb Hret Hcnt Hr H5 x. unfold finv.
  destruct (decide (x = j0)) as [->|Hne]; [by rewrite Hj0|].
  rewrite Hoth, (Hev x Hne) by done. specialize (HF x). unfold finv in HF.
  destruct (jobs s !! x) as [job|]; [|done].
  destruct HF as (? & ? & ? & Hx & Hx5). do 3 (split; [done|]). split.
  - intros Hpos. by apply Hreg, Hx.
  - intros Hpos. destruct (Hx5 Hpos) as [? Hnin]. split; [done|].
    intros Hin. apply Hnin. by apply Hq.
Qed.

Lemma Finv_queues s s' tr :
  jobs s' = jobs s ->
  search_jobs s' = search_jobs s ->
  (forall x, x ∈ search_queue s' ++ frame_job s' -> x ∈ search_queue s ++ frame_job s) ->
  Finv s tr -> Finv s' tr.
Proof.
  intros Hjobs Hreg Hq HF x. specialize (HF x). unfold finv in *. rewrite Hjobs, Hreg.
  destruct (jobs s !! x) as [job|]; [|done].
  destruct HF as (? & ? & ? & ? & H5). do 4 (split; [done|]).
  intros Hpos. destruct (H5 Hpos) as [? Hnin]. split; [done|]. intros Hin. by apply Hnin, Hq.
Qed.

Lemma Finv_quiet s tr ev :
  (forall x, count_fetch x ev = 0%nat) -> Finv s tr -> Finv s (tr ++ ev).
Proof.
  intros Hev HF x. specialize (HF x). unfold finv in *.
  by rewrite count_fetch_app, Hev, Nat.add_0_r.
Qed.

Lemma Finv_upd_job j0 f s tr :
  (forall job, jobs s !! j0 = Some job ->
     (cancel_callback job ≠ Some CbRestartSearch ->
      cancel_callback (f job) ≠ Some CbRestartSearch) /\
     fetch_retries (f job) = fetch_retries job /\
     root_txid (f job) = root_txid job /\
     job_complete (f job) = job_complete job) ->
  Finv s tr -> Finv (upd_job j0 f s) tr.
Proof.
  intros Hf HF. destruct (jobs s !! j0) as [job0|] eqn:Hj0.
  - destruct (Hf job0 eq_refl) as (Hcb & Hret & Hroot & Hc).
    pose proof (HF j0) as H0. unfold finv in H0. rewrite Hj0 in H0.
    destruct H0 as (H1 & H2 & H3 & H4 & H5).
    apply (Finv_update s _ tr tr j0 (f job0)); try done.
    + by rewrite upd_job_lookup, Hj0.
    + intros x Hx. by rewrite upd_job_lookup_ne.
    + by apply Hcb.
    + by rewrite Hret.
    + by rewrite Hroot.
    + rewrite Hret, Hc. done.
  - apply (Finv_queues s); try done. by apply upd_job_lookup_None.
Qed.

Lemma Finv_new_search v s tr : Finv s tr -> Finv (new_search v s).1 tr.
Proof.
  intros HF x. unfold finv. destruct (decide (x = length (jobs s))) as [->|Hne].
  - rewrite new_search_lookup. specialize (HF (length (jobs s))). unfold finv in HF.
    rewrite lookup_ge_None_2 in HF by lia. rewrite HF. cbn.
    split; [done|]. split; [lia|]. split; [lia|]. split; lia.
  - rewrite new_search_lookup_ne by done. apply (HF x).
Qed.

Lemma sched_cancel_callback cb reason job :
  cb ≠ Some CbRestartSearch ->
  cancel_callback job ≠ Some CbRestartSearch ->
  cancel_callback (sched_cancel cb reason job) ≠ Some CbRestartSearch.
Proof. intros Hcb Hjob. unfold sched_cancel. cbn. by repeat case_match. Qed.

Lemma Finv_metadata_loop own res s tr :
  Inv s tr -> Sinv s -> Finv s tr ->
  Finv (metadata_loop own res s).1 (tr ++ (metadata_loop own res s).2).
Proof.
  intros HI HS HF. unfold metadata_loop.
  destruct (metadata_queue s) as [|j0 q] eqn:Hq.
  { cbn [fst snd]. by rewrite app_nil_r. }
  pose proof HI as (Hnd & _).
  assert (Hpend : pending s = j0 :: q ++ search_queue s ++ frame_job s).
  { unfold pending. by rewrite Hq. }
  rewrite Hpend in Hnd. apply NoDup_cons in Hnd as [Hnp _].
  assert (Hin : j0 ∈ pending s) by (rewrite Hpend; by left).
  assert (Hnsq : j0 ∉ search_queue s ++ frame_job s).
  { intros H. apply Hnp. rewrite elem_of_app. by right. }
  cbn [jobs set_metadata_queue].
  destruct (jobs s !! j0) as [job0|] eqn:Hj0.
  2:{ cbn [fst snd]. rewrite app_nil_r. by apply (Finv_queues s). }
  cbn [search_jobs set_metadata_queue].
  destruct (search_jobs s !! root_txid job0) eqn:Hreg0.
  { cbn [fst snd]. rewrite app_nil_r. by apply (Finv_queues s). }
  set (s1 := set_search_jobs _ (set_metadata_queue q s)).
  pose proof (HF j0) as H0. unfold finv in H0. rewrite Hj0 in H0.
  destruct H0 as (Hcb0 & Hret0 & _ & Hr0 & _).
  assert (Hc0 : count_fetch j0 tr = 0%nat).
  { destruct (count_fetch j0 tr) eqn:Hc; [done|].
    destruct Hr0 as [? Hr0]; [lia|congruence]. }
  rewrite Hc0 in Hret0.
  pose proof (HS j0) as Hs0. unfold sinv in Hs0. rewrite Hj0 in Hs0.
  destruct Hs0 as (_ & Hpc & _). specialize (Hpc Hin).
  assert (Hgen : forall s' ev f,
            jobs s' = alter f j0 (jobs s) ->
            search_jobs s' = <[root_txid job0:=j0]> (search_jobs s) ->
            (forall x, x ≠ j0 ->
               x ∈ search_queue s' ++ frame_job s' -> x ∈ search_queue s ++ frame_job s) ->
            (forall x, x ≠ j0 -> count_fetch x ev = 0%nat) ->
            (count_fetch j0 ev <= 1)%nat ->
            cancel_callback (f job0) = cancel_callback job0 ->
            root_txid (f job0) = root_txid job0 ->
            fetch_retries (f job0) <= Z.of_nat (count_fetch j0 ev) ->
            (0 < fetch_retries (f job0) ->
               job_complete (f job0) = false /\ j0 ∉ search_queue s' ++ frame_job s') ->
            Finv s' (tr ++ ev)).
  { intros s' ev f Hjobs Hsj Hqs Hev Hcnt Hcb Hroot Hret H5.
    apply (Finv_update s s' tr (tr ++ ev) j0 (f job0)); try done.
    - by rewrite Hjobs, list_lookup_alter_eq, Hj0.
    - intros x Hx. rewrite Hjobs. by apply list_lookup_alter_ne.
    - intros x Hx. by rewrite count_fetch_app, Hev, Nat.add_0_r.
    - intros r Hr. rewrite Hsj, lookup_insert_is_Some.
      destruct (decide (root_txid job0 = r)); auto.
    - by rewrite Hcb.
    - by rewrite count_fetch_app, Hc0.
    - by rewrite count_fetch_app, Hc0.
    - intros _. rewrite Hsj, Hroot, lookup_insert_eq. by eexists. }
  assert (Hsub : forall x, x ≠ j0 ->
            x ∈ search_queue s ++ frame_job s -> x ∈ search_queue s ++ frame_job s) by done.
  assert (Hquiet : forall x, x ≠ j0 -> count_fetch x [] = 0%nat) by done.
  assert (Hone : forall x, x ≠ j0 -> count_fetch x [EvFetchMetadata j0] = 0%nat).
  { intros x Hx. by apply count_fetch_other. }
  pose proof (count_fetch_self j0) as Hself.
  assert (Hfail0 : forall msg, Finv (upd_job j0 (set_failed msg) s1) (tr ++ [])).
  { intros msg. apply (Hgen _ [] (set_failed msg)); try done; cbn; lia. }
  assert (Hfail1 : forall msg, Finv (upd_job j0 (set_failed msg) s1) (tr ++ [EvFetchMetadata j0])).
  { intros msg. apply (Hgen _ _ (set_failed msg)); try done; rewrite ?Hself; cbn; lia. }
  destruct (owner_finished own); [apply Hfail0|].
  destruct (host_unset own); [apply Hfail0|].
  destruct res as [td cnt dm| |msg]; [| |apply Hfail1].
  - assert (HfailM : forall msg,
              Finv (upd_job j0 (set_failed msg) (upd_job j0 (set_metadata td cnt dm) s1))
                   (tr ++ [EvFetchMetadata j0])).
    { intros msg. apply (Hgen _ _ (set_failed msg ∘ set_metadata td cnt dm)); try done;
        first [cbn; by rewrite list_alter_alter_eq | rewrite ?Hself; cbn; lia]. }
    destruct cnt as [n|]; [|apply HfailM].
    destruct (n <=? cancel_thresh_txcount); [apply HfailM|].
    cbn [fst snd]. apply (Hgen _ _ (set_metadata td (Some n) dm)); try done;
      try (rewrite ?Hself; cbn; lia).
    intros x Hx. unfold s1. cbn [search_queue set_search_queue].
    destruct frame_job_unchanged as (F1 & F2 & F3 & _ & F5).
    rewrite ?F1, ?F2, ?F5, ?F3, ?F2.
    rewrite !elem_of_app, ?elem_of_cons, ?elem_of_nil. tauto.
  - destruct (10 <? fetch_retries job0); [apply Hfail1|].
    cbn [fst snd].
    assert (Hev : forall x,
              count_fetch x (EvFetchMetadata j0 :: match metadata_queue s1 with
                                                   | [] => [EvSleep]
                                                   | _ :: _ => []
                                                   end) =
              count_fetch x [EvFetchMetadata j0]).
    { intros x. by destruct (metadata_queue s1). }
    apply (Hgen _ _ (λ job, set_fetch_retries (fetch_retries job + 1) job)); try done;
      try (rewrite ?Hev, ?Hself; cbn; lia).
    intros x Hx. rewrite Hev. by apply Hone.
Qed.

Lemma alter_None {A} (f : A -> A) (l : list A) (i : nat) :
  l !! i = None -> alter f i l = l.
Proof.
  intros H. apply list_eq. intros k. destruct (decide (i = k)) as [<-|Hne].
  - by rewrite list_lookup_alter_eq, H.
  - by rewrite list_lookup_alter_ne.
Qed.

Lemma Finv_search_loop_dequeue own s tr :
  Finv s tr -> Finv (search_loop_dequeue own s) tr.
Proof.
  intros HF. unfold search_loop_dequeue.
  destruct (searching s) as [fr|] eqn:Hs; [done|].
  destruct (search_queue s) as [|j0 q] eqn:Hq; [done|].
  assert (Hsub : forall x, x ∈ q ++ [] -> x ∈ (j0 :: q) ++ []).
  { intros x. rewrite !app_nil_r. by right. }
  destruct (jobs s !! j0) as [job0|] eqn:Hj0.
  2:{ destruct (owner_finished own).
      - apply (Finv_queues s); try done.
        + cbn. rewrite (alter_None (set_search_started true)) by done.
          by rewrite alter_None.
        + unfold frame_job. cbn. by rewrite Hs, Hq.
      - apply (Finv_queues s); try done.
        + cbn. by rewrite alter_None.
        + unfold frame_job. cbn. rewrite Hs, Hq. intros x.
          rewrite !elem_of_app, !elem_of_cons, !elem_of_nil. tauto. }
  pose proof (HF j0) as H0. unfold finv in H0. rewrite Hj0 in H0.
  destruct H0 as (Hcb0 & Hret0 & Hcnt0 & Hr0 & H50).
  assert (Hnr : fetch_retries job0 <= 0).
  { destruct (Z.le_gt_cases (fetch_retries job0) 0) as [?|Hpos]; [done|].
    destruct H50 as [_ Hnin]; [lia|]. exfalso. apply Hnin. rewrite Hq. by left. }
  assert (Hgen : forall s' f,
            jobs s' = alter f j0 (jobs s) ->
            search_jobs s' = search_jobs s ->
            (forall x, x ≠ j0 ->
               x ∈ search_queue s' ++ frame_job s' -> x ∈ search_queue s ++ frame_job s) ->
            cancel_callback (f job0) = cancel_callback job0 ->
            root_txid (f job0) = root_txid job0 ->
            fetch_retries (f job0) = fetch_retries job0 ->
            Finv s' tr).
  { intros s' f Hjobs Hsj Hqs Hcb Hroot Hret.
    apply (Finv_update s s' tr tr j0 (f job0)); try done.
    - by rewrite Hjobs, list_lookup_alter_eq, Hj0.
    - intros x Hx. rewrite Hjobs. by apply list_lookup_alter_ne.
    - by rewrite Hsj.
    - by rewrite Hcb.
    - by rewrite Hret.
    - by rewrite Hsj, Hroot.
    - rewrite Hret. lia. }
  destruct (owner_finished own).
  - apply (Hgen _ (set_failed (Some "validation finished") ∘ set_search_started true));
      try done.
    + cbn. by rewrite list_alter_alter_eq.
    + intros x Hx. unfold frame_job. cbn. rewrite Hs, Hq. by right.
  - apply (Hgen _ (set_search_started true)); try done.
    intros x Hx. unfold frame_job. cbn. rewrite Hs, Hq.
    rewrite !elem_of_app, !elem_of_cons, !elem_of_nil. tauto.
Qed.

Lemma Finv_search_loop_call own resp s tr :
  Finv s tr ->
  Finv (search_loop_call txid_of own resp s).1 (tr ++ (search_loop_call txid_of own resp s).2).
Proof.
  intros HF. unfold search_loop_call.
  destruct (searching s) as [[[j0 txids] k]|] eqn:Hs.
  2:{ cbn [fst snd]. by rewrite app_nil_r. }
  assert (Hfr : frame_job s = [j0]) by (unfold frame_job; by rewrite Hs).
  unfold search_query_call.
  destruct (jobs s !! j0) as [job0|] eqn:Hj0.
  2:{ cbn [fst snd]. rewrite app_nil_r. apply (Finv_queues s); try done.
      - cbn [jobs set_searching]. by apply upd_job_lookup_None.
      - intros x. unfold frame_job. cbn. rewrite !elem_of_app. intros [?|?%elem_of_nil]; auto.
        done. }
  pose proof (HF j0) as H0. unfold finv in H0. rewrite Hj0 in H0.
  destruct H0 as (Hcb0 & Hret0 & Hcnt0 & Hr0 & H50).
  assert (Hnr : fetch_retries job0 <= 0).
  { destruct (Z.le_gt_cases (fetch_retries job0) 0) as [?|Hpos]; [done|].
    destruct H50 as [_ Hnin]; [lia|]. exfalso. apply Hnin. rewrite Hfr, elem_of_app.
    right. by left. }
  assert (Hgen : forall s' ev job0',
            jobs s' !! j0 = Some job0' ->
            (forall x, x ≠ j0 -> jobs s' !! x = jobs s !! x) ->
            search_jobs s' = search_jobs s ->
            search_queue s' = search_queue s ->
            (forall x, x ∈ frame_job s' -> x = j0) ->
            (forall x, count_fetch x ev = 0%nat) ->
            cancel_callback job0' = cancel_callback job0 ->
            root_txid job0' = root_txid job0 ->
            fetch_retries job0' = fetch_retries job0 ->
            Finv s' (tr ++ ev)).
  { intros s' ev job0' Hj0' Hoth Hsj Hsq Hf Hev Hcb Hroot Hret.
    apply (Finv_update s s' tr (tr ++ ev) j0 job0'); try done.
    - intros x Hx. by rewrite count_fetch_app, Hev, Nat.add_0_r.
    - by rewrite Hsj.
    - intros x Hx. rewrite Hsq, !elem_of_app. intros [?|Hxf]; [by left|].
      by apply Hf in Hxf.
    - by rewrite Hcb.
    - by rewrite count_fetch_app, Hev, Nat.add_0_r, Hret.
    - by rewrite count_fetch_app, Hev, Nat.add_0_r.
    - by rewrite count_fetch_app, Hev, Nat.add_0_r, Hsj, Hroot.
    - rewrite Hret. lia. }
  assert (Hnil : forall x : nat, x ∈ @nil nat -> x = j0) by (by intros x ?%elem_of_nil).
  destruct (waiting_to_cancel job0).
  - unfold _cancel. rewrite upd_job_lookup, Hj0. cbn [fmap option_fmap option_map].
    change (cancel_callback (cancel_flags job0)) with (cancel_callback job0).
    destruct (cancel_callback job0) as [[|tag]|] eqn:Hcb; [done| |];
      cbn [fst snd run_callback].
    + apply (Hgen _ _ (cancel_flags job0)); try done.
      * cbn [jobs set_searching]. by rewrite upd_job_lookup, Hj0.
      * intros x Hx. cbn [jobs set_searching]. by rewrite upd_job_lookup_ne.
    + apply (Hgen _ _ (cancel_flags job0)); try done.
      * cbn [jobs set_searching]. by rewrite upd_job_lookup, Hj0.
      * intros x Hx. cbn [jobs set_searching]. by rewrite upd_job_lookup_ne.
  - pose proof (search_query_chunk_frame txid_of own resp j0 txids k job0 (tx_store s)) as Hch.
    pose proof (search_query_chunk_callback own resp j0 txids k job0 (tx_store s)) as Hcc.
    destruct (search_query_chunk txid_of own resp j0 txids k job0 (tx_store s))
      as [[[job' st'] ev] out].
    destruct Hch as (Hret & Hroot & _ & _ & _ & Hev).
    assert (Hev' : forall x, count_fetch x ev = 0%nat) by (intros x; apply Hev).
    assert (Hlk : jobs (upd_job j0 (λ _, job') s) !! j0 = Some job').
    { by rewrite upd_job_lookup, Hj0. }
    assert (Hlk' : forall x, x ≠ j0 -> jobs (upd_job j0 (λ _, job') s) !! x = jobs s !! x).
    { intros x Hx. by rewrite upd_job_lookup_ne. }
    destruct out as [|txids' k'|msg]; cbn [fst snd].
    + by apply (Hgen _ _ job').
    + apply (Hgen _ _ job'); try done. intros x. unfold frame_job. cbn.
      by intros ?%list_elem_of_singleton.
    + apply (Hgen _ _ (set_failed (Some msg) job')); try done.
      * cbn [jobs set_searching]. rewrite upd_job_lookup. cbn [jobs set_tx_store].
        by rewrite Hlk.
      * intros x Hx. cbn [jobs set_searching]. rewrite upd_job_lookup_ne by done.
        cbn [jobs set_tx_store]. by apply Hlk'.
Qed.

Lemma Finv_step o s tr :
  Inv s tr -> Sinv s -> no_restart o = true -> Finv s tr ->
  Finv (step txid_of o s).1 (tr ++ (step txid_of o s).2).
Proof.
  intros HI HS Hno HF.
  destruct o as [v|j0|j0 cb reason|own res|own|own resp]; cbn [step fst snd];
    rewrite ?app_nil_r.
  - by apply Finv_new_search.
  - done.
  - apply Finv_upd_job; [|done]. intros job Hj.
    destruct (sched_cancel_identity cb reason job) as (Hr & _ & Hret & _).
    destruct (sched_cancel_status cb reason job) as (Hc & _).
    split; [|done]. apply sched_cancel_callback. intros ->. by destruct reason.
  - by apply Finv_metadata_loop.
  - by apply Finv_search_loop_dequeue.
  - by apply Finv_search_loop_call.
Qed.

Lemma Finv_run ops s tr :
  Inv s tr -> Sinv s -> forallb no_restart ops = true -> Finv s tr ->
  Finv (run txid_of ops s).1 (tr ++ (run txid_of ops s).2).
Proof.
  revert s tr. induction ops as [|o ops IH]; intros s tr HI HS Hno HF.
  { cbn. by rewrite app_nil_r. }
  cbn in Hno. apply andb_prop in Hno as [Ho Hops]. cbn [run].
  pose proof (Inv_step txid_of o s tr HI) as HI1.
  pose proof (Sinv_step o s tr HI HS) as HS1.
  pose proof (Finv_step o s tr HI HS Ho HF) as HF1.
  destruct (step txid_of o s) as [s1 ev1]. cbn [fst snd] in *.
  specialize (IH s1 _ HI1 HS1 Hops HF1).
  destruct (run txid_of ops s1) as [s2 ev2]. cbn [fst snd] in *.
  by rewrite app_assoc.
Qed.

(** X13: without [restart_search] the retry of the metadata stage never
    comes about.  In a run in which [restart_search] is not called, every
    job is fetched at most once and has at most one retry: a job that the
    metadata stage has put back on its queue after "no data yet" finds its
    own root id registered when it is taken off again and is dropped, so it
    never reaches the search queue, is never completed and its
    [search_success] stays [None]. *)
Theorem X13_no_retry_without_restart ops j job :
  let s := (run txid_of ops SlpGraphSearchManager_init).1 in
  let tr := (run txid_of ops SlpGraphSearchManager_init).2 in
  forallb no_restart ops = true ->
  jobs s !! j = Some job ->
  (count_fetch j tr <= 1)%nat /\
  fetch_retries job <= 1 /\
  (0 < fetch_retries job ->
     count_fetch j tr = 1%nat /\
     job_complete job = false /\ search_success job = None /\
     j ∉ search_queue s ++ frame_job s).
Proof.
  cbn zeta. intros Hno Hj.
  assert (HF0 : Finv SlpGraphSearchManager_init []).
  { intros x. unfold finv. cbn. by rewrite lookup_nil. }
  pose proof (Finv_run ops _ _ Inv_init Sinv_init Hno HF0 j) as HF.
  pose proof (Sinv_run ops _ _ Inv_init Sinv_init j) as HS.
  cbn [app] in HF. unfold finv in HF. unfold sinv in HS. rewrite Hj in HF, HS.
  destruct HF as (_ & Hret & Hcnt & _ & H5). destruct HS as (Hst & _).
  split; [done|]. split; [lia|]. intros Hpos. destruct (H5 Hpos) as [Hc Hnin].
  split; [lia|]. split; [done|]. split; [|done]. by apply jstat_not_complete.
Qed.

(** ** Termination of the recursion of [search_query] *)

Lemma boundaries_from_next dm k :
  is_Some (dm !! str ((k + 1) * 1000)) ->
  (size (boundaries_from dm (k + 1)) < size (boundaries_from dm k))%nat.
Proof.
  intros Hkey. apply subset_size. unfold boundaries_from. split.
  - intros key. rewrite !elem_of_filter. intros [Hb Hdom]. split; [|done].
    unfold boundary_from in *. destruct (unstr key) as [z|]; [|done]. lia.
  - intros Hsub. assert (Hin : str ((k + 1) * 1000) ∈
                          filter (λ key, boundary_from k key = true) (dom dm)).
    { apply elem_of_filter. split; [|by apply elem_of_dom].
      unfold boundary_from. rewrite unstr_str. lia. }
    apply Hsub in Hin. apply elem_of_filter in Hin as [Hb _].
    unfold boundary_from in Hb. rewrite unstr_str in Hb. lia.
Qed.

Lemma search_query_chunk_recurse own resp j txids k job st :
  let '(job', st', ev, out) := search_query_chunk txid_of own resp j txids k job st in
  forall txids' k', out = Recurse txids' k' ->
    k' = k + 1 /\
    exists dm, depth_map job = Some dm /\ is_Some (dm !! str ((k + 1) * 1000)) /\
               depth_map job' = Some dm.
Proof.
  unfold search_query_chunk.
  destruct (owner_finished own); [done|].
  destruct (depth_map job) as [dm|] eqn:Hdm; [|done].
  destruct (dm !! str ((k + 1) * 1000)) as [[bd cnt]|] eqn:Hkey; [|done].
  destruct (if 0 <? k then _ else _) as [qd|]; [|done].
  destruct (slpdb_host own) as [host|]; [|done].
  destruct resp as [g|msg]; [|done].
  destruct (tx_cache_put_all _ _ _) as [st' [e|]]; [done|].
  destruct (response_txns g) as [|tx txns];
    cbn [total_depth depth_completed set_txn_count_progress set_depth_completed
         set_last_search_url set_depth_current_query];
    (destruct (total_depth job); [|done]);
    match goal with
    | |- context [?a <? ?b] => destruct (a <? b)
    end; try done;
    intros txids' k' [= _ <-]; (split; [done|]); exists dm; by rewrite Hkey.
Qed.

Lemma search_query_call_recurse own resp j txids k s s' ev txids' k' :
  search_query_call txid_of own resp j txids k s = (s', ev, Recurse txids' k') ->
  k' = k + 1 /\ (rounds_left s' j (k + 1) < rounds_left s j k)%nat.
Proof.
  unfold search_query_call, rounds_left.
  destruct (jobs s !! j) as [job|] eqn:Hj; [|done].
  destruct (waiting_to_cancel job).
  { by destruct (_cancel j s). }
  pose proof (search_query_chunk_recurse own resp j txids k job (tx_store s)) as Hch.
  destruct (search_query_chunk txid_of own resp j txids k job (tx_store s))
    as [[[job' st'] ev0] out].
  intros [= <- <- ->]. destruct (Hch txids' k' eq_refl) as (-> & dm & Hdm & Hkey & Hdm').
  split; [done|]. cbn [jobs set_tx_store]. rewrite upd_job_lookup, Hj. cbn.
  rewrite Hdm, Hdm'. by apply boundaries_from_next.
Qed.

(** X14: the recursion of [search_query] ends.  A call recurses only with
    the next chunk index and only after it has found the boundary key of its
    chunk in the job's depth map, so a call at chunk [k] is followed by at
    most as many further calls as the depth map has boundary keys from
    [(k+1)*1000] on: given what that many calls and one more observe of the
    outside, the recursion ends by returning or by raising, whatever the
    replies are. *)
Theorem X14_search_query_terminates env j txids k s :
  (rounds_left s j k < length env)%nat ->
  exists out,
    (search_query txid_of env j txids k s).2 = Some out /\
    (out = Return \/ exists msg, out = Raise msg).
Proof.
  revert txids k s. induction env as [|[own resp] env IH]; intros txids k s Hlen.
  { cbn in Hlen. lia. }
  rewrite search_query_unfold.
  destruct (search_query_call txid_of own resp j txids k s) as [[s1 ev] out] eqn:Hcall.
  destruct out as [|txids' k'|msg].
  - exists Return. by split; [|left].
  - destruct (search_query_call_recurse _ _ _ _ _ _ _ _ _ _ Hcall) as [-> Hlt].
    destruct (IH txids' (k + 1) s1) as (out & Hout & Hkind).
    { cbn in Hlen. lia. }
    destruct (search_query txid_of env j txids' (k + 1) s1) as [[s2 ev'] out'].
    cbn [snd] in *. by exists out.
  - exists (Raise msg). split; [done|]. right. by exists msg.
Qed.

(** ** The invariant of the transaction cache *)

Lemma elem_of_remove_key k e es : e ∈ remove_key k es -> e ∈ es.
Proof.
  induction es as [|[k' v] es IH]; cbn; [done|].
  destruct (decide (k' = k)).
  - intros H. right. by apply IH.
  - intros [->|H]%elem_of_cons; [by left|]. right. by apply IH.
Qed.

Lemma elem_of_tail {A} (x : A) (l : list A) : x ∈ tail l -> x ∈ l.
Proof. destruct l; cbn; [done|]. by right. Qed.

Lemma elem_of_cache_put k v c e :
  e ∈ entries (cache_put k v c) -> e = (k, v) \/ e ∈ entries c.
Proof.
  unfold cache_put. cbn. rewrite elem_of_app, list_elem_of_singleton.
  intros [H|H]; [right|by left].
  destruct (maxlen c <=? _); [apply elem_of_tail in H|]; by apply elem_of_remove_key in H.
Qed.

Lemma cache_ok_put tx txid st :
  cache_ok st -> cache_ok (tx_cache_put txid_of tx txid st).1.
Proof.
  intros Hok. unfold tx_cache_put. destruct tx as [tx|]; [|done].
  destruct (decide (raw tx = "")) as [|Hraw]; [done|]. cbn [fst].
  intros k l Hin. cbn [fetched_tx_cache tx_objects] in *.
  apply elem_of_cache_put in Hin as [[= -> ->]|Hin].
  - exists (Transaction_new (raw tx)). rewrite lookup_app_r, Nat.sub_diag by lia. done.
  - destruct (Hok k l Hin) as (tx' & Hl & Hd & Hr). exists tx'.
    split; [by apply lookup_app_l_Some|done].
Qed.

Lemma cache_ok_put_all txs st :
  cache_ok st -> cache_ok (tx_cache_put_all txid_of txs st).1.
Proof.
  revert st. induction txs as [|tx txs IH]; intros st Hok; [done|].
  cbn [tx_cache_put_all]. pose proof (cache_ok_put (Some tx) None st Hok) as H1.
  destruct (tx_cache_put txid_of (Some tx) None st) as [st1 [e|]]; [done|].
  by apply IH.
Qed.

Lemma cache_ok_step c st : cache_ok st -> cache_ok (cache_step txid_of c st).
Proof.
  intros Hok. destruct c as [tx txid|txid f]; cbn [cache_step].
  - by apply cache_ok_put.
  - unfold tx_cache_get. destruct (cache_get txid (fetched_tx_cache st)) as [l0|]; [|done].
    destruct (tx_objects st !! l0) as [tx0|]; [|done].
    destruct (decide (raw tx0 = "")); [done|].
    intros k l Hin. cbn [tx_mutate fetched_tx_cache tx_objects] in *.
    destruct (Hok k l Hin) as (tx' & Hl & Hd & Hr). exists tx'.
    split; [|done]. pose proof (lookup_lt_Some _ _ _ Hl) as Hlt.
    rewrite list_lookup_alter_ne by lia. by apply lookup_app_l_Some.
Qed.

Lemma search_query_chunk_store own resp j txids k job st :
  exists txs,
    (search_query_chunk txid_of own resp j txids k job st).1.1.2 =
    (tx_cache_put_all txid_of txs st).1.
Proof.
  unfold search_query_chunk.
  destruct (owner_finished own); [by exists []|].
  destruct (depth_map job) as [dm|]; [|by exists []].
  destruct (dm !! str ((k + 1) * 1000)) as [[bd cnt]|]; [|by exists []].
  destruct (if 0 <? k then _ else _) as [qd|]; [|by exists []].
  destruct (slpdb_host own) as [host|]; [|by exists []].
  destruct resp as [g|msg]; [|by exists []].
  exists (map snd (response_txns g)).
  destruct (tx_cache_put_all _ _ _) as [st' [e|]]; [done|].
  destruct (response_txns g) as [|tx txns];
    cbn [total_depth depth_completed set_txn_count_progress set_depth_completed
         set_last_search_url set_depth_current_query];
    (destruct (total_depth job); [|done]);
    match goal with
    | |- context [?a <? ?b] => destruct (a <? b)
    end; done.
Qed.

Lemma restart_callback_store j0 s : tx_store (restart_callback j0 s) = tx_store s.
Proof. unfold restart_callback. by destruct (jobs s !! j0). Qed.

Lemma run_callback_store cb j0 s : tx_store (run_callback cb j0 s) = tx_store s.
Proof. destruct cb; cbn; [apply restart_callback_store|done]. Qed.

(** The only step that writes the cache is a call of [search_query], which
    puts the transactions of its reply. *)
Lemma step_tx_store o s :
  exists txs, tx_store (step txid_of o s).1 = (tx_cache_put_all txid_of txs (tx_store s)).1.
Proof.
  destruct o as [v|j0|j0 cb reason|own res|own|own resp]; cbn [step fst].
  - by exists [].
  - exists []. unfold restart_search. destruct (jobs s !! j0) as [job0|]; [|done].
    destruct (negb (job_complete job0)); [done|apply restart_callback_store].
  - by exists [].
  - exists []. unfold metadata_loop. destruct (metadata_queue s) as [|j0 q]; [done|].
    cbn [jobs search_jobs set_metadata_queue].
    destruct (jobs s !! j0) as [job0|]; [|done].
    destruct (search_jobs s !! root_txid job0); [done|].
    destruct (owner_finished own); [done|]. destruct (host_unset own); [done|].
    destruct res as [td cnt dm| |msg]; [| |done].
    + destruct cnt as [n|]; [|done]. by destruct (n <=? cancel_thresh_txcount).
    + by destruct (10 <? fetch_retries job0).
  - exists []. unfold search_loop_dequeue. destruct (searching s); [done|].
    destruct (search_queue s) as [|j0 q]; [done|]. by destruct (owner_finished own).
  - unfold search_loop_call. destruct (searching s) as [[[j0 txids] k]|]; [|by exists []].
    unfold search_query_call. destruct (jobs s !! j0) as [job0|] eqn:Hj0; [|by exists []].
    destruct (waiting_to_cancel job0).
    + exists []. unfold _cancel. rewrite upd_job_lookup, Hj0. cbn [fmap option_fmap option_map].
      destruct (cancel_callback (cancel_flags job0)) as [cb|]; cbn [fst]; [|done].
      cbn [tx_store set_searching]. by rewrite run_callback_store.
    + destruct (search_query_chunk_store own resp j0 txids k job0 (tx_store s)) as [txs Htxs].
      exists txs.
      destruct (search_query_chunk txid_of own resp j0 txids k job0 (tx_store s))
        as [[[job' st'] ev] out].
      cbn [fst snd] in Htxs. by destruct out.
Qed.

Lemma cache_ok_shared_step o s :
  cache_ok (tx_store s) -> cache_ok (tx_store (shared_step txid_of o s)).
Proof.
  intros Hok. destruct o as [o|c]; cbn [shared_step].
  - destruct (step_tx_store o s) as [txs ->]. by apply cache_ok_put_all.
  - cbn [tx_store set_tx_store]. by apply cache_ok_step.
Qed.

(** X15: the invariant the comment on [_fetched_tx_cache] asks for.  In
    whatever order the search worker, the callers of the manager and the
    users of [tx_cache_put] and [tx_cache_get] act, whatever the replies hold
    and whatever a user does to the transaction a [tx_cache_get] has handed
    out, every transaction in the cache is in the non-deserialized state and
    has raw bytes: [tx_cache_put] stores a copy built from the raw bytes and
    [tx_cache_get] hands out another copy, never the cached object. *)
Theorem X15_cache_holds_raw_transactions ops k l :
  let st := tx_store (shared_run txid_of ops SlpGraphSearchManager_init) in
  (k, l) ∈ entries (fetched_tx_cache st) ->
  exists tx, tx_objects st !! l = Some tx /\ deserialized tx = false /\ raw tx ≠ "".
Proof.
  cbn zeta. revert k l. change (cache_ok (tx_store (shared_run txid_of ops SlpGraphSearchManager_init))).
  unfold shared_run.
  assert (H0 : cache_ok (tx_store SlpGraphSearchManager_init)).
  { intros k l Hin. by apply elem_of_nil in Hin. }
  revert H0. generalize SlpGraphSearchManager_init.
  induction ops as [|o ops IH]; intros s Hok; [done|].
  cbn [fold_left]. apply IH. by apply cache_ok_shared_step.
Qed.

(** ** Requests are made for vetted jobs only *)

Lemma search_query_chunk_metadata own resp j txids k job st :
  let '(job', st', ev, out) := search_query_chunk txid_of own resp j txids k job st in
  txn_count_total job' = txn_count_total job /\ depth_map job' = depth_map job.
Proof.
  unfold search_query_chunk.
  destruct (owner_finished own); [done|].
  destruct (depth_map job) as [dm|] eqn:Hdm; [|done].
  destruct (dm !! str ((k + 1) * 1000)) as [[bd cnt]|]; [|done].
  destruct (if 0 <? k then _ else _) as [qd|]; [|done].
  destruct (slpdb_host own) as [host|]; [|done].
  destruct resp as [g|msg]; [|done].
  destruct (tx_cache_put_all _ _ _) as [st' [e|]]; [done|].
  destruct (response_txns g) as [|tx txns];
    cbn [total_depth depth_completed set_txn_count_progress set_depth_completed
         set_last_search_url set_depth_current_query];
    (destruct (total_depth job); [|done]);
    match goal with
    | |- context [?a <? ?b] => destruct (a <? b)
    end; done.
Qed.

(** What a call of [search_query] past its cancel test asks of the backend:
    nothing, or the one request of its chunk. *)
Lemma search_query_chunk_request own resp j txids k job st e :
  e ∈ (search_query_chunk txid_of own resp j txids k job st).1.2 ->
  owner_finished own = false /\
  exists dm bd cnt qd,
    depth_map job = Some dm /\
    dm !! str ((k + 1) * 1000) = Some (bd, cnt) /\
    (if 0 <? k then (λ prev, bd - prev.1) <$> dm !! str (k * 1000) else Some bd) = Some qd /\
    e = EvSearchRequest j (if decide (k = 0) then [root_txid job] else txids) qd.
Proof.
  unfold search_query_chunk.
  destruct (owner_finished own); [by intros ?%elem_of_nil|].
  destruct (depth_map job) as [dm|] eqn:Hdm; [|by intros ?%elem_of_nil].
  destruct (dm !! str ((k + 1) * 1000)) as [[bd cnt]|] eqn:Hkey; [|by intros ?%elem_of_nil].
  destruct (if 0 <? k then _ else _) as [qd|] eqn:Hqd; [|by intros ?%elem_of_nil].
  destruct (slpdb_host own) as [host|]; [|by intros ?%elem_of_nil].
  destruct resp as [g|msg].
  2:{ cbn [fst snd]. intros ->%list_elem_of_singleton. split; [done|].
      by exists dm, bd, cnt, qd. }
  destruct (tx_cache_put_all _ _ _) as [st' [err|]].
  { cbn [fst snd]. intros ->%list_elem_of_singleton. split; [done|].
    by exists dm, bd, cnt, qd. }
  assert (Hfin : forall (x : GraphSearchJob * TxStore * list Event * Outcome),
            x.1.2 = [EvSearchRequest j (if decide (k = 0) then [root_txid job] else txids) qd] ->
            e ∈ x.1.2 ->
            false = false /\
            exists dm0 bd0 cnt0 qd0,
              Some dm = Some dm0 /\ dm0 !! str ((k + 1) * 1000) = Some (bd0, cnt0) /\
              (if 0 <? k then (λ prev, bd0 - prev.1) <$> dm0 !! str (k * 1000) else Some bd0)
                = Some qd0 /\
              e = EvSearchRequest j (if decide (k = 0) then [root_txid job] else txids) qd0).
  { intros x -> ->%list_elem_of_singleton. split; [done|]. by exists dm, bd, cnt, qd. }
  apply Hfin.
  destruct (response_txns g) as [|tx txns];
    cbn [total_depth depth_completed set_txn_count_progress set_depth_completed
         set_last_search_url set_depth_current_query];
    (destruct (total_depth job); [|done]);
    match goal with
    | |- context [?a <? ?b] => destruct (a <? b)
    end; done.
Qed.

Lemma Ainv_write s s' j0 :
  Ainv s ->
  (forall x, x ≠ j0 -> jobs s' !! x = jobs s !! x) ->
  (forall x, x ≠ j0 ->
     x ∈ search_queue s' ++ frame_job s' -> x ∈ search_queue s ++ frame_job s) ->
  (forall job', jobs s' !! j0 = Some job' ->
     j0 ∈ search_queue s' ++ frame_job s' -> vetted job') ->
  Ainv s'.
Proof.
  intros HA Hoth Hq Hj0 x job Hx Hin.
  destruct (decide (x = j0)) as [->|Hne]; [by apply Hj0|].
  rewrite Hoth in Hx by done. apply (HA x job Hx). by apply Hq.
Qed.

Lemma Ainv_queues s s' :
  jobs s' = jobs s ->
  (forall x, x ∈ search_queue s' ++ frame_job s' -> x ∈ search_queue s ++ frame_job s) ->
  Ainv s -> Ainv s'.
Proof. intros Hjobs Hq HA x job Hx Hin. rewrite Hjobs in Hx. apply (HA x job Hx). by apply Hq. Qed.

Lemma Ainv_upd_job j0 f s :
  (forall job, jobs s !! j0 = Some job ->
     txn_count_total (f job) = txn_count_total job /\ depth_map (f job) = depth_map job) ->
  Ainv s -> Ainv (upd_job j0 f s).
Proof.
  intros Hf HA. apply (Ainv_write s _ j0); try done.
  - intros x Hx. by rewrite upd_job_lookup_ne.
  - intros job'. rewrite upd_job_lookup. destruct (jobs s !! j0) as [job|] eqn:Hj; [|done].
    intros [= <-] Hin. destruct (HA j0 job Hj Hin) as (n & dm & Hn & Hlt & Hdm).
    destruct (Hf job eq_refl) as [H1 H2]. exists n, dm. by rewrite H1, H2.
Qed.

Lemma Ainv_new_search v s tr : Inv s tr -> Ainv s -> Ainv (new_search v s).1.
Proof.
  intros (_ & Hal & _) HA x job Hx Hin.
  assert (Hlt : (x < length (jobs s))%nat).
  { apply Hal. unfold pending. rewrite elem_of_app. by right. }
  rewrite new_search_lookup_ne in Hx by lia. by apply (HA x).
Qed.

Lemma Ainv_restart_callback j0 s tr : Inv s tr -> Ainv s -> Ainv (restart_callback j0 s).
Proof.
  intros HI HA. unfold restart_callback. destruct (jobs s !! j0) as [job0|]; [|done].
  apply (Ainv_new_search _ _ tr); [by apply Inv_set_search_jobs|done].
Qed.

Lemma Ainv_run_callback cb j0 s tr : Inv s tr -> Ainv s -> Ainv (run_callback cb j0 s).
Proof. destruct cb; cbn; [apply Ainv_restart_callback|done]. Qed.

Lemma sched_cancel_metadata cb reason job :
  txn_count_total (sched_cancel cb reason job) = txn_count_total job /\
  depth_map (sched_cancel cb reason job) = depth_map job.
Proof. unfold sched_cancel. cbn. by repeat case_match. Qed.

Lemma Ainv_metadata_loop own res s tr :
  Inv s tr -> Ainv s -> Ainv (metadata_loop own res s).1.
Proof.
  intros HI HA. unfold metadata_loop.
  destruct (metadata_queue s) as [|j0 q] eqn:Hq; [done|].
  pose proof HI as (Hnd & _).
  assert (Hpend : pending s = j0 :: q ++ search_queue s ++ frame_job s).
  { unfold pending. by rewrite Hq. }
  rewrite Hpend in Hnd. apply NoDup_cons in Hnd as [Hnp _].
  assert (Hnsq : j0 ∉ search_queue s ++ frame_job s).
  { intros H. apply Hnp. rewrite elem_of_app. by right. }
  cbn [jobs set_metadata_queue].
  destruct (jobs s !! j0) as [job0|] eqn:Hj0; [|done].
  cbn [search_jobs set_metadata_queue].
  destruct (search_jobs s !! root_txid job0); [done|].
  set (s1 := set_search_jobs _ (set_metadata_queue q s)).
  assert (Hout : forall s' f,
            jobs s' = alter f j0 (jobs s) ->
            search_queue s' ++ frame_job s' = search_queue s ++ frame_job s ->
            Ainv s').
  { intros s' f Hjobs Hqs. apply (Ainv_write s s' j0); try done.
    - intros x Hx. rewrite Hjobs. by apply list_lookup_alter_ne.
    - intros x Hx. by rewrite Hqs.
    - intros job' _. by rewrite Hqs. }
  destruct (owner_finished own); [by apply (Hout _ (set_failed (Some "validation finished")))|].
  destruct (host_unset own); [by apply (Hout _ (set_failed (Some "SLPDB host not set")))|].
  destruct res as [td cnt dm| |msg]; [| |by apply (Hout _ (set_failed (Some msg)))].
  - assert (HfailM : forall msg,
              Ainv (upd_job j0 (set_failed msg) (upd_job j0 (set_metadata td cnt dm) s1))).
    { intros msg. apply (Hout _ (set_failed msg ∘ set_metadata td cnt dm)); [|done].
      cbn. by rewrite list_alter_alter_eq. }
    destruct cnt as [n|]; [|apply HfailM].
    destruct (Z.leb_spec n cancel_thresh_txcount) as [|Hlt]; [apply HfailM|].
    cbn [fst]. apply (Ainv_write s _ j0); try done.
    + intros x Hx. cbn [jobs set_search_queue]. by rewrite upd_job_lookup_ne.
    + intros x Hx. unfold s1. cbn [search_queue set_search_queue].
      destruct frame_job_unchanged as (F1 & F2 & F3 & _ & F5).
      rewrite ?F1, ?F2, ?F5, ?F3, ?F2.
      rewrite !elem_of_app, ?elem_of_cons, ?elem_of_nil. tauto.
    + intros job'. cbn [jobs set_search_queue]. rewrite upd_job_lookup.
      change (jobs s1) with (jobs s). rewrite Hj0. intros [= <-] _.
      by exists n, dm.
  - destruct (10 <? fetch_retries job0);
      [by apply (Hout _ (set_failed (Some "No data found, right-click to try")))|].
    by apply (Hout _ (λ job, set_fetch_retries (fetch_retries job + 1) job)).
Qed.

Lemma Ainv_search_loop_dequeue own s : Ainv s -> Ainv (search_loop_dequeue own s).
Proof.
  intros HA. unfold search_loop_dequeue.
  destruct (searching s) as [fr|] eqn:Hs; [done|].
  destruct (search_queue s) as [|j0 q] eqn:Hq; [done|].
  destruct (owner_finished own).
  - apply (Ainv_queues (upd_job j0 (set_failed (Some "validation finished"))
                          (upd_job j0 (set_search_started true) s))); [done| |].
    + intros x. unfold frame_job. cbn. rewrite Hs, Hq. by right.
    + by do 2 (apply Ainv_upd_job; [done|]).
  - apply (Ainv_queues (upd_job j0 (set_search_started true) s)); [done| |].
    + intros x. unfold frame_job. cbn. rewrite Hs, Hq.
      rewrite !elem_of_app, !elem_of_cons, !elem_of_nil. tauto.
    + by apply Ainv_upd_job.
Qed.

Lemma Ainv_search_loop_call own resp s tr :
  Inv s tr -> Ainv s -> Ainv (search_loop_call txid_of own resp s).1.
Proof.
  intros HI HA. unfold search_loop_call.
  destruct (searching s) as [[[j0 txids] k]|] eqn:Hs; [|done].
  assert (Hfr : frame_job s = [j0]) by (unfold frame_job; by rewrite Hs).
  assert (Hclear : forall s' : SlpGraphSearchManager,
            search_queue s' = search_queue s ->
            forall x, x ∈ search_queue (set_searching None s') ++
                          frame_job (set_searching None s') ->
                      x ∈ search_queue s ++ frame_job s).
  { intros s' Hsq x. unfold frame_job at 1. cbn. rewrite Hsq, app_nil_r, elem_of_app. by left. }
  unfold search_query_call.
  destruct (jobs s !! j0) as [job0|] eqn:Hj0.
  2:{ cbn [fst]. apply (Ainv_queues s); [|by apply Hclear|done].
      cbn [jobs set_searching]. by apply upd_job_lookup_None. }
  destruct (waiting_to_cancel job0).
  - unfold _cancel. rewrite upd_job_lookup, Hj0. cbn [fmap option_fmap option_map].
    change (cancel_callback (cancel_flags job0)) with (cancel_callback job0).
    assert (HA1 : Ainv (set_searching None (upd_job j0 cancel_flags s))).
    { apply (Ainv_queues (upd_job j0 cancel_flags s)); [done|by apply Hclear|].
      by apply Ainv_upd_job. }
    destruct (cancel_callback job0) as [cb|]; cbn [fst]; [|done].
    rewrite run_callback_set_searching.
    apply (Ainv_run_callback cb j0 _ tr); [|done].
    by apply Inv_clear_frame, Inv_upd_job.
  - pose proof (search_query_chunk_metadata own resp j0 txids k job0 (tx_store s)) as Hch.
    destruct (search_query_chunk txid_of own resp j0 txids k job0 (tx_store s))
      as [[[job' st'] ev] out].
    assert (HA1 : Ainv (upd_job j0 (λ _, job') s)).
    { apply Ainv_upd_job; [|done]. intros job Hjob. by simplify_eq. }
    destruct out as [|txids' k'|msg]; cbn [fst].
    + apply (Ainv_queues (upd_job j0 (λ _, job') s)); [done|by apply Hclear|done].
    + apply (Ainv_queues (upd_job j0 (λ _, job') s)); [done| |done].
      intros x. unfold frame_job. cbn. by rewrite Hs.
    + apply (Ainv_queues (upd_job j0 (set_failed (Some msg)) (upd_job j0 (λ _, job') s)));
        [done|by apply Hclear|].
      by apply Ainv_upd_job.
Qed.

Lemma Ainv_step o s tr : Inv s tr -> Ainv s -> Ainv (step txid_of o s).1.
Proof.
  intros HI HA. destruct o as [v|j0|j0 cb reason|own res|own|own resp]; cbn [step fst].
  - by apply (Ainv_new_search _ s tr).
  - unfold restart_search. destruct (jobs s !! j0) as [job0|]; [|done].
    destruct (negb (job_complete job0)).
    + apply Ainv_upd_job; [|done]. intros. apply sched_cancel_metadata.
    + by apply (Ainv_restart_callback _ s tr).
  - apply Ainv_upd_job; [|done]. intros. apply sched_cancel_metadata.
  - by apply (Ainv_metadata_loop _ _ s tr).
  - by apply Ainv_search_loop_dequeue.
  - by apply (Ainv_search_loop_call _ _ s tr).
Qed.

Lemma Ainv_run ops s tr : Inv s tr -> Ainv s -> Ainv (run txid_of ops s).1.
Proof.
  revert s tr. induction ops as [|o ops IH]; intros s tr HI HA; [done|].
  cbn [run]. pose proof (Inv_step txid_of o s tr HI) as HI1.
  pose proof (Ainv_step o s tr HI HA) as HA1.
  destruct (step txid_of o s) as [s1 ev1]. cbn [fst snd] in *.
  specialize (IH s1 _ HI1 HA1). by destruct (run txid_of ops s1) as [s2 ev2].
Qed.

(** X16: the backend is asked to search for vetted jobs only.  In every
    run, a step that issues a search request is a call of [search_query] by
    the search worker with the owner of the job live; the job is the one the
    worker holds, it has the depth map and a transaction count above
    [cancel_thresh_txcount] that a successful fetch has stored, it reads as
    started, is not complete and has no cancellation pending; and the
    request of chunk 0 asks for the root id of the job, whatever [txids]
    holds. *)
Theorem X16_requests_for_vetted_jobs ops o j txids qd :
  let s := (run txid_of ops SlpGraphSearchManager_init).1 in
  EvSearchRequest j txids qd ∈ (step txid_of o s).2 ->
  exists own resp job n dm t k,
    o = SearchLoopCall own resp /\
    owner_finished own = false /\
    searching s = Some (j, t, k) /\
    jobs s !! j = Some job /\
    txn_count_total job = Some n /\ cancel_thresh_txcount < n /\
    depth_map job = Some dm /\
    search_started job = true /\ job_complete job = false /\
    waiting_to_cancel job = false /\
    txids = (if decide (k = 0) then [root_txid job] else t).
Proof.
  cbn zeta.
  pose proof (Inv_run txid_of ops _ _ Inv_init) as HI.
  pose proof (Sinv_run ops _ _ Inv_init Sinv_init) as HS.
  pose proof (Ainv_run ops _ _ Inv_init) as HA.
  destruct (run txid_of ops SlpGraphSearchManager_init) as [s tr]. cbn [fst snd] in *.
  assert (HA0 : Ainv SlpGraphSearchManager_init).
  { intros x job Hx. cbn in Hx. by rewrite lookup_nil in Hx. }
  specialize (HA HA0). clear HA0.
  destruct o as [v|j0|j0 cb reason|own res|own|own resp]; cbn [step fst snd];
    try (by intros ?%elem_of_nil).
  - (* metadata_loop: fetches and sleeps only *)
    unfold metadata_loop. destruct (metadata_queue s) as [|j0 q]; [by intros ?%elem_of_nil|].
    cbn [jobs search_jobs set_metadata_queue].
    destruct (jobs s !! j0) as [job0|]; [|by intros ?%elem_of_nil].
    destruct (search_jobs s !! root_txid job0); [by intros ?%elem_of_nil|].
    destruct (owner_finished own); [by intros ?%elem_of_nil|].
    destruct (host_unset own); [by intros ?%elem_of_nil|].
    destruct res as [td cnt dm| |msg].
    + destruct cnt as [n|]; [destruct (n <=? cancel_thresh_txcount)|];
        cbn [snd]; by intros ?%list_elem_of_singleton.
    + destruct (10 <? fetch_retries job0); cbn [snd];
        [by intros ?%list_elem_of_singleton|].
      rewrite elem_of_cons. intros [?|Hin]; [done|].
      destruct (metadata_queue _); [by apply list_elem_of_singleton in Hin|].
      by apply elem_of_nil in Hin.
    + cbn [snd]. by intros ?%list_elem_of_singleton.
  - unfold search_loop_call.
    destruct (searching s) as [[[j0 t] k]|] eqn:Hs; [|by intros ?%elem_of_nil].
    assert (Hfr : frame_job s = [j0]) by (unfold frame_job; by rewrite Hs).
    unfold search_query_call.
    destruct (jobs s !! j0) as [job0|] eqn:Hj0; [|by intros ?%elem_of_nil].
    destruct (waiting_to_cancel job0) eqn:Hw.
    + unfold _cancel. rewrite upd_job_lookup, Hj0. cbn [fmap option_fmap option_map].
      destruct (cancel_callback (cancel_flags job0)) as [cb|]; cbn [snd];
        [by intros ?%list_elem_of_singleton|by intros ?%elem_of_nil].
    + pose proof (search_query_chunk_request own resp j0 t k job0 (tx_store s)
                    (EvSearchRequest j txids qd)) as Hreq.
      destruct (search_query_chunk txid_of own resp j0 t k job0 (tx_store s))
        as [[[job' st'] ev] out].
      cbn [fst snd] in Hreq. intros Hin.
      assert (Hin' : EvSearchRequest j txids qd ∈ ev) by (by destruct out).
      destruct (Hreq Hin') as (Hown & dm & bd & cnt & qd' & Hdm & _ & _ & [= -> -> ->]).
      assert (Hinq : j0 ∈ search_queue s ++ frame_job s).
      { rewrite Hfr, elem_of_app. right. by left. }
      destruct (HA j0 job0 Hj0 Hinq) as (n & dm' & Hn & Hlt & Hdm').
      specialize (HS j0). unfold sinv in HS. rewrite Hj0 in HS.
      destruct HS as (_ & Hpc & Hst).
      exists own, resp, job0, n, dm', t, k. do 7 (split; [done|]).
      split; [apply Hst; rewrite Hfr; by left|].
      split; [|done]. apply Hpc. unfold pending. rewrite !elem_of_app. right. right.
      rewrite Hfr. by left.
Qed.

End Extras.

(** * The further properties on concrete inputs *)

(** X2, on a reply of two elements. *)
Lemma X2_fetch_metadata_last_element_witness :
  forallb reply_complete [demo_meta_stale] = true /\
  fetch_metadata (MetaJson (Some ([demo_meta_stale] ++ [demo_meta_last]))) demo_job =
    Fetched (set_metadata (Some 9) (Some 1500) demo_depth_map demo_job) /\
  fetch_result (MetaJson (Some ([demo_meta_stale] ++ [demo_meta_last]))) = demo_metadata.
Proof.
  split; [reflexivity|].
  apply (X2_fetch_metadata_last_element [demo_meta_stale] demo_meta_last demo_job
           demo_depth_map (Some 1500) (Some 9)); reflexivity.
Defined.


(** X5, at chunk 2 of a depth map that ends at key 2000. *)
Lemma X5_missing_boundary_key_witness :
  demo_depth_map !! str ((2 + 1) * 1000) = None /\
  jobs (search_loop_call demo_txid demo_live (RespOk demo_reply_0) (demo_at_chunk 2)).1
    !! 0%nat = Some (set_failed (Some "'3000'") demo_fetched_job) /\
  (search_loop_call demo_txid demo_live (RespOk demo_reply_0) (demo_at_chunk 2)).2 = [].
Proof.
  pose proof (X5_missing_boundary_key demo_txid demo_live (RespOk demo_reply_0)
                0%nat ["aa"] 2 (demo_at_chunk 2) demo_fetched_job demo_depth_map
                eq_refl eq_refl eq_refl eq_refl eq_refl) as [H _].
  destruct (H eq_refl) as (Hev & _ & _ & _ & _ & Hj).
  split; [reflexivity|]. split; [exact Hj|exact Hev].
Defined.

(** X6, on a reply whose second transaction is empty. *)
Lemma X6_empty_raw_in_reply_witness :
  response_txns demo_reply_bad =
    [(1, Transaction_new "aa")] ++ (5, Transaction_new "") :: [(5, Transaction_new "cc")] /\
  exists job',
    jobs (search_loop_call demo_txid demo_live (RespOk demo_reply_bad) (demo_at_chunk 0)).1
      !! 0%nat = Some job' /\
    is_failed invalid_raw_msg job' /\
    txn_count_progress job' = 3 /\
    depth_completed job' = 0.
Proof.
  assert (Hpre : Forall (λ tx : Z * Transaction, raw tx.2 ≠ "") [(1, Transaction_new "aa")]).
  { repeat constructor. discriminate. }
  destruct (X6_empty_raw_in_reply demo_txid demo_live demo_reply_bad 0%nat ["aa"] 0
              (demo_at_chunk 0) demo_fetched_job demo_depth_map 5 1000 5
              "https://slpdb.example" [(1, Transaction_new "aa")] 5 (Transaction_new "")
              [(5, Transaction_new "cc")]
              eq_refl eq_refl eq_refl eq_refl eq_refl eq_refl eq_refl eq_refl eq_refl
              Hpre eq_refl)
    as (st' & job' & _ & _ & _ & Hj & Hfailed & Hcount & Hdepth).
  split; [reflexivity|]. exists job'. split; [exact Hj|]. split; [exact Hfailed|].
  split; [exact Hcount|exact Hdepth].
Defined.

(** X7, on an owner that has finished. *)
Lemma X7_no_request_when_owner_finished_witness :
  owner_finished demo_finished = true /\
  (metadata_loop demo_finished demo_metadata demo_submitted).2 = [].
Proof.
  split; [reflexivity|].
  apply (proj1 (X7_no_request_when_owner_finished demo_txid demo_finished)).
  left. reflexivity.
Defined.

(** X8, on the job of the demo search after its first chunk. *)
Lemma X8_status_consistent_witness :
  let s := (run demo_txid demo_search_ops SlpGraphSearchManager_init).1 in
  frame_job s = [0%nat] /\
  exists job,
    jobs s !! 0%nat = Some job /\
    search_started job = true /\ job_complete job = false /\ search_success job = None.
Proof.
  cbv zeta.
  assert (Hfr : frame_job (run demo_txid demo_search_ops SlpGraphSearchManager_init).1
                = [0%nat]) by (vm_compute; reflexivity).
  split; [exact Hfr|].
  destruct (jobs (run demo_txid demo_search_ops SlpGraphSearchManager_init).1 !! 0%nat)
    as [job|] eqn:Hj; [|vm_compute in Hj; discriminate Hj].
  destruct (X8_status_consistent demo_txid demo_search_ops 0%nat job Hj)
    as (_ & _ & Hp & Hf).
  assert (Hin : 0%nat ∈ frame_job (run demo_txid demo_search_ops SlpGraphSearchManager_init).1).
  { rewrite Hfr. apply list_elem_of_singleton. reflexivity. }
  exists job. split; [reflexivity|]. split; [exact (Hf Hin)|].
  apply Hp. apply frame_job_pending. exact Hin.
Defined.

(** X9, on the demo search run to its end. *)
Lemma X9_success_reached_total_depth_witness :
  forallb op_ok demo_success_ops = true /\
  exists job,
    jobs (run demo_txid demo_success_ops SlpGraphSearchManager_init).1 !! 0%nat = Some job /\
    search_success job = Some true /\
    job_complete job = true /\
    total_depth job = Some 9 /\ depth_completed job = 9.
Proof.
  assert (Hok : forallb op_ok demo_success_ops = true) by (vm_compute; reflexivity).
  split; [exact Hok|].
  destruct (jobs (run demo_txid demo_success_ops SlpGraphSearchManager_init).1 !! 0%nat)
    as [job|] eqn:Hj; [|vm_compute in Hj; discriminate Hj].
  assert (Hsu : search_success job = Some true).
  { pose proof Hj as Hj'. vm_compute in Hj'. injection Hj' as <-. reflexivity. }
  assert (Htd : total_depth job = Some 9).
  { pose proof Hj as Hj'. vm_compute in Hj'. injection Hj' as <-. reflexivity. }
  destruct (X9_success_reached_total_depth demo_txid demo_success_ops 0%nat job Hj Hsu)
    as (Hc & _ & total & Htotal & _ & Heq).
  exists job. split; [reflexivity|]. split; [exact Hsu|]. split; [exact Hc|].
  split; [exact Htd|]. rewrite (Heq Hok). congruence.
Defined.

(** X11, on a job that failed in the metadata stage: a later cancellation
    request writes its reason and nothing else. *)
Lemma X11_settled_job_witness :
  let ops1 := demo_duplicate_ops in
  let ops2 := [CallSchedCancel 0%nat None "late"; MetadataLoop demo_live demo_metadata] in
  exists job job',
    jobs (run demo_txid ops1 SlpGraphSearchManager_init).1 !! 0%nat = Some job /\
    job_complete job = true /\
    jobs (run demo_txid (ops1 ++ ops2) SlpGraphSearchManager_init).1 !! 0%nat = Some job' /\
    job' = set_exit_msg (exit_msg job') job.
Proof.
  cbv zeta.
  destruct (jobs (run demo_txid demo_duplicate_ops SlpGraphSearchManager_init).1 !! 0%nat)
    as [job|] eqn:Hj; [|vm_compute in Hj; discriminate Hj].
  assert (Hc : job_complete job = true).
  { pose proof Hj as Hj'. vm_compute in Hj'. injection Hj' as <-. reflexivity. }
  destruct (X11_settled_job demo_txid demo_duplicate_ops
              [CallSchedCancel 0%nat None "late"; MetadataLoop demo_live demo_metadata]
              0%nat job Hj (or_introl Hc))
    as (_ & job' & Hj' & _ & _ & _ & Hfinal).
  exists job, job'. split; [reflexivity|]. split; [exact Hc|]. split; [exact Hj'|].
  exact (Hfinal Hc).
Defined.

(** X12, on the registry of the demo search. *)
Lemma X12_registry_keyed_by_root_witness :
  search_jobs (run demo_txid demo_search_ops SlpGraphSearchManager_init).1 !! "root"
    = Some 0%nat /\
  exists job,
    jobs (run demo_txid demo_search_ops SlpGraphSearchManager_init).1 !! 0%nat = Some job /\
    root_txid job = "root".
Proof.
  assert (Hr : search_jobs (run demo_txid demo_search_ops SlpGraphSearchManager_init).1
                 !! "root" = Some 0%nat) by (vm_compute; reflexivity).
  split; [exact Hr|].
  destruct (X12_registry_keyed_by_root demo_txid demo_search_ops "root" 0%nat Hr)
    as (job & Hj & Hroot & _).
  exists job. split; [exact Hj|exact Hroot].
Defined.

(** X13, on a job that found no data: it was fetched once, has one retry
    and is not complete, although the backend had data at the third
    iteration. *)
Lemma X13_no_retry_without_restart_witness :
  forallb no_restart demo_no_data_ops = true /\
  metadata_queue (run demo_txid demo_no_data_ops SlpGraphSearchManager_init).1 = [] /\
  exists job,
    jobs (run demo_txid demo_no_data_ops SlpGraphSearchManager_init).1 !! 0%nat = Some job /\
    fetch_retries job = 1 /\
    count_fetch 0 (run demo_txid demo_no_data_ops SlpGraphSearchManager_init).2 = 1%nat /\
    job_complete job = false /\ search_success job = None.
Proof.
  assert (Hno : forallb no_restart demo_no_data_ops = true) by reflexivity.
  split; [exact Hno|]. split; [vm_compute; reflexivity|].
  destruct (jobs (run demo_txid demo_no_data_ops SlpGraphSearchManager_init).1 !! 0%nat)
    as [job|] eqn:Hj; [|vm_compute in Hj; discriminate Hj].
  assert (Hret : fetch_retries job = 1).
  { pose proof Hj as Hj'. vm_compute in Hj'. injection Hj' as <-. reflexivity. }
  destruct (X13_no_retry_without_restart demo_txid demo_no_data_ops 0%nat job Hno Hj)
    as (_ & _ & Hpos).
  destruct (Hpos ltac:(rewrite Hret; reflexivity)) as (Hcnt & Hc & Hsu & _).
  exists job. split; [reflexivity|]. split; [exact Hret|]. split; [exact Hcnt|].
  split; [exact Hc|exact Hsu].
Defined.

(** X14, on the demo job: its depth map has two boundary keys, and three
    calls end the recursion. *)
Lemma X14_search_query_terminates_witness :
  rounds_left (demo_at_chunk 0) 0 0 = 2%nat /\
  exists out,
    (search_query demo_txid demo_env 0%nat ["aa"] 0 (demo_at_chunk 0)).2 = Some out /\
    (out = Return \/ exists msg, out = Raise msg).
Proof.
  assert (Hr : rounds_left (demo_at_chunk 0) 0 0 = 2%nat) by (vm_compute; reflexivity).
  split; [exact Hr|].
  apply (X14_search_query_terminates demo_txid demo_env 0%nat ["aa"] 0 (demo_at_chunk 0)).
  rewrite Hr. cbn. lia.
Defined.

(** X15, on a user that deserializes what it put and what it got. *)
Lemma X15_cache_holds_raw_transactions_witness :
  entries (fetched_tx_cache
             (tx_store (shared_run demo_txid demo_cache_ops SlpGraphSearchManager_init)))
    = [(demo_txid "0100", 0%nat)] /\
  exists tx,
    tx_objects (tx_store (shared_run demo_txid demo_cache_ops SlpGraphSearchManager_init))
      !! 0%nat = Some tx /\
    deserialized tx = false /\ raw tx ≠ "".
Proof.
  assert (He : entries (fetched_tx_cache
                 (tx_store (shared_run demo_txid demo_cache_ops SlpGraphSearchManager_init)))
               = [(demo_txid "0100", 0%nat)]) by (vm_compute; reflexivity).
  split; [exact He|].
  apply (X15_cache_holds_raw_transactions demo_txid demo_cache_ops (demo_txid "0100") 0%nat).
  cbv zeta. rewrite He. apply list_elem_of_singleton. reflexivity.
Defined.

(** X16, on the first request of the demo search. *)
Lemma X16_requests_for_vetted_jobs_witness :
  let ops := [CallNewSearch demo_valjob; MetadataLoop demo_live demo_metadata;
              SearchLoopDequeue demo_live] in
  let s := (run demo_txid ops SlpGraphSearchManager_init).1 in
  (step demo_txid (SearchLoopCall demo_live (RespOk demo_reply_0)) s).2 =
    [EvSearchRequest 0%nat ["root"] 5] /\
  exists job n,
    jobs s !! 0%nat = Some job /\
    txn_count_total job = Some n /\ cancel_thresh_txcount < n /\
    search_started job = true /\ waiting_to_cancel job = false.
Proof.
  cbv zeta.
  assert (Hev : (step demo_txid (SearchLoopCall demo_live (RespOk demo_reply_0))
                   (run demo_txid [CallNewSearch demo_valjob;
                                   MetadataLoop demo_live demo_metadata;
                                   SearchLoopDequeue demo_live]
                      SlpGraphSearchManager_init).1).2 =
                [EvSearchRequest 0%nat ["root"] 5]) by (vm_compute; reflexivity).
  split; [exact Hev|].
  destruct (X16_requests_for_vetted_jobs demo_txid
              [CallNewSearch demo_valjob; MetadataLoop demo_live demo_metadata;
               SearchLoopDequeue demo_live]
              (SearchLoopCall demo_live (RespOk demo_reply_0)) 0%nat ["root"] 5)
    as (own & resp & job & n & dm & t & k & _ & _ & _ & Hj & Hn & Hlt & _ & Hst & _ & Hw & _).
  { cbv zeta. rewrite Hev. apply list_elem_of_singleton. reflexivity. }
  exists job, n. split; [exact Hj|]. split; [exact Hn|]. split; [exact Hlt|].
  split; [exact Hst|exact Hw].
Defined.
